(** * SelfStart control plane: a shallow embedding of the backend-api modules

    The development follows the Python sources module by module:
    - [Proxy]        : [proxy_manager.py]  (backend selection, active health check)
    - [Discovery]    : [service_discovery.py] (service health loop)
    - [Scaler]       : [auto_scaler.py]    (metric derivation, cooldown, scale actions)
    - [Orchestrator] : [container_orchestrator.py] (registration, startup queue, health loop)
    - [Shutdown]     : [autoshutdown_manager.py] (protection predicate)
    - [Plugins]      : [plugin_manager.py] (hook bus)
    - [Scenario]     : concrete inputs for the examples
    The properties come after the definitions.

    Conventions.  Python [int] is [Z]; [float] is modelled by exact rationals
    [Q]; [str] is [string]; a [dict] with string keys is a [gmap string _];
    [Optional[T]] is [option T].  A [datetime] is the number of microseconds
    since the epoch, so [(a - b).total_seconds() >= s] reads
    [s * 1000000 <= a - b].  Everything the code obtains from the outside
    (the container runtime, HTTP probes, the clock, the random generator) is
    an explicit argument of the function that uses it.  A Python exception is
    the [Raise] constructor of [result]. *)

From Stdlib Require Import ZArith QArith Lia List Bool.
From stdpp Require Import base option list gmap strings pretty.
Import ListNotations.

Local Open Scope Z_scope.

(* ===================================================================== *)
(** ** Python primitives shared by the modules *)
(* ===================================================================== *)

Module Py.

(** The outcome of a call that may raise. *)
Inductive result (A : Type) : Type :=
  | Ok (a : A)
  | Raise (exn : string).
Arguments Ok {A} a.
Arguments Raise {A} exn.

Definition bind {A B} (r : result A) (k : A -> result B) : result B :=
  match r with
  | Ok a => k a
  | Raise e => Raise e
  end.

Definition is_ok {A} (r : result A) : bool :=
  match r with Ok _ => true | Raise _ => false end.

(** [l[i]] with Python's negative indices; [IndexError] out of range. *)
Definition index {A} (l : list A) (i : Z) : result A :=
  let n := Z.of_nat (length l) in
  let j := if i <? 0 then i + n else i in
  if (j <? 0) || (n <=? j) then Raise "IndexError"
  else match l !! Z.to_nat j with
       | Some x => Ok x
       | None => Raise "IndexError"
       end.

(** [a % b] on integers; [ZeroDivisionError] when [b = 0].  For [b <> 0]
    Python's result has the sign of [b], like [Z.modulo]. *)
Definition mod_ (a b : Z) : result Z :=
  if b =? 0 then Raise "ZeroDivisionError" else Ok (a mod b).

(** [a / b], true division; [ZeroDivisionError] when [b] is zero. *)
Definition truediv (a b : Q) : result Q :=
  if Qeq_bool b 0 then Raise "ZeroDivisionError" else Ok (a / b)%Q.

Definition Qltb (a b : Q) : bool := negb (Qle_bool b a).
Definition Qleb (a b : Q) : bool := Qle_bool a b.

(** [l[-count:]]: the slice start is [-count], clipped to the list. *)
Definition last_slice {A} (l : list A) (count : Z) : list A :=
  let n := Z.of_nat (length l) in
  let start := - count in
  let start' := if start <? 0 then Z.max (n + start) 0 else Z.min start n in
  drop (Z.to_nat start') l.

(** [min(l, key=...)] and [max(l, key=...)]: the first extremal element;
    [ValueError] on an empty list. *)
Definition min_by {A} (key : A -> Z) (l : list A) : result A :=
  match l with
  | [] => Raise "ValueError"
  | x :: l' =>
      Ok (fold_left (fun best y => if key y <? key best then y else best) l' x)
  end.

Definition max_byQ {A} (key : A -> Q) (l : list A) : result A :=
  match l with
  | [] => Raise "ValueError"
  | x :: l' =>
      Ok (fold_left (fun best y => if Qltb (key best) (key y) then y else best) l' x)
  end.

(** Truthiness of an [Optional[str]]. *)
Definition truthy_str (s : option string) : bool :=
  match s with
  | Some s' => negb (String.eqb s' "")
  | None => false
  end.

Definition usec : Z := 1000000.

(** [(a - b).total_seconds() >= s] for an integer number of seconds [s]. *)
Definition elapsed_ge (a b : Z) (s : Z) : bool := s * usec <=? a - b.

(** [datetime.min], 0001-01-01T00:00:00, in microseconds from the epoch. *)
Definition datetime_min : Z := -62135596800 * usec.

(** The outcome of one HTTP GET used as a health probe: a response with
    its status code, or an exception (refused, timed out, ...). *)
Inductive Probe :=
  | Responded (status_code : Z)
  | ProbeFailed.

(** [d[k]] on a dict read from the outside: [KeyError] when absent. *)
Definition getitem {A} (k : string) (o : option A) : result A :=
  match o with
  | Some v => Ok v
  | None => Raise ("KeyError: " +:+ k)
  end.

#[export] Instance result_bind : MBind result :=
  fun A B k r => bind r k.
#[export] Instance result_ret : MRet result := @Ok.

End Py.

Import Py.

(* ===================================================================== *)
(** ** proxy_manager.py *)
(* ===================================================================== *)

Module Proxy.

Inductive ProxyRule :=
  ROUND_ROBIN | LEAST_CONNECTIONS | WEIGHTED | IP_HASH | HEALTH_BASED.

Inductive BackendStatus := HEALTHY | UNHEALTHY | DRAINING | MAINTENANCE.

Definition BackendStatus_eqb (a b : BackendStatus) : bool :=
  match a, b with
  | HEALTHY, HEALTHY | UNHEALTHY, UNHEALTHY
  | DRAINING, DRAINING | MAINTENANCE, MAINTENANCE => true
  | _, _ => false
  end.

Record Backend := mkBackend {
  host : string;
  port : Z;
  weight : Z;
  max_connections : Z;
  current_connections : Z;
  status : BackendStatus;
  last_health_check : option Z;
  response_time : Q;
  error_count : Z;
  success_count : Z
}.

(** [Backend.url] *)
Definition url (b : Backend) : string :=
  "http://" +:+ host b +:+ ":" +:+ pretty (port b).

(** [Backend.health_ratio].  The quotient is exact here; the comparisons
    made on it agree with those of binary64 as long as the counters stay
    below 2^53. *)
Definition health_ratio (b : Backend) : Q :=
  let total := success_count b + error_count b in
  if 0 <? total then (inject_Z (success_count b) / inject_Z total)%Q else 1%Q.

Record ProxyTarget := mkTarget {
  name : string;
  backends : list Backend;
  rule : ProxyRule;
  health_check_path : string;
  health_check_interval : Z;
  health_check_timeout : Z;
  max_retries : Z;
  retry_timeout : Z;
  circuit_breaker_threshold : Z;
  circuit_breaker_timeout : Z;
  sticky_sessions : bool
}.

(** [ProxyTarget.get_healthy_backends] *)
Definition get_healthy_backends (t : ProxyTarget) : list Backend :=
  List.filter (fun b => BackendStatus_eqb (status b) HEALTHY) (backends t).

(** What a selection reads from outside the target: the shared round-robin
    counter ([None] when there is no store or the call raised), the wall
    clock in seconds, the random generator and MD5 read as an integer. *)
Record SelectEnv := mkSelectEnv {
  redis_incr : option Z;
  clock : Z;
  randint : Z -> Z -> Z;
  md5_int : string -> Z;
  session_store : gmap string string
}.

(** [ProxyManager._round_robin_select] *)
Definition _round_robin_select (env : SelectEnv) (bs : list Backend)
  : result Backend :=
  let n := Z.of_nat (length bs) in
  let from_store :=
    match redis_incr env with
    | Some idx => bind (mod_ idx n) (index bs)
    | None => Raise "no store"
    end in
  match from_store with
  | Ok b => Ok b
  | Raise _ => bind (mod_ (clock env) n) (index bs)
  end.

Fixpoint weighted_loop (r : Z) (bs : list Backend) : option Backend :=
  match bs with
  | [] => None
  | b :: bs' =>
      let r' := r - weight b in
      if r' <=? 0 then Some b else weighted_loop r' bs'
  end.

Definition sum_weights (bs : list Backend) : Z :=
  fold_right (fun b acc => weight b + acc) 0 bs.

(** [ProxyManager._weighted_select]; [random.randint(1, n)] raises
    [ValueError] on an empty range. *)
Definition _weighted_select (env : SelectEnv) (bs : list Backend)
  : result Backend :=
  let total_weight := sum_weights bs in
  if total_weight =? 0 then index bs 0
  else if total_weight <? 1 then Raise "ValueError"
  else
    match weighted_loop (randint env 1 total_weight) bs with
    | Some b => Ok b
    | None => index bs (-1)
    end.

(** [ProxyManager._ip_hash_select] *)
Definition _ip_hash_select (env : SelectEnv) (bs : list Backend)
    (client_ip : option string) : result Backend :=
  match client_ip with
  | Some ip =>
      if String.eqb ip "" then index bs 0
      else bind (mod_ (md5_int env ip) (Z.of_nat (length bs))) (index bs)
  | None => index bs 0
  end.

(** The sticky-session lookup at the head of [_select_backend]. *)
Definition sticky_lookup (env : SelectEnv) (t : ProxyTarget)
    (healthy : list Backend) (session_id : option string) : option Backend :=
  if sticky_sessions t && truthy_str session_id then
    match session_id with
    | Some sid =>
        match session_store env !! sid with
        | Some backend_url =>
            List.find (fun b => String.eqb (url b) backend_url) healthy
        | None => None
        end
    | None => None
    end
  else None.

(** [ProxyManager._select_backend] *)
Definition _select_backend (env : SelectEnv) (t : ProxyTarget)
    (client_ip session_id : option string) : result (option Backend) :=
  let healthy_backends := get_healthy_backends t in
  match healthy_backends with
  | [] => Ok None
  | _ =>
      match sticky_lookup env t healthy_backends session_id with
      | Some b => Ok (Some b)
      | None =>
          bind
            match rule t with
            | ROUND_ROBIN => _round_robin_select env healthy_backends
            | LEAST_CONNECTIONS => min_by current_connections healthy_backends
            | WEIGHTED => _weighted_select env healthy_backends
            | IP_HASH => _ip_hash_select env healthy_backends client_ip
            | HEALTH_BASED => max_byQ health_ratio healthy_backends
            end
            (fun b => Ok (Some b))
      end
  end.

Definition set_status (b : Backend) (s : BackendStatus) : Backend :=
  mkBackend (host b) (port b) (weight b) (max_connections b)
    (current_connections b) s (last_health_check b) (response_time b)
    (error_count b) (success_count b).

Definition set_last_health_check (b : Backend) (now : Z) : Backend :=
  mkBackend (host b) (port b) (weight b) (max_connections b)
    (current_connections b) (status b) (Some now) (response_time b)
    (error_count b) (success_count b).

(** [ProxyManager._check_backend_health] *)
Definition _check_backend_health (t : ProxyTarget) (b : Backend)
    (now : Z) (p : Probe) : Backend :=
  let b' :=
    match p with
    | Responded code =>
        if code =? 200 then set_status b HEALTHY else set_status b UNHEALTHY
    | ProbeFailed => set_status b UNHEALTHY
    end in
  set_last_health_check b' now.

Definition set_backends (t : ProxyTarget) (bs : list Backend) : ProxyTarget :=
  mkTarget (name t) bs (rule t) (health_check_path t)
    (health_check_interval t) (health_check_timeout t) (max_retries t)
    (retry_timeout t) (circuit_breaker_threshold t)
    (circuit_breaker_timeout t) (sticky_sessions t).

(** [ProxyManager._check_target_health]; [probe] answers the GET on
    [backend.url + health_check_path]. *)
Definition _check_target_health (t : ProxyTarget) (now : Z)
    (probe : string -> Probe) : ProxyTarget :=
  set_backends t
    (List.map
       (fun b =>
          if elapsed_ge now (default datetime_min (last_health_check b))
               (health_check_interval t)
          then _check_backend_health t b now
                 (probe (url b +:+ health_check_path t))
          else b)
       (backends t)).

(** [ProxyManager.set_backend_maintenance] on one target: the first
    backend with the given url is switched. *)
Fixpoint switch_maintenance (bs : list Backend) (backend_url : string)
    (maintenance : bool) : list Backend :=
  match bs with
  | [] => []
  | b :: bs' =>
      if String.eqb (url b) backend_url
      then set_status b (if maintenance then MAINTENANCE else HEALTHY) :: bs'
      else b :: switch_maintenance bs' backend_url maintenance
  end.

Definition set_backend_maintenance (targets : gmap string ProxyTarget)
    (target_name backend_url : string) (maintenance : bool)
  : gmap string ProxyTarget :=
  match targets !! target_name with
  | Some t =>
      <[target_name :=
          set_backends t (switch_maintenance (backends t) backend_url maintenance)]>
        targets
  | None => targets
  end.

(** *** The circuit breaker and the manager's tables *)

(** [CircuitBreaker.state] takes the three values the class assigns. *)
Inductive BreakerState := Closed | Open | HalfOpen.

Record CircuitBreaker := mkBreaker {
  threshold : Z;
  timeout : Z;
  failure_count : Z;
  last_failure_time : option Z;
  breaker_state : BreakerState
}.

(** [CircuitBreaker(threshold, timeout)] *)
Definition new_breaker (threshold timeout : Z) : CircuitBreaker :=
  mkBreaker threshold timeout 0 None Closed.

(** [CircuitBreaker.call_succeeded] *)
Definition call_succeeded (cb : CircuitBreaker) : CircuitBreaker :=
  mkBreaker (threshold cb) (timeout cb) 0 (last_failure_time cb) Closed.

(** [CircuitBreaker.call_failed] *)
Definition call_failed (cb : CircuitBreaker) (now : Z) : CircuitBreaker :=
  let count := failure_count cb + 1 in
  mkBreaker (threshold cb) (timeout cb) count (Some now)
    (if threshold cb <=? count then Open else breaker_state cb).

(** [CircuitBreaker.can_attempt]: the answer and the breaker afterwards. *)
Definition can_attempt (cb : CircuitBreaker) (now : Z) : bool * CircuitBreaker :=
  match breaker_state cb with
  | Closed => (true, cb)
  | Open =>
      match last_failure_time cb with
      | Some last =>
          if timeout cb * usec <? now - last
          then (true, mkBreaker (threshold cb) (timeout cb) (failure_count cb)
                        (last_failure_time cb) HalfOpen)
          else (false, cb)
      | None => (false, cb)
      end
  | HalfOpen => (true, cb)
  end.

(** What a caller does with a breaker, in the order of the calls. *)
Inductive BreakerCall :=
  | Succeeded
  | Failed (now : Z)
  | Attempt (now : Z).

Definition breaker_call (cb : CircuitBreaker) (c : BreakerCall) : CircuitBreaker :=
  match c with
  | Succeeded => call_succeeded cb
  | Failed now => call_failed cb now
  | Attempt now => (can_attempt cb now).2
  end.

Definition breaker_calls (cb : CircuitBreaker) (cs : list BreakerCall)
  : CircuitBreaker :=
  fold_left breaker_call cs cb.

(** What every sequence of calls keeps true of a breaker of threshold [th]. *)
Definition breaker_inv (th : Z) (cb : CircuitBreaker) : Prop :=
  threshold cb = th
  /\ 0 <= failure_count cb
  /\ (breaker_state cb = Closed \/ th <= failure_count cb)
  /\ (1 <= th -> breaker_state cb = Closed -> failure_count cb < th).

(** The part of [ProxyManager] that registration touches. *)
Record ProxyManager := mkManager {
  targets : gmap string ProxyTarget;
  circuit_breakers : gmap string CircuitBreaker
}.

(** The key [f"{target.name}:{backend.host}:{backend.port}"]. *)
Definition breaker_key (target_name : string) (b : Backend) : string :=
  target_name +:+ ":" +:+ host b +:+ ":" +:+ pretty (port b).

(** [ProxyManager.register_target] *)
Definition register_target (m : ProxyManager) (t : ProxyTarget) : ProxyManager :=
  mkManager
    (<[name t := t]> (targets m))
    (fold_left
       (fun cbs b =>
          <[breaker_key (name t) b :=
              new_breaker (circuit_breaker_threshold t) (circuit_breaker_timeout t)]> cbs)
       (backends t) (circuit_breakers m)).

(** [ProxyManager.add_backend]; [CircuitBreaker()] takes the defaults 5
    and 60. *)
Definition add_backend (m : ProxyManager) (target_name : string) (b : Backend)
  : ProxyManager :=
  match targets m !! target_name with
  | Some t =>
      mkManager
        (<[target_name := set_backends t (backends t ++ [b])]> (targets m))
        (<[breaker_key target_name b := new_breaker 5 60]> (circuit_breakers m))
  | None => m
  end.

(** [ProxyManager.remove_backend] *)
Definition remove_backend (m : ProxyManager) (target_name backend_url : string)
  : ProxyManager :=
  match targets m !! target_name with
  | Some t =>
      mkManager
        (<[target_name :=
             set_backends t
               (List.filter (fun b => negb (String.eqb (url b) backend_url))
                  (backends t))]> (targets m))
        (circuit_breakers m)
  | None => m
  end.

End Proxy.

(* ===================================================================== *)
(** ** service_discovery.py *)
(* ===================================================================== *)

Module Discovery.

Inductive ServiceStatus := RUNNING | STOPPED | STARTING | UNHEALTHY | UNKNOWN.

Definition ServiceStatus_eqb (a b : ServiceStatus) : bool :=
  match a, b with
  | RUNNING, RUNNING | STOPPED, STOPPED | STARTING, STARTING
  | UNHEALTHY, UNHEALTHY | UNKNOWN, UNKNOWN => true
  | _, _ => false
  end.

Inductive ServiceType :=
  WEB | API | DATABASE | CACHE | QUEUE | MONITORING | UTILITY.

Record ServiceEndpoint := mkEndpoint {
  protocol : string;
  host : string;
  port : Z;
  path : string;
  health_check_path : string
}.

(** [ServiceEndpoint.health_url] *)
Definition health_url (e : ServiceEndpoint) : string :=
  protocol e +:+ "://" +:+ host e +:+ ":" +:+ pretty (port e)
    +:+ health_check_path e.

Record ServiceDefinition := mkService {
  name : string;
  container_id : string;
  image : string;
  status : ServiceStatus;
  service_type : ServiceType;
  endpoints : list ServiceEndpoint;
  labels : gmap string string;
  dependencies : list string;
  environment : gmap string string;
  created_at : Z;
  last_seen : Z;
  health_score : Q;
  auto_scale_enabled : bool;
  min_replicas : Z;
  max_replicas : Z
}.

Definition update_health (s : ServiceDefinition) (score : Q)
    (st : ServiceStatus) (seen : Z) : ServiceDefinition :=
  mkService (name s) (container_id s) (image s) st (service_type s)
    (endpoints s) (labels s) (dependencies s) (environment s)
    (created_at s) seen score (auto_scale_enabled s) (min_replicas s)
    (max_replicas s).

(** The inner loop of [_check_services_health]: [health_score += 1.0] for
    every endpoint whose probe answers with status 200; a probe that
    raises is passed over. *)
Fixpoint probe_endpoints (probe : string -> Probe)
    (eps : list ServiceEndpoint) (health_score : Q) : Q :=
  match eps with
  | [] => health_score
  | e :: eps' =>
      let health_score' :=
        match probe (health_url e) with
        | Responded code =>
            if code =? 200 then (health_score + 1)%Q else health_score
        | ProbeFailed => health_score
        end in
      probe_endpoints probe eps' health_score'
  end.

(** The body of the loop of [_check_services_health] for one service. *)
Definition check_service_health (probe : string -> Probe) (now : Z)
    (s : ServiceDefinition) : ServiceDefinition :=
  let endpoint_count := Z.of_nat (length (endpoints s)) in
  let health_score := probe_endpoints probe (endpoints s) 0%Q in
  let score :=
    if 0 <? endpoint_count
    then (health_score / inject_Z endpoint_count)%Q
    else 0%Q in
  let st :=
    if Qeq_bool score 0 && ServiceStatus_eqb (status s) RUNNING
    then UNHEALTHY
    else if Qltb 0 score && ServiceStatus_eqb (status s) UNHEALTHY
    then RUNNING
    else status s in
  update_health s score st now.

(** [ServiceDiscovery._check_services_health]: every service of the
    registry is checked; a service is only touched by its own check. *)
Definition _check_services_health (probe : string -> Probe) (now : Z)
    (services : gmap string ServiceDefinition)
  : gmap string ServiceDefinition :=
  check_service_health probe now <$> services.

(** [ServiceDiscovery.get_service], the in-memory part followed by the
    store lookup [from_store] (None when absent or unreadable). *)
Definition get_service (services : gmap string ServiceDefinition)
    (from_store : string -> option ServiceDefinition) (n : string)
  : option ServiceDefinition :=
  match services !! n with
  | Some s => Some s
  | None => from_store n
  end.

(** The number of endpoints of a list whose health probe answers 200. *)
Definition answers_200 (p : Probe) : bool :=
  match p with
  | Responded code => code =? 200
  | ProbeFailed => false
  end.

Definition count_200 (probe : string -> Probe) (eps : list ServiceEndpoint) : nat :=
  length (List.filter (fun e => answers_200 (probe (health_url e))) eps).

(** A probe that answers with any 2xx status. *)
Definition answers_2xx (p : Probe) : bool :=
  match p with
  | Responded code => (200 <=? code) && (code <=? 299)
  | ProbeFailed => false
  end.

(** [ServiceDiscovery._should_discover_container]; [labels] is
    [container.labels], which may be [None]. *)
Definition _should_discover_container (required_labels : gmap string string)
    (labels : option (gmap string string)) : bool :=
  let labels := default ∅ labels in
  forallb (fun lv => bool_decide (labels !! lv.1 = Some lv.2))
    (map_to_list required_labels).

(** The second loop of [_cleanup_stale_services]: the entry is deleted
    from the registry, then from the store; [store_delete] stands for the
    two store calls (it answers [Ok] when there is no store), and an
    exception of the store ends the clean-up. *)
Fixpoint delete_stale (store_delete : string -> result unit)
    (stale_services : list string) (services : gmap string ServiceDefinition)
  : gmap string ServiceDefinition :=
  match stale_services with
  | [] => services
  | service_name :: rest =>
      let services' := delete service_name services in
      match store_delete service_name with
      | Ok _ => delete_stale store_delete rest services'
      | Raise _ => services'
      end
  end.

(** [ServiceDiscovery._cleanup_stale_services] *)
Definition _cleanup_stale_services (store_delete : string -> result unit)
    (now service_ttl : Z) (services : gmap string ServiceDefinition)
  : gmap string ServiceDefinition :=
  let cutoff_time := now - service_ttl * usec in
  let stale_services :=
    List.map fst
      (List.filter (fun ns => last_seen ns.2 <? cutoff_time) (map_to_list services)) in
  delete_stale store_delete stale_services services.

(** [ServiceDiscovery.get_healthy_services] *)
Definition get_healthy_services (services : gmap string ServiceDefinition)
  : list ServiceDefinition :=
  List.filter (fun s => Qltb (1 # 2) (health_score s))
    (List.map snd (map_to_list services)).

End Discovery.

(* ===================================================================== *)
(** ** auto_scaler.py *)
(* ===================================================================== *)

Module Scaler.

Inductive ScalingDirection := UP | DOWN | NONE.

Definition is_NONE (d : ScalingDirection) : bool :=
  match d with NONE => true | _ => false end.

Inductive ScalingTrigger :=
  | CPU_THRESHOLD | MEMORY_THRESHOLD | NETWORK_THRESHOLD
  | CUSTOM_METRIC | SCHEDULED | MANUAL.

Record ScalingMetrics := mkMetrics {
  cpu_percent : Q;
  memory_percent : Q;
  network_in_mbps : Q;
  network_out_mbps : Q;
  request_rate : Q;
  response_time_ms : Q;
  error_rate : Q;
  queue_length : Z;
  timestamp : Z
}.

(** [ScalingMetrics(0, 0, 0, 0)]; [__post_init__] stamps the clock. *)
Definition zero_metrics (now : Z) : ScalingMetrics :=
  mkMetrics 0 0 0 0 0 0 0 0 now.

Record ScalingPolicy := mkPolicy {
  service_name : string;
  enabled : bool;
  cpu_scale_up_threshold : Q;
  memory_scale_up_threshold : Q;
  network_scale_up_threshold : Q;
  cpu_scale_down_threshold : Q;
  memory_scale_down_threshold : Q;
  network_scale_down_threshold : Q;
  scale_up_cooldown : Z;
  scale_down_cooldown : Z;
  min_replicas : Z;
  max_replicas : Z;
  evaluation_periods : Z;
  evaluation_interval : Z;
  enable_prediction : bool;
  prediction_window : Z
}.

Record ScalingEvent := mkEvent {
  ev_service_name : string;
  ev_direction : ScalingDirection;
  ev_trigger : ScalingTrigger;
  from_replicas : Z;
  to_replicas : Z;
  ev_metrics : ScalingMetrics;
  ev_timestamp : Z;
  success : bool;
  error_message : option string
}.

(** The fields of [container.stats(stream=False)] that the scaler reads;
    a field is [None] when the runtime left the key out. *)
Record Stats := mkStats {
  cpu_total_usage : option Z;
  precpu_total_usage : option Z;
  system_cpu_usage : option Z;
  presystem_cpu_usage : option Z;
  memory_usage : option Z;
  memory_limit : option Z;
  networks : option (list (string * (Z * Z)))   (* name, (rx_bytes, tx_bytes) *)
}.

(** The container runtime and the discovery registry as the scaler sees
    them. *)
Record Runtime := mkRuntime {
  find_service : string -> option Discovery.ServiceDefinition;
  container_status : string -> result string;
  container_start : string -> result unit;
  container_stop : string -> result unit;
  container_stats : string -> result Stats
}.

Record AutoScaler := mkScaler {
  metrics_history : gmap string (list ScalingMetrics);
  scaling_policies : gmap string ScalingPolicy;
  last_scaling_actions : gmap string Z;
  current_replicas : gmap string Z;
  scaling_events : gmap string (list ScalingEvent);
  redis : bool;
  metrics_retention : Z;
  prediction_enabled : bool;
  prediction_samples : Z
}.

Definition sumZ (l : list Z) : Z := fold_right Z.add 0 l.
Definition sumQ (l : list Q) : Q := fold_right Qplus 0%Q l.

(** The arithmetic of [_get_service_metrics] on one stats sample.  Every
    division of the source goes through [truediv]. *)
Definition metrics_of_stats (stats : Stats) (now : Z) : result ScalingMetrics :=
  cpu_now ← getitem "cpu_stats.cpu_usage.total_usage" (cpu_total_usage stats);
  cpu_pre ← getitem "precpu_stats.cpu_usage.total_usage" (precpu_total_usage stats);
  let cpu_delta := cpu_now - cpu_pre in
  sys_now ← getitem "cpu_stats.system_cpu_usage" (system_cpu_usage stats);
  sys_pre ← getitem "precpu_stats.system_cpu_usage" (presystem_cpu_usage stats);
  let system_delta := sys_now - sys_pre in
  cpu ←
    (if 0 <? system_delta
     then q ← truediv (inject_Z cpu_delta) (inject_Z system_delta);
          mret (q * 100)%Q
     else mret 0%Q);
  usage ← getitem "memory_stats.usage" (memory_usage stats);
  limit ← getitem "memory_stats.limit" (memory_limit stats);
  mem ←
    (if 0 <? limit
     then q ← truediv (inject_Z usage) (inject_Z limit);
          mret (q * 100)%Q
     else mret 0%Q);
  nets ← getitem "networks" (networks stats);
  let network_in_bytes := sumZ (List.map (fun n => fst (snd n)) nets) in
  let network_out_bytes := sumZ (List.map (fun n => snd (snd n)) nets) in
  in1 ← truediv (inject_Z (network_in_bytes * 8)) (inject_Z (1024 * 1024));
  network_in ← truediv in1 30;
  out1 ← truediv (inject_Z (network_out_bytes * 8)) (inject_Z (1024 * 1024));
  network_out ← truediv out1 30;
  mret (mkMetrics cpu mem network_in network_out 0 0 0 0 now).

(** [AutoScaler._get_service_metrics]: any exception is logged and turned
    into [None]. *)
Definition _get_service_metrics (rt : Runtime)
    (service : Discovery.ServiceDefinition) (now : Z) : option ScalingMetrics :=
  match
    stats ← container_stats rt (Discovery.container_id service);
    metrics_of_stats stats now
  with
  | Ok m => Some m
  | Raise _ => None
  end.

(** [AutoScaler._get_recent_metrics] *)
Definition _get_recent_metrics (s : AutoScaler) (service : string) (count : Z)
  : list ScalingMetrics :=
  match metrics_history s !! service with
  | Some h => last_slice h count
  | None => []
  end.

(** [AutoScaler._is_cooldown_expired] *)
Definition _is_cooldown_expired (s : AutoScaler) (service : string)
    (policy : ScalingPolicy) (now : Z) : bool :=
  match last_scaling_actions s !! service with
  | None => true
  | Some last_action =>
      let cooldown := Z.min (scale_up_cooldown policy) (scale_down_cooldown policy) in
      elapsed_ge now last_action cooldown
  end.

(** [AutoScaler._get_current_replicas] *)
Definition _get_current_replicas (rt : Runtime) (s : AutoScaler)
    (service : string) : Z :=
  match current_replicas s !! service with
  | Some n => n
  | None =>
      match find_service rt service with
      | Some svc =>
          if Discovery.ServiceStatus_eqb (Discovery.status svc) Discovery.RUNNING
          then 1 else 0
      | None => 0
      end
  end.

(** [statistics.mean] *)
Definition mean (l : list Q) : result Q :=
  match l with
  | [] => Raise "StatisticsError"
  | _ => Ok (sumQ l / inject_Z (Z.of_nat (length l)))%Q
  end.

Definition Qmax (a b : Q) : Q := if Qltb a b then b else a.

(** [AutoScaler._predict_metric]; [metric] is the attribute read by
    [getattr]. *)
Definition _predict_metric (s : AutoScaler) (service : string)
    (metric : ScalingMetrics -> Q) : result Q :=
  let metrics := _get_recent_metrics s service (prediction_samples s) in
  if Z.of_nat (length metrics) <? 3 then Ok 0%Q
  else
    let values := List.map metric (last_slice metrics (prediction_samples s)) in
    let n := Z.of_nat (length values) in
    let weights := List.map (fun i => inject_Z (Z.of_nat i + 1)) (seq 0 (length values)) in
    let weighted := List.map (fun wv => (fst wv * snd wv)%Q) (combine weights values) in
    weighted_avg ← truediv (sumQ weighted) (sumQ weights);
    if 2 <=? n then
      v_last ← index values (-1);
      v_first ← index values 0;
      trend ← truediv (v_last - v_first)%Q (inject_Z n);
      mret (Qmax 0 (weighted_avg + trend * 3))%Q
    else mret weighted_avg.

(** [AutoScaler._make_scaling_decision] *)
Definition _make_scaling_decision (rt : Runtime) (s : AutoScaler)
    (service : string) (policy : ScalingPolicy) (now : Z)
  : result ScalingDirection :=
  if negb (_is_cooldown_expired s service policy now) then Ok NONE
  else
    let recent := _get_recent_metrics s service (evaluation_periods policy) in
    if Z.of_nat (length recent) <? evaluation_periods policy then Ok NONE
    else
      avg_cpu ← mean (List.map cpu_percent recent);
      avg_memory ← mean (List.map memory_percent recent);
      avg_network ←
        mean (List.map (fun m => Qmax (network_in_mbps m) (network_out_mbps m)) recent);
      blended ←
        (if enable_prediction policy && prediction_enabled s then
           predicted_cpu ← _predict_metric s service cpu_percent;
           predicted_memory ← _predict_metric s service memory_percent;
           mret ((avg_cpu * (7 # 10)) + (predicted_cpu * (3 # 10)),
                 (avg_memory * (7 # 10)) + (predicted_memory * (3 # 10)))%Q
         else mret (avg_cpu, avg_memory));
      let avg_cpu := fst blended in
      let avg_memory := snd blended in
      let replicas := _get_current_replicas rt s service in
      if Qltb (cpu_scale_up_threshold policy) avg_cpu
         || Qltb (memory_scale_up_threshold policy) avg_memory
         || Qltb (network_scale_up_threshold policy) avg_network
      then (if replicas <? max_replicas policy then Ok UP else Ok NONE)
      else if Qltb avg_cpu (cpu_scale_down_threshold policy)
              && Qltb avg_memory (memory_scale_down_threshold policy)
              && Qltb avg_network (network_scale_down_threshold policy)
      then (if min_replicas policy <? replicas then Ok DOWN else Ok NONE)
      else Ok NONE.

(** [AutoScaler._scale_service]; an exception of the runtime is logged
    and reported as [False]. *)
Definition _scale_service (rt : Runtime) (s : AutoScaler) (service : string)
    (target_replicas : Z) : bool :=
  match find_service rt service with
  | None => false
  | Some svc =>
      let current := _get_current_replicas rt s service in
      let cid := Discovery.container_id svc in
      if current <? target_replicas then
        match container_status rt cid with
        | Ok st =>
            if negb (String.eqb st "running")
            then is_ok (container_start rt cid)
            else true
        | Raise _ => false
        end
      else if target_replicas <? current then
        if target_replicas =? 0 then
          match container_status rt cid with
          | Ok _ => is_ok (container_stop rt cid)
          | Raise _ => false
          end
        else true
      else true
  end.

Definition with_events (s : AutoScaler) (ev : gmap string (list ScalingEvent))
  : AutoScaler :=
  mkScaler (metrics_history s) (scaling_policies s) (last_scaling_actions s)
    (current_replicas s) ev (redis s) (metrics_retention s)
    (prediction_enabled s) (prediction_samples s).

(** [AutoScaler._record_scaling_event]: [lpush] then [ltrim 0 100]. *)
Definition _record_scaling_event (s : AutoScaler) (e : ScalingEvent) : AutoScaler :=
  if redis s then
    let old := default [] (scaling_events s !! ev_service_name e) in
    with_events s (<[ev_service_name e := take 101 (e :: old)]> (scaling_events s))
  else s.

(** The two assignments of the success branch. *)
Definition stamp_success (s : AutoScaler) (service : string)
    (replicas now : Z) : AutoScaler :=
  mkScaler (metrics_history s) (scaling_policies s)
    (<[service := now]> (last_scaling_actions s))
    (<[service := replicas]> (current_replicas s))
    (scaling_events s) (redis s) (metrics_retention s)
    (prediction_enabled s) (prediction_samples s).

(** [new_replicas] in [_execute_scaling_action]. *)
Definition new_replicas (rt : Runtime) (s : AutoScaler) (service : string)
    (direction : ScalingDirection) (policy : ScalingPolicy) : Z :=
  let current := _get_current_replicas rt s service in
  match direction with
  | UP => Z.min (current + 1) (max_replicas policy)
  | _ => Z.max (current - 1) (min_replicas policy)
  end.

Definition current_metrics (s : AutoScaler) (service : string) (now : Z)
  : ScalingMetrics :=
  match _get_recent_metrics s service 1 with
  | m :: _ => m
  | [] => zero_metrics now
  end.

(** [AutoScaler._execute_scaling_action] *)
Definition _execute_scaling_action (rt : Runtime) (s : AutoScaler)
    (service : string) (direction : ScalingDirection) (policy : ScalingPolicy)
    (now : Z) : AutoScaler :=
  let current := _get_current_replicas rt s service in
  let new := new_replicas rt s service direction policy in
  if new =? current then s
  else
    let ok := _scale_service rt s service new in
    let event :=
      mkEvent service direction CPU_THRESHOLD current new
        (current_metrics s service now) now ok None in
    let s' := _record_scaling_event s event in
    if ok then stamp_success s' service new now else s'.

(** The body of the loop of [_evaluate_scaling_decisions] for one policy. *)
Definition evaluate_policy (rt : Runtime) (s : AutoScaler) (service : string)
    (policy : ScalingPolicy) (now : Z) : AutoScaler :=
  if enabled policy then
    match _make_scaling_decision rt s service policy now with
    | Ok decision =>
        if is_NONE decision then s
        else _execute_scaling_action rt s service decision policy now
    | Raise _ => s
    end
  else s.

(** [AutoScaler.manual_scale] *)
Definition manual_scale (rt : Runtime) (s : AutoScaler) (service : string)
    (target_replicas : Z) (now : Z) : bool * AutoScaler :=
  let current := _get_current_replicas rt s service in
  let ok := _scale_service rt s service target_replicas in
  if ok then
    let direction := if current <? target_replicas then UP else DOWN in
    let event :=
      mkEvent service direction MANUAL current target_replicas
        (current_metrics s service now) now true None in
    let s' := _record_scaling_event s event in
    (true, stamp_success s' service target_replicas now)
  else (false, s).

(** *** The metrics history *)

Definition with_history (s : AutoScaler) (h : gmap string (list ScalingMetrics))
  : AutoScaler :=
  mkScaler h (scaling_policies s) (last_scaling_actions s) (current_replicas s)
    (scaling_events s) (redis s) (metrics_retention s) (prediction_enabled s)
    (prediction_samples s).

(** [max_history = self.metrics_retention // 30] *)
Definition max_history (s : AutoScaler) : Z := metrics_retention s `div` 30.

(** [AutoScaler._store_metrics], the in-memory history; the copy pushed to
    the store is not part of the scaler's own state. *)
Definition _store_metrics (s : AutoScaler) (service : string)
    (metrics : ScalingMetrics) : AutoScaler :=
  let h := default [] (metrics_history s !! service) ++ [metrics] in
  let h' := if max_history s <? Z.of_nat (length h)
            then last_slice h (max_history s) else h in
  with_history s (<[service := h']> (metrics_history s)).

(** [AutoScaler._cleanup_old_metrics] *)
Definition _cleanup_old_metrics (s : AutoScaler) (now : Z) : AutoScaler :=
  let cutoff := now - metrics_retention s * usec in
  with_history s
    (omap (fun metrics =>
             match List.filter (fun m => cutoff <? timestamp m) metrics with
             | [] => None
             | kept => Some kept
             end)
          (metrics_history s)).

(** [AutoScaler._collect_metrics] over the services that
    [get_all_services] returned. *)
Definition _collect_metrics (rt : Runtime) (s : AutoScaler)
    (services : list Discovery.ServiceDefinition) (now : Z) : AutoScaler :=
  fold_left
    (fun acc service =>
       if Discovery.auto_scale_enabled service
          && Discovery.ServiceStatus_eqb (Discovery.status service) Discovery.RUNNING
       then
         match _get_service_metrics rt service now with
         | Some metrics => _store_metrics acc (Discovery.name service) metrics
         | None => acc
         end
       else acc)
    services s.

End Scaler.

(* ===================================================================== *)
(** ** container_orchestrator.py *)
(* ===================================================================== *)

Module Orchestrator.

Inductive ContainerState :=
  STOPPED | STARTING | RUNNING | STOPPING | ERROR | UNHEALTHY.

Definition ContainerState_eqb (a b : ContainerState) : bool :=
  match a, b with
  | STOPPED, STOPPED | STARTING, STARTING | RUNNING, RUNNING
  | STOPPING, STOPPING | ERROR, ERROR | UNHEALTHY, UNHEALTHY => true
  | _, _ => false
  end.

Inductive StartupStrategy := IMMEDIATE | LAZY | SCHEDULED | DEPENDENCY_BASED.

(** A non-empty [health_check] dict: its ["type"] and the keys read by
    [_check_container_health]. *)
Record HealthCheck := mkHealthCheck {
  hc_type : option string;
  hc_url : option string;
  hc_timeout : option Z;
  hc_command : option string
}.

Record ContainerConfig := mkConfig {
  name : string;
  image : string;
  ports : gmap Z Z;
  environment : gmap string string;
  volumes : gmap string string;
  labels : gmap string string;
  dependencies : list string;
  startup_strategy : StartupStrategy;
  health_check : option HealthCheck;     (* None: absent or empty *)
  resource_limits : option (gmap string string);
  auto_remove : bool;
  restart_policy : string;
  startup_timeout : Z;
  shutdown_timeout : Z
}.

Record ContainerStatus := mkStatus {
  st_name : string;
  state : ContainerState;
  container_id : option string;
  started_at : option Z;
  last_health_check : option Z;
  health_status : string;
  error_message : option string;
  restart_count : Z
}.

Record Orch := mkOrch {
  containers : gmap string ContainerStatus;
  configs : gmap string ContainerConfig;
  startup_queue : list (string * ContainerConfig)   (* head = next to be taken *)
}.

Definition with_containers (o : Orch) (c : gmap string ContainerStatus) : Orch :=
  mkOrch c (configs o) (startup_queue o).

Definition with_queue (o : Orch) (q : list (string * ContainerConfig)) : Orch :=
  mkOrch (containers o) (configs o) q.

Definition set_state (s : ContainerStatus) (x : ContainerState) : ContainerStatus :=
  mkStatus (st_name s) x (container_id s) (started_at s) (last_health_check s)
    (health_status s) (error_message s) (restart_count s).

Definition set_error (s : ContainerStatus) (msg : string) : ContainerStatus :=
  mkStatus (st_name s) ERROR (container_id s) (started_at s)
    (last_health_check s) (health_status s) (Some msg) (restart_count s).

(** An in-place update of the status object stored under [n]. *)
Definition update_status (o : Orch) (n : string)
    (f : ContainerStatus -> ContainerStatus) : Orch :=
  with_containers o (alter f n (containers o)).

Definition state_of (o : Orch) (n : string) : option ContainerState :=
  state <$> containers o !! n.

(** [ContainerOrchestrator.register_container].  The function has no
    [raise] and no validation step; the store write of [_save_config]
    catches its own errors. *)
Definition register_container (o : Orch) (config : ContainerConfig) : result Orch :=
  let cfgs := <[name config := config]> (configs o) in
  let conts :=
    match containers o !! name config with
    | Some _ => containers o
    | None =>
        <[name config :=
            mkStatus (name config) STOPPED None None None "unknown" None 0]>
          (containers o)
    end in
  Ok (mkOrch conts cfgs (startup_queue o)).

(** [asyncio.Queue()] is built without [maxsize]: [put] appends and never
    waits or fails. *)
Definition queue_put (o : Orch) (item : string * ContainerConfig) : Orch :=
  with_queue o (startup_queue o ++ [item]).

(** What the runtime does with one start-up taken from the queue: the
    container is found running and adopted, it is created and becomes
    ready, or something raises along the way. *)
Inductive StartupOutcome :=
  | Adopted (id : string)
  | Started (id : string)
  | StartFailed (msg : string).

(** [ContainerOrchestrator._execute_startup] *)
Definition _execute_startup (run : string -> StartupOutcome) (now : Z)
    (n : string) (o : Orch) : Orch :=
  update_status o n
    (fun s =>
       match run n with
       | Adopted id =>
           mkStatus (st_name s) RUNNING (Some id) (Some now)
             (last_health_check s) (health_status s) (error_message s)
             (restart_count s)
       | Started id =>
           mkStatus (st_name s) RUNNING (Some id) (Some now)
             (last_health_check s) (health_status s) None (restart_count s)
       | StartFailed msg => set_error s msg
       end).

(** One [startup_queue.get()] followed by [_execute_startup], as a
    start-up worker does; nothing happens on an empty queue. *)
Definition worker_step (run : string -> StartupOutcome) (now : Z) (o : Orch) : Orch :=
  match startup_queue o with
  | [] => o
  | (n, _) :: rest => _execute_startup run now n (with_queue o rest)
  end.

(** What the workers get done while another task sleeps: [batch]
    start-ups. *)
Fixpoint workers (run : string -> StartupOutcome) (now : Z) (batch : nat)
    (o : Orch) : Orch :=
  match batch with
  | O => o
  | S k => workers run now k (worker_step run now o)
  end.

(** The polling loop of [_start_dependencies]: [polls] is the number of
    passes the loop makes before [dependency_timeout] has elapsed; the
    [else] of the [while] raises. *)
Fixpoint wait_running (sleep : Orch -> Orch) (polls : nat) (dep : string)
    (o : Orch) : result unit * Orch :=
  match polls with
  | O => (Raise ("Timeout dependance " +:+ dep), o)
  | S p =>
      match state_of o dep with
      | Some RUNNING => (Ok tt, o)
      | _ => wait_running sleep p dep (sleep o)
      end
  end.

(** [ContainerOrchestrator._start_dependencies]; [start] is the recursive
    call [self.start_container(dep_name)], whose boolean is dropped and
    whose exception propagates. *)
Fixpoint _start_dependencies (start : string -> Orch -> result bool * Orch)
    (sleep : Orch -> Orch) (polls : nat) (deps : list string) (o : Orch)
  : result unit * Orch :=
  match deps with
  | [] => (Ok tt, o)
  | dep_name :: rest =>
      match state_of o dep_name with
      | None | Some RUNNING => _start_dependencies start sleep polls rest o
      | Some _ =>
          match start dep_name o with
          | (Raise e, o1) => (Raise e, o1)
          | (Ok _, o1) =>
              match wait_running sleep polls dep_name o1 with
              | (Raise e, o2) => (Raise e, o2)
              | (Ok _, o2) => _start_dependencies start sleep polls rest o2
              end
          end
      end
  end.

(** [ContainerOrchestrator.start_container].  [depth] is the number of
    nested calls the interpreter still allows: at 0 the call raises
    [RecursionError], which the caller's [except Exception] catches like
    any other. *)
Fixpoint start_container (sleep : Orch -> Orch) (polls : nat) (depth : nat)
    (n : string) (force : bool) (o : Orch) : result bool * Orch :=
  match depth with
  | O => (Raise "RecursionError", o)
  | S d =>
      match configs o !! n with
      | None => (Ok false, o)
      | Some config =>
          match containers o !! n with
          | None => (Raise ("KeyError: " +:+ n), o)
          | Some status =>
              if ContainerState_eqb (state status) RUNNING && negb force
              then (Ok true, o)
              else if ContainerState_eqb (state status) STARTING
              then (Ok true, o)
              else
                let o1 := update_status o n (fun s => set_state s STARTING) in
                match
                  match dependencies config with
                  | [] => (Ok tt, o1)
                  | deps =>
                      _start_dependencies
                        (fun dep => start_container sleep polls d dep false)
                        sleep polls deps o1
                  end
                with
                | (Ok _, o2) => (Ok true, queue_put o2 (n, config))
                | (Raise e, o2) =>
                    (Ok false, update_status o2 n (fun s => set_error s e))
                end
          end
      end
  end.

(** The runtime as the health check sees a container id. *)
Inductive Lookup :=
  | Found (status : string)
  | NotFound
  | DockerError.

Record HealthEnv := mkHealthEnv {
  lookup : string -> Lookup;            (* containers.get(id), reload() *)
  http_get : string -> Probe;
  exec_run : string -> string -> result Z   (* container id, command: exit code *)
}.

(** [ContainerOrchestrator._check_container_health] *)
Definition _check_container_health (env : HealthEnv) (cid : string)
    (hc : HealthCheck) : bool :=
  match hc_type hc with
  | Some ty =>
      if String.eqb ty "http" then
        match http_get env (default "http://localhost/health" (hc_url hc)) with
        | Responded code => code =? 200
        | ProbeFailed => false
        end
      else if String.eqb ty "command" then
        match exec_run env cid (default "" (hc_command hc)) with
        | Ok code => code =? 0
        | Raise _ => false
        end
      else true
  | None => true
  end.

Definition set_health (s : ContainerStatus) (x : ContainerState)
    (h : string) : ContainerStatus :=
  mkStatus (st_name s) x (container_id s) (started_at s) (last_health_check s)
    h (error_message s) (restart_count s).

Definition set_checked (s : ContainerStatus) (now : Z) : ContainerStatus :=
  mkStatus (st_name s) (state s) (container_id s) (started_at s) (Some now)
    (health_status s) (error_message s) (restart_count s).

(** [ContainerOrchestrator._perform_health_check] on the status object of
    container [n], whose id is [cid]. *)
Definition _perform_health_check (env : HealthEnv) (now : Z)
    (cfgs : gmap string ContainerConfig) (n : string) (cid : string)
    (s : ContainerStatus) : ContainerStatus :=
  match lookup env cid with
  | Found runtime_status =>
      let s' :=
        if negb (String.eqb runtime_status "running") then
          set_health s UNHEALTHY ("Container status: " +:+ runtime_status)
        else
          match cfgs !! n ≫= health_check with
          | Some hc =>
              if _check_container_health env cid hc
              then set_health s (state s) "healthy"
              else set_health s UNHEALTHY "unhealthy"
          | None => set_health s (state s) "healthy"
          end in
      set_checked s' now
  | NotFound =>
      mkStatus (st_name s) STOPPED None (started_at s) (last_health_check s)
        (health_status s) (error_message s) (restart_count s)
  | DockerError => s
  end.

(** One pass of [_health_check_loop]: only entries in state [RUNNING]
    with a non-empty container id are checked. *)
Definition health_check_pass (env : HealthEnv) (now : Z) (o : Orch) : Orch :=
  with_containers o
    (map_imap
       (fun n s =>
          Some
            match container_id s with
            | Some cid =>
                if ContainerState_eqb (state s) RUNNING && negb (String.eqb cid "")
                then _perform_health_check env now (configs o) n cid s
                else s
            | None => s
            end)
       (containers o)).

(** The dependency graph of the registered configurations: an edge from a
    container to each name in its [dependencies]. *)
Definition depends_on (cfgs : gmap string ContainerConfig) (a b : string) : Prop :=
  exists c, cfgs !! a = Some c /\ In b (dependencies c).

Definition on_cycle (cfgs : gmap string ContainerConfig) (a : string) : Prop :=
  tc (depends_on cfgs) a a.

(** A chain of dependencies from [a] to [b]: [a] depends on the first
    container of [via], each container of [via] on the next one and the
    last one on [b].  With [b = a] it is a dependency cycle, made of [a]
    and the containers of [via]. *)
Fixpoint depends_along (cfgs : gmap string ContainerConfig) (a : string)
    (via : list string) (b : string) : Prop :=
  match via with
  | [] => depends_on cfgs a b
  | n :: rest => depends_on cfgs a n /\ depends_along cfgs n rest b
  end.

Definition queued (o : Orch) (n : string) : Prop :=
  In n (List.map fst (startup_queue o)).

(** A set of registered containers none of which is running or queued and
    each of which depends on a member of the set. *)
Definition stuck (members : string -> Prop) (o : Orch) : Prop :=
  forall n, members n ->
    exists cfg s,
      configs o !! n = Some cfg
      /\ containers o !! n = Some s
      /\ state s <> RUNNING
      /\ ~ queued o n
      /\ exists d, In d (dependencies cfg) /\ members d.

(** *** Stopping *)

(** The runtime as [stop_container] uses it: [containers.get(id)] and
    [container.stop(timeout=...)]. *)
Record StopEnv := mkStopEnv {
  runtime_get : string -> result unit;
  runtime_stop : string -> Z -> result unit
}.

Definition set_stopped (s : ContainerStatus) : ContainerStatus :=
  mkStatus (st_name s) STOPPED None (started_at s) (last_health_check s)
    (health_status s) (error_message s) (restart_count s).

(** [ContainerOrchestrator.stop_container]; [force] is not read by the
    source. *)
Definition stop_container (env : StopEnv) (n : string) (force : bool) (o : Orch)
  : bool * Orch :=
  match containers o !! n with
  | None => (false, o)
  | Some status =>
      if ContainerState_eqb (state status) STOPPED then (true, o)
      else
        let o1 := update_status o n (fun s => set_state s STOPPING) in
        let stopped :=
          match container_id status with
          | Some cid =>
              if String.eqb cid "" then Ok tt
              else
                _ ← runtime_get env cid;
                config ← getitem n (configs o !! n);
                runtime_stop env cid (shutdown_timeout config)
          | None => Ok tt
          end in
        match stopped with
        | Ok _ => (true, update_status o1 n set_stopped)
        | Raise e => (false, update_status o1 n (fun s => set_error s e))
        end
  end.

(** A container that needs no attention from a dependent: it is not
    managed, or it is running. *)
Definition ready (o : Orch) (n : string) : Prop :=
  state_of o n = None \/ state_of o n = Some RUNNING.

End Orchestrator.

(* ===================================================================== *)
(** ** autoshutdown_manager.py *)
(* ===================================================================== *)

Module Shutdown.

Inductive ShutdownCondition :=
  INACTIVITY | SCHEDULE | LOW_RESOURCES | IDLE_TIME | CUSTOM.

Inductive ShutdownAction := STOP | PAUSE | RESTART | SCALE_DOWN.

Record ShutdownRule := mkRule {
  id : option Z;
  name : string;
  enabled : bool;
  condition : ShutdownCondition;
  action : ShutdownAction;
  containers : list string;
  exclude_containers : list string;
  tags : list string;
  inactivity_threshold : Z;
  cpu_threshold : Q;
  memory_threshold : Q;
  network_threshold : Z;
  cron_schedule : option string;
  time_ranges : list (gmap string string);
  days_of_week : list Z;
  grace_period : Z;
  notification : bool;
  auto_restart : bool;
  restart_schedule : option string;
  protect_if_connected : bool;
  protect_if_uploading : bool;
  min_uptime : Z
}.

Record ContainerStats := mkCStats {
  cs_name : string;
  cpu_percent : Q;
  memory_usage : Z;
  network_rx_bytes : Z;
  network_tx_bytes : Z;
  uptime : Z;
  connections : Z;
  last_activity : Z;
  is_protected : bool
}.

(** The wall clock and the two parsers the schedule check calls. *)
Record Clock := mkClock {
  now : Z;                                  (* datetime.now() *)
  weekday : Z;                              (* now.weekday() *)
  time_of_day : Z;                          (* now.time() *)
  time_fromisoformat : string -> result Z;
  cron_next : string -> result Z            (* croniter(...).get_next(datetime) *)
}.

Definition in_list (x : string) (l : list string) : bool :=
  existsb (String.eqb x) l.

Definition nonempty {A} (l : list A) : bool :=
  match l with [] => false | _ => true end.

(** [AutoShutdownManager._get_target_containers]; the [tags] branch of the
    source is a [pass]. *)
Definition _get_target_containers (container_stats : gmap string (option ContainerStats))
    (rule : ShutdownRule) : list string :=
  List.filter
    (fun container_name =>
       negb (nonempty (containers rule) && negb (in_list container_name (containers rule)))
       && negb (in_list container_name (exclude_containers rule)))
    (List.map fst (map_to_list container_stats)).

(** [AutoShutdownManager._is_container_protected] *)
Definition _is_container_protected (rule : ShutdownRule) (stats : ContainerStats)
  : bool :=
  if is_protected stats then true
  else if uptime stats <? min_uptime rule then true
  else if protect_if_connected rule && (0 <? connections stats) then true
  else if protect_if_uploading rule
          && (network_threshold rule * 10 <? network_tx_bytes stats)
  then true
  else false.

(** [AutoShutdownManager._check_inactivity_condition] *)
Definition _check_inactivity_condition (clk : Clock) (rule : ShutdownRule)
    (stats : ContainerStats) : bool :=
  elapsed_ge (now clk) (last_activity stats) (inactivity_threshold rule).

Fixpoint in_time_ranges (clk : Clock) (ranges : list (gmap string string))
  : result bool :=
  match ranges with
  | [] => Ok false
  | time_range :: rest =>
      s ← getitem "start" (time_range !! "start");
      start_time ← time_fromisoformat clk s;
      e ← getitem "end" (time_range !! "end");
      end_time ← time_fromisoformat clk e;
      if (start_time <=? time_of_day clk) && (time_of_day clk <=? end_time)
      then Ok true
      else in_time_ranges clk rest
  end.

(** [AutoShutdownManager._check_schedule_condition] *)
Definition _check_schedule_condition (clk : Clock) (rule : ShutdownRule)
  : result bool :=
  if nonempty (days_of_week rule)
     && negb (existsb (Z.eqb (weekday clk)) (days_of_week rule))
  then Ok false
  else if nonempty (time_ranges rule) then in_time_ranges clk (time_ranges rule)
  else if truthy_str (cron_schedule rule) then
    match cron_next clk (default "" (cron_schedule rule)) with
    | Ok next_run => Ok (next_run - now clk <=? 60 * usec)
    | Raise _ => Ok false
    end
  else Ok false.

(** [AutoShutdownManager._check_low_resources_condition] *)
Definition _check_low_resources_condition (rule : ShutdownRule)
    (stats : ContainerStats) : bool :=
  Qleb (cpu_percent stats) (cpu_threshold rule)
  && Qleb (inject_Z (memory_usage stats)) (memory_threshold rule).

(** [AutoShutdownManager._check_idle_time_condition] *)
Definition _check_idle_time_condition (rule : ShutdownRule)
    (stats : ContainerStats) : bool :=
  Qleb (cpu_percent stats) (cpu_threshold rule)
  && (network_rx_bytes stats + network_tx_bytes stats <=? network_threshold rule)
  && (connections stats =? 0).

(** The dispatch on [rule.condition] that ends [_should_shutdown_container]. *)
Definition check_condition (clk : Clock) (rule : ShutdownRule)
    (stats : ContainerStats) : result bool :=
  match condition rule with
  | INACTIVITY => Ok (_check_inactivity_condition clk rule stats)
  | SCHEDULE => _check_schedule_condition clk rule
  | LOW_RESOURCES => Ok (_check_low_resources_condition rule stats)
  | IDLE_TIME => Ok (_check_idle_time_condition rule stats)
  | CUSTOM => Ok false
  end.

(** [AutoShutdownManager._should_shutdown_container] *)
Definition _should_shutdown_container (clk : Clock)
    (container_stats : gmap string (option ContainerStats))
    (rule : ShutdownRule) (container_name : string) : result bool :=
  match container_stats !! container_name with
  | Some (Some stats) =>
      if _is_container_protected rule stats then Ok false
      else check_condition clk rule stats
  | _ => Ok false
  end.

(** The loop of [_check_rule] over the targets from position [i] on: the
    containers on which [_execute_shutdown] is called, in the order of the
    calls, and how the loop ends.  The checks are made one after the
    other, each awaited [_execute_shutdown] (with its grace period) lying
    between two of them, so every check reads the clock anew:
    [clock_at i] is the clock as the check of the target at position [i]
    reads it.  [execute] is [_execute_shutdown], which catches what its
    body raises and can only raise from the log write of its handler.  An
    exception of a check or of [execute] leaves the loop; the calls made
    until then have been made. *)
Fixpoint shutdown_calls (clock_at : nat -> Clock)
    (execute : string -> result unit)
    (container_stats : gmap string (option ContainerStats))
    (rule : ShutdownRule) (i : nat) (targets : list string)
  : list string * result unit :=
  match targets with
  | [] => ([], Ok tt)
  | c :: rest =>
      match _should_shutdown_container (clock_at i) container_stats rule c with
      | Raise e => ([], Raise e)
      | Ok false => shutdown_calls clock_at execute container_stats rule (S i) rest
      | Ok true =>
          match execute c with
          | Raise e => ([c], Raise e)
          | Ok _ =>
              let later :=
                shutdown_calls clock_at execute container_stats rule (S i) rest in
              (c :: later.1, later.2)
          end
      end
  end.

(** [AutoShutdownManager._check_rule] *)
Definition _check_rule (clock_at : nat -> Clock)
    (execute : string -> result unit)
    (container_stats : gmap string (option ContainerStats))
    (rule : ShutdownRule) : list string * result unit :=
  shutdown_calls clock_at execute container_stats rule 0
    (_get_target_containers container_stats rule).

End Shutdown.

(* ===================================================================== *)
(** ** plugin_manager.py: the hook bus *)
(* ===================================================================== *)

Module Plugins.

Inductive HookType :=
  | BEFORE_CONTAINER_START | AFTER_CONTAINER_START
  | BEFORE_CONTAINER_STOP | AFTER_CONTAINER_STOP
  | ON_SERVICE_DISCOVERY | ON_SCALING_EVENT | ON_HEALTH_CHECK
  | ON_METRICS_COLLECTION | ON_API_REQUEST | ON_WEBHOOK_TRIGGER.

Definition HookType_code (h : HookType) : nat :=
  match h with
  | BEFORE_CONTAINER_START => 0 | AFTER_CONTAINER_START => 1
  | BEFORE_CONTAINER_STOP => 2 | AFTER_CONTAINER_STOP => 3
  | ON_SERVICE_DISCOVERY => 4 | ON_SCALING_EVENT => 5 | ON_HEALTH_CHECK => 6
  | ON_METRICS_COLLECTION => 7 | ON_API_REQUEST => 8 | ON_WEBHOOK_TRIGGER => 9
  end%nat.

Definition HookType_of_code (n : nat) : HookType :=
  match n with
  | 0 => BEFORE_CONTAINER_START | 1 => AFTER_CONTAINER_START
  | 2 => BEFORE_CONTAINER_STOP | 3 => AFTER_CONTAINER_STOP
  | 4 => ON_SERVICE_DISCOVERY | 5 => ON_SCALING_EVENT | 6 => ON_HEALTH_CHECK
  | 7 => ON_METRICS_COLLECTION | 8 => ON_API_REQUEST | _ => ON_WEBHOOK_TRIGGER
  end%nat.

#[global] Instance HookType_eq_dec : EqDecision HookType.
Proof. solve_decision. Defined.

#[global] Instance HookType_countable : Countable HookType.
Proof.
  apply (inj_countable' HookType_code HookType_of_code).
  intros []; reflexivity.
Defined.

Section Bus.

(** The arguments passed to a hook, the values a subscriber returns and
    everything a subscriber can read or change when it runs. *)
Context {Args Value World : Type}.

(** A registered callable: calling it returns or raises, and leaves
    the world changed.  [owner] is its [__self__], the identity of the
    plugin instance a bound method belongs to; a callable that is not a
    bound method has none. *)
Record Callback := mkCallback {
  owner : option string;
  call : Args -> World -> result Value * World
}.

(** An entry of the list [trigger_hook] returns. *)
Inductive HookResult :=
  | Returned (v : Value)
  | ErrorDict (msg : string).        (* {"error": str(e)} *)

(** The registration step of [_activate_plugin]:
    [self.hooks[hook_type].append(callback)], the list being created
    on first use. *)
Definition register_hook (hooks : gmap HookType (list Callback))
    (hook_type : HookType) (callback : Callback)
  : gmap HookType (list Callback) :=
  <[hook_type := default [] (hooks !! hook_type) ++ [callback]]> hooks.

Definition register_hooks (hooks : gmap HookType (list Callback))
    (plugin_hooks : list (HookType * Callback))
  : gmap HookType (list Callback) :=
  fold_left (fun hs hc => register_hook hs (fst hc) (snd hc)) plugin_hooks hooks.

(** The [for] loop of [trigger_hook], [results] being the list built
    so far. *)
Fixpoint trigger_loop (callbacks : list Callback) (args : Args)
    (results : list HookResult) (w : World) : list HookResult * World :=
  match callbacks with
  | [] => (results, w)
  | callback :: rest =>
      match call callback args w with
      | (Ok result_, w') =>
          trigger_loop rest args (results ++ [Returned result_]) w'
      | (Raise e, w') =>
          trigger_loop rest args (results ++ [ErrorDict e]) w'
      end
  end.

(** [PluginManager.trigger_hook] *)
Definition trigger_hook (hooks : gmap HookType (list Callback))
    (hook_type : HookType) (args : Args) (w : World)
  : list HookResult * World :=
  match hooks !! hook_type with
  | Some callbacks => trigger_loop callbacks args [] w
  | None => ([], w)
  end.

(** The world in which the subscriber at a given position is called:
    the one left by the subscribers registered before it. *)
Definition world_after (callbacks : list Callback) (args : Args) (w : World)
  : World :=
  fold_left (fun w' cb => snd (call cb args w')) callbacks w.

Definition outcome (cb : Callback) (args : Args) (w : World) : HookResult :=
  match fst (call cb args w) with
  | Ok v => Returned v
  | Raise e => ErrorDict e
  end.

(** The entries the subscribers of a list produce when they run one after
    the other, each in the world the previous one left. *)
Fixpoint entries (callbacks : list Callback) (args : Args) (w : World)
  : list HookResult :=
  match callbacks with
  | [] => []
  | cb :: rest => outcome cb args w :: entries rest args (snd (call cb args w))
  end.

(** The subscribers of [hook_type] among a sequence of registrations, in
    the order of the registrations. *)
Definition subscribers (regs : list (HookType * Callback)) (hook_type : HookType)
  : list Callback :=
  List.map snd (List.filter (fun hc => bool_decide (fst hc = hook_type)) regs).

(** [callback.__self__ == plugin_instance] *)
Definition bound_to (plugin_instance : string) (callback : Callback) : bool :=
  match owner callback with
  | Some self => String.eqb self plugin_instance
  | None => false
  end.

(** The list comprehension of the hook clean-up,
    [[callback for callback in ... if callback.__self__ != plugin_instance]]:
    the test is made on each callback in turn, and reading [__self__] on a
    callable that has none raises [AttributeError]. *)
Fixpoint keep_others (plugin_instance : string) (callbacks : list Callback)
  : result (list Callback) :=
  match callbacks with
  | [] => Ok []
  | callback :: rest =>
      match owner callback with
      | None => Raise "AttributeError: __self__"
      | Some self =>
          kept ← keep_others plugin_instance rest;
          mret (if String.eqb self plugin_instance then kept else callback :: kept)
      end
  end.

(** The hook clean-up of [_deactivate_plugin], a loop over
    [list(self.hooks.keys())]: [keys] is that list, the keys in the order
    of the dict.  Every list loses the callbacks bound to the instance,
    and a list left empty is deleted; an exception leaves the loop with
    the hooks cleaned so far. *)
Fixpoint remove_hooks (plugin_instance : string) (keys : list HookType)
    (hooks : gmap HookType (list Callback))
  : result unit * gmap HookType (list Callback) :=
  match keys with
  | [] => (Ok tt, hooks)
  | hook_type :: rest =>
      match hooks !! hook_type with
      | None => (Raise "KeyError", hooks)
      | Some callbacks =>
          match keep_others plugin_instance callbacks with
          | Raise e => (Raise e, hooks)
          | Ok kept =>
              remove_hooks plugin_instance rest
                match kept with
                | [] => delete hook_type hooks
                | _ => <[hook_type := kept]> hooks
                end
          end
      end
  end.

(** [keys] lists the keys of a dict, each one once. *)
Definition keys_of (hooks : gmap HookType (list Callback)) (keys : list HookType)
  : Prop :=
  NoDup keys /\ forall h, In h keys <-> is_Some (hooks !! h).

Inductive PluginStatus := INSTALLED | ACTIVE | INACTIVE | ERROR | UPDATING.

(** A plugin instance: its identity and what its [cleanup()] does (the
    boolean it returns is not read). *)
Record Instance := mkInstance {
  instance_id : string;
  cleanup : World -> result unit * World
}.

(** The tables of the manager [_deactivate_plugin] works on; an installed
    plugin is the status of its [PluginInfo]. *)
Record Manager := mkManager {
  hooks : gmap HookType (list Callback);
  active_plugins : gmap string Instance;
  installed_plugins : gmap string PluginStatus
}.

(** [PluginManager._deactivate_plugin]; [keys] is [list(self.hooks.keys())]. *)
Definition _deactivate_plugin (keys : list HookType) (plugin_name : string)
    (m : Manager) (w : World) : bool * Manager * World :=
  match active_plugins m !! plugin_name with
  | None => (true, m, w)
  | Some plugin_instance =>
      match remove_hooks (instance_id plugin_instance) keys (hooks m) with
      | (Raise _, hooks') =>
          (false, mkManager hooks' (active_plugins m) (installed_plugins m), w)
      | (Ok _, hooks') =>
          match cleanup plugin_instance w with
          | (Ok _, w') =>
              (true,
               mkManager hooks' (delete plugin_name (active_plugins m))
                 (alter (fun _ => INSTALLED) plugin_name (installed_plugins m)),
               w')
          | (Raise _, w') =>
              (false, mkManager hooks' (active_plugins m) (installed_plugins m), w')
          end
      end
  end.

End Bus.

Arguments Instance : clear implicits.
Arguments Manager : clear implicits.

Arguments Callback : clear implicits.
Arguments HookResult : clear implicits.

End Plugins.

(* ===================================================================== *)
(** ** Concrete inputs used by the examples below *)
(* ===================================================================== *)

Module Scenario.

(** A target with one backend, as [register_target] receives it. *)
Definition web_backend : Proxy.Backend :=
  Proxy.mkBackend "10.0.0.5" 8080 1 100 0 Proxy.HEALTHY None 0 0 0.

Definition web_target : Proxy.ProxyTarget :=
  Proxy.mkTarget "web" [web_backend] Proxy.ROUND_ROBIN "/health" 30 5 3 1 5 60 false.

Definition web_targets : gmap string Proxy.ProxyTarget := {["web" := web_target]}.

Definition select_env : Proxy.SelectEnv :=
  Proxy.mkSelectEnv None 0 (fun lo _ => lo) (fun _ => 0) ∅.

Definition noon : Z := 1700000000 * usec.

Definition probe_200 : string -> Probe := fun _ => Responded 200.

(** A pool under [health_based]: a backend with a history and one that was
    just added. *)
Definition seasoned_backend : Proxy.Backend :=
  Proxy.mkBackend "10.0.0.6" 8080 1 100 0 Proxy.HEALTHY None 0 1 3.

Definition fresh_backend : Proxy.Backend :=
  Proxy.mkBackend "10.0.0.7" 8080 1 100 0 Proxy.HEALTHY None 0 0 0.

Definition health_target : Proxy.ProxyTarget :=
  Proxy.mkTarget "api" [seasoned_backend; fresh_backend] Proxy.HEALTH_BASED
    "/health" 30 5 3 1 5 60 false.

(** A service under CPU pressure: policy [cpu_up=80, cpu_down=30, min=1,
    max=3, periods=3, up_cooldown=5s] and three samples 85, 90, 88. *)
Definition cpu_sample (cpu : Q) (at_ : Z) : Scaler.ScalingMetrics :=
  Scaler.mkMetrics cpu 0 0 0 0 0 0 0 at_.

Definition app_policy : Scaler.ScalingPolicy :=
  Scaler.mkPolicy "app" true 80 85 100 30 40 20 5 600 1 3 3 1 true 300.

(** The same thresholds with between 3 and 5 replicas asked for. *)
Definition wide_policy : Scaler.ScalingPolicy :=
  Scaler.mkPolicy "app" true 80 85 100 30 40 20 5 600 3 5 3 1 true 300.

Definition app_service : Discovery.ServiceDefinition :=
  Discovery.mkService "app" "0123456789ab" "app:latest" Discovery.RUNNING
    Discovery.WEB [] ∅ [] ∅ 0 0 1 true 1 3.

Definition app_runtime : Scaler.Runtime :=
  Scaler.mkRuntime
    (fun n => if String.eqb n "app" then Some app_service else None)
    (fun _ => Ok "running") (fun _ => Ok tt) (fun _ => Ok tt)
    (fun _ => Raise "not sampled").

Definition app_scaler : Scaler.AutoScaler :=
  Scaler.mkScaler
    {["app" := [cpu_sample 85 0; cpu_sample 90 30; cpu_sample 88 60]]}
    {["app" := app_policy]} ∅ ∅ ∅ true 3600 true 10.

(** A running service with one endpoint whose health path answers
    204 No Content. *)
Definition blog_service : Discovery.ServiceDefinition :=
  Discovery.mkService "blog" "ba5eba11cafe" "blog:1" Discovery.RUNNING
    Discovery.WEB [Discovery.mkEndpoint "http" "blog" 80 "/" "/health"]
    ∅ [] ∅ 0 0 1 false 1 5.

Definition probe_204 : string -> Probe := fun _ => Responded 204.

(** Three subscribers of one hook that write their name in a call log; the
    second one raises. *)
Definition logging (who : string) (fails : bool)
  : Plugins.Callback string Z (list string) :=
  Plugins.mkCallback (Some who)
    (fun _ log => (if fails then Raise ("boom in " +:+ who) else Ok 0, log ++ [who])).

Definition registrations
  : list (Plugins.HookType * Plugins.Callback string Z (list string)) :=
  [ (Plugins.ON_HEALTH_CHECK, logging "metrics" false);
    (Plugins.ON_SCALING_EVENT, logging "audit" false);
    (Plugins.ON_HEALTH_CHECK, logging "slack" true);
    (Plugins.ON_HEALTH_CHECK, logging "pager" false) ].

(** A managed container that is running and carries an HTTP health check. *)
Definition web_config (deps : list string) : Orchestrator.ContainerConfig :=
  Orchestrator.mkConfig "web" "nginx:1" ∅ ∅ ∅ ∅ deps Orchestrator.LAZY
    (Some (Orchestrator.mkHealthCheck (Some "http") (Some "http://web/health")
             None None))
    None false "unless-stopped" 120 30.

Definition web_running : Orchestrator.ContainerStatus :=
  Orchestrator.mkStatus "web" Orchestrator.RUNNING (Some "c0ffee") (Some 0)
    None "unknown" None 0.

Definition web_orch : Orchestrator.Orch :=
  Orchestrator.mkOrch {["web" := web_running]} {["web" := web_config []]} [].

Definition health_env (p : Probe) : Orchestrator.HealthEnv :=
  Orchestrator.mkHealthEnv (fun _ => Orchestrator.Found "running")
    (fun _ => p) (fun _ _ => Ok 0).

(** An orchestrator with [backlog] start-ups already waiting in the queue
    and one more container, stopped and without dependencies. *)
Definition job_config : Orchestrator.ContainerConfig :=
  Orchestrator.mkConfig "job" "busybox" ∅ ∅ ∅ ∅ [] Orchestrator.LAZY None None
    false "unless-stopped" 120 30.

Definition stopped (n : string) : Orchestrator.ContainerStatus :=
  Orchestrator.mkStatus n Orchestrator.STOPPED None None None "unknown" None 0.

Definition busy_orch (backlog : nat) : Orchestrator.Orch :=
  Orchestrator.mkOrch
    {["web" := stopped "web"]} {["web" := web_config []]}
    (repeat ("job", job_config) backlog).

(** Two containers that name each other as dependency. *)
Definition plain_config (n : string) (deps : list string) : Orchestrator.ContainerConfig :=
  Orchestrator.mkConfig n "busybox" ∅ ∅ ∅ ∅ deps Orchestrator.DEPENDENCY_BASED
    None None false "unless-stopped" 120 30.

Definition empty_orch : Orchestrator.Orch := Orchestrator.mkOrch ∅ ∅ [].

Definition runtime_ok : string -> Orchestrator.StartupOutcome :=
  fun n => Orchestrator.Started ("id-" +:+ n).

(** Both registered while stopped. *)
Definition cycle_registered : result Orchestrator.Orch :=
  o ← Orchestrator.register_container empty_orch (plain_config "a" ["b"]);
  Orchestrator.register_container o (plain_config "b" ["a"]).

(** [b] is registered without dependencies, started and brought up by a
    worker; then [a] is registered depending on [b], and [b] is registered
    again, now depending on [a]. *)
Definition cycle_around_running : result Orchestrator.Orch :=
  o1 ← Orchestrator.register_container empty_orch (plain_config "b" []);
  let o2 := (Orchestrator.start_container (fun o => o) 150 10 "b" false o1).2 in
  let o3 := Orchestrator.worker_step runtime_ok noon o2 in
  o4 ← Orchestrator.register_container o3 (plain_config "a" ["b"]);
  Orchestrator.register_container o4 (plain_config "b" ["a"]).

Definition cycle_orch : Orchestrator.Orch :=
  Orchestrator.mkOrch
    {["a" := stopped "a"; "b" := stopped "b"]}
    {["a" := plain_config "a" ["b"]; "b" := plain_config "b" ["a"]]}
    [].

(** An inactivity rule (threshold 60 s) with [protect_if_connected], and a
    container seen idle for 90 seconds with [conns] connections. *)
Definition idle_rule : Shutdown.ShutdownRule :=
  Shutdown.mkRule (Some 1) "idle" true Shutdown.INACTIVITY Shutdown.STOP
    [] [] [] 60 5 100 1024 None [] [] 30 true false None true true 300.

Definition idle_clock : Shutdown.Clock :=
  Shutdown.mkClock (1000 * usec) 0 0 (fun _ => Raise "unused") (fun _ => Raise "unused").

Definition c1_stats (conns : Z) : Shutdown.ContainerStats :=
  Shutdown.mkCStats "c1" 1 64 0 0 3600 conns (910 * usec) false.

(** A stats sample taken twice at the same system CPU reading, from a
    container without memory limit. *)
Definition flat_stats : Scaler.Stats :=
  Scaler.mkStats (Some 100) (Some 50) (Some 1000) (Some 1000) (Some 5) (Some 0)
    (Some [("eth0", (1024, 2048))]).

(** An unhealthy service with two endpoints, one of which answers 200. *)
Definition shop_service : Discovery.ServiceDefinition :=
  Discovery.mkService "shop" "5ca1ab1e0000" "shop:2" Discovery.UNHEALTHY
    Discovery.WEB
    [Discovery.mkEndpoint "http" "shop" 80 "/" "/health";
     Discovery.mkEndpoint "http" "shop" 9000 "/" "/health"]
    ∅ [] ∅ 0 0 0 false 1 5.

Definition shop_probe : string -> Probe :=
  fun u => if String.eqb u "http://shop:80/health" then Responded 200 else ProbeFailed.

(** A pool whose backends carry the weights 3, 0 and 2. *)
Definition weighted_backend (h : string) (w : Z) : Proxy.Backend :=
  Proxy.mkBackend h 80 w 100 0 Proxy.HEALTHY None 0 0 0.

Definition weighted_pool : list Proxy.Backend :=
  [weighted_backend "a" 3; weighted_backend "b" 0; weighted_backend "c" 2].

(** A manager with the target [web_target] registered. *)
Definition web_manager : Proxy.ProxyManager :=
  Proxy.register_target (Proxy.mkManager ∅ ∅) web_target.

(** A pool under [least_connections]. *)
Definition connected_backend (h : string) (conns : Z) : Proxy.Backend :=
  Proxy.mkBackend h 80 1 100 conns Proxy.HEALTHY None 0 0 0.

Definition busy_target : Proxy.ProxyTarget :=
  Proxy.mkTarget "busy"
    [connected_backend "a" 5; connected_backend "b" 2; connected_backend "c" 7]
    Proxy.LEAST_CONNECTIONS "/health" 30 5 3 1 5 60 false.

(** An application and the database it depends on, both registered and
    stopped. *)
Definition app_db_orch : Orchestrator.Orch :=
  Orchestrator.mkOrch
    {["app" := stopped "app"; "db" := stopped "db"]}
    {["app" := plain_config "app" ["db"]; "db" := plain_config "db" []]}
    [].

(** A runtime whose stop call fails. *)
Definition stop_fails : Orchestrator.StopEnv :=
  Orchestrator.mkStopEnv (fun _ => Ok tt) (fun _ _ => Raise "daemon unreachable").

(** A runtime in which no container id is known any more. *)
Definition gone_env : Orchestrator.HealthEnv :=
  Orchestrator.mkHealthEnv (fun _ => Orchestrator.NotFound)
    (fun _ => ProbeFailed) (fun _ _ => Ok 0).

(** A schedule rule for the night, 22:00 to 06:00, with a cron expression
    that is due, and a clock that reads 23:00. *)
Definition night_rule : Shutdown.ShutdownRule :=
  Shutdown.mkRule (Some 2) "night" true Shutdown.SCHEDULE Shutdown.STOP
    [] [] [] 60 5 100 1024 (Some "0 23 * * *")
    [{["start" := "22:00"; "end" := "06:00"]}] [] 30 true false None true true 0.

Definition night_clock : Shutdown.Clock :=
  Shutdown.mkClock (82800 * usec) 0 82800
    (fun t => if String.eqb t "22:00" then Ok 79200
              else if String.eqb t "06:00" then Ok 21600
              else Raise "Invalid isoformat string")
    (fun _ => Ok (82800 * usec)).

(** A schedule rule that is due at any time of a Monday. *)
Definition monday_rule : Shutdown.ShutdownRule :=
  Shutdown.mkRule (Some 3) "monday" true Shutdown.SCHEDULE Shutdown.STOP
    [] ["db"] [] 60 5 100 1024 None
    [{["start" := "00:00"; "end" := "23:59"]}] [0] 30 true false None false false 0.

(** The plugin [slack] activated a second time: the callback of its first
    instance is still registered, the table of active plugins holds the
    second instance, whose clean-up raises. *)
Definition slack_again : Plugins.Instance (list string) :=
  Plugins.mkInstance "slack-2" (fun log => (Raise "socket closed", log ++ ["cleanup"])).

Definition slack_manager : Plugins.Manager string Z (list string) :=
  Plugins.mkManager
    (Plugins.register_hooks (Plugins.register_hooks ∅ registrations)
       [(Plugins.ON_HEALTH_CHECK, logging "slack-2" true)])
    {["slack" := slack_again]}
    {["slack" := Plugins.ACTIVE]}.

(** A callable that is not a bound method. *)
Definition plain_function : Plugins.Callback string Z (list string) :=
  Plugins.mkCallback None (fun _ log => (Ok 1, log)).

(** The clock of a Monday at [tod] seconds after midnight. *)
Definition day_clock (tod : Z) : Shutdown.Clock :=
  Shutdown.mkClock (tod * usec) 0 tod
    (fun t => if String.eqb t "00:00" then Ok 0
              else if String.eqb t "23:59" then Ok 86340
              else Raise "Invalid isoformat string")
    (fun _ => Raise "unused").

(** A pass that starts at 23:58:50 and whose first shutdown, with its grace
    period of 30 seconds, ends at 23:59:20. *)
Definition late_pass (i : nat) : Shutdown.Clock :=
  match i with
  | O => day_clock 86330
  | _ => day_clock 86360
  end.

(*SCENARIO-END*)
End Scenario.

(* ===================================================================== *)
(** * Properties *)
(* ===================================================================== *)

(** ** Python primitives *)

Lemma index_In {A} (l : list A) (i : Z) (x : A) :
  index l i = Ok x -> In x l.
Proof.
  unfold index.
  destruct (_ || _); [discriminate|].
  destruct (l !! _) eqn:E; [|discriminate].
  intros [= <-]. apply list_elem_of_In. eapply list_elem_of_lookup_2; eauto.
Qed.

Lemma mod_index_In {A} (l : list A) (a n : Z) (x : A) :
  bind (mod_ a n) (index l) = Ok x -> In x l.
Proof.
  unfold mod_. destruct (n =? 0); simpl; [discriminate|]. apply index_In.
Qed.

Lemma fold_pick_In {A} (pick : A -> A -> bool) (l : list A) (x : A) :
  In (fold_left (fun best y => if pick best y then y else best) l x) (x :: l).
Proof.
  revert x. induction l as [|y l IH]; intros x; simpl; [auto|].
  destruct (pick x y).
  - right. apply IH.
  - destruct (IH x) as [H|H]; [left; exact H | right; right; exact H].
Qed.

Lemma min_by_In {A} (key : A -> Z) (l : list A) (x : A) :
  min_by key l = Ok x -> In x l.
Proof.
  destruct l as [|y l]; simpl; [discriminate|].
  intros [= <-].
  apply (fold_pick_In (fun best z => key z <? key best)).
Qed.

Lemma max_byQ_In {A} (key : A -> Q) (l : list A) (x : A) :
  max_byQ key l = Ok x -> In x l.
Proof.
  destruct l as [|y l]; simpl; [discriminate|].
  intros [= <-].
  apply (fold_pick_In (fun best z => Qltb (key best) (key z))).
Qed.

Lemma Qltb_lt (a b : Q) : Qltb a b = true <-> (a < b)%Q.
Proof.
  unfold Qltb. rewrite negb_true_iff.
  split.
  - intros H. apply Qnot_le_lt. intros Hle.
    apply Qle_bool_iff in Hle. congruence.
  - intros H. destruct (Qle_bool b a) eqn:E; [|reflexivity].
    apply Qle_bool_iff in E. exfalso. eapply Qlt_not_le; eauto.
Qed.

Lemma Qltb_ge (a b : Q) : Qltb a b = false <-> (b <= a)%Q.
Proof.
  unfold Qltb. rewrite negb_false_iff. apply Qle_bool_iff.
Qed.

(** [max] keeps its current best when nothing later is strictly larger. *)
Lemma fold_max_keep {A} (key : A -> Q) (l : list A) (best : A) :
  Forall (fun y => (key y <= key best)%Q) l ->
  fold_left (fun b y => if Qltb (key b) (key y) then y else b) l best = best.
Proof.
  induction 1 as [|y l Hy _ IH]; simpl; [reflexivity|].
  apply Qltb_ge in Hy. rewrite Hy. exact IH.
Qed.

(** [max] moves to the first element that beats everything before it. *)
Lemma fold_max_reach {A} (key : A -> Q) (pre post : list A) (best b : A) :
  (key best < key b)%Q ->
  Forall (fun y => (key y < key b)%Q) pre ->
  fold_left (fun b y => if Qltb (key b) (key y) then y else b) (pre ++ b :: post) best
  = fold_left (fun b y => if Qltb (key b) (key y) then y else b) post b.
Proof.
  intros Hbest Hpre. revert best Hbest.
  induction Hpre as [|y pre Hy _ IH]; intros best Hbest; simpl.
  - apply Qltb_lt in Hbest. rewrite Hbest. reflexivity.
  - destruct (Qltb (key best) (key y)); apply IH; assumption.
Qed.

Lemma max_byQ_first {A} (key : A -> Q) (pre post : list A) (b : A) :
  Forall (fun y => (key y < key b)%Q) pre ->
  Forall (fun y => (key y <= key b)%Q) post ->
  max_byQ key (pre ++ b :: post) = Ok b.
Proof.
  intros Hpre Hpost. destruct pre as [|x pre]; simpl.
  - f_equal. apply fold_max_keep. exact Hpost.
  - f_equal. inversion Hpre; subst.
    rewrite fold_max_reach by assumption.
    apply fold_max_keep. exact Hpost.
Qed.

(** ** proxy_manager.py *)

Lemma healthy_backends_spec (t : Proxy.ProxyTarget) (b : Proxy.Backend) :
  In b (Proxy.get_healthy_backends t) <->
  In b (Proxy.backends t) /\ Proxy.status b = Proxy.HEALTHY.
Proof.
  unfold Proxy.get_healthy_backends. rewrite filter_In.
  split; intros [H1 H2]; split; auto.
  - destruct (Proxy.status b); simpl in H2; congruence.
  - rewrite H2. reflexivity.
Qed.

Lemma weighted_loop_In (bs : list Proxy.Backend) (r : Z) (b : Proxy.Backend) :
  Proxy.weighted_loop r bs = Some b -> In b bs.
Proof.
  revert r. induction bs as [|x bs IH]; intros r; simpl; [discriminate|].
  destruct (_ <=? _).
  - intros [= <-]. auto.
  - intros H. right. eapply IH; eauto.
Qed.

Lemma sticky_lookup_In env t healthy sid (b : Proxy.Backend) :
  Proxy.sticky_lookup env t healthy sid = Some b -> In b healthy.
Proof.
  unfold Proxy.sticky_lookup.
  destruct (_ && _); [|discriminate].
  destruct sid as [sid|]; [|discriminate].
  destruct (_ !! sid); [|discriminate].
  intros H. apply find_some in H. tauto.
Qed.

(** Whatever the policy and whatever the store, the clock, the random
    generator and the hash answer, [_select_backend] returns a member of
    [get_healthy_backends]. *)
Lemma select_backend_healthy env t ip sid (b : Proxy.Backend) :
  Proxy._select_backend env t ip sid = Ok (Some b) ->
  In b (Proxy.backends t) /\ Proxy.status b = Proxy.HEALTHY.
Proof.
  intros H. apply healthy_backends_spec.
  unfold Proxy._select_backend in H.
  destruct (Proxy.get_healthy_backends t) as [|h hs] eqn:Eh; [discriminate|].
  destruct (Proxy.sticky_lookup env t (h :: hs) sid) eqn:Es.
  { injection H as <-. eapply sticky_lookup_In; eauto. }
  assert (Hb : forall r : result Proxy.Backend,
             bind r (fun x => Ok (Some x)) = Ok (Some b) -> r = Ok b).
  { intros [x|e]; simpl; congruence. }
  apply Hb in H. clear Hb.
  destruct (Proxy.rule t).
  - unfold Proxy._round_robin_select in H.
    destruct (Proxy.redis_incr env) as [idx|].
    + destruct (bind (mod_ idx _) _) eqn:E1.
      * injection H as <-. eapply mod_index_In; eauto.
      * eapply mod_index_In; eauto.
    + eapply mod_index_In; eauto.
  - eapply min_by_In; eauto.
  - unfold Proxy._weighted_select in H.
    destruct (_ =? 0); [eapply index_In; eauto|].
    destruct (_ <? 1); [discriminate|].
    destruct (Proxy.weighted_loop _ _) eqn:Ew.
    + injection H as <-. eapply weighted_loop_In; eauto.
    + eapply index_In; eauto.
  - unfold Proxy._ip_hash_select in H.
    destruct ip as [ip|]; [|eapply index_In; eauto].
    destruct (String.eqb ip ""); [eapply index_In; eauto|].
    eapply mod_index_In; eauto.
  - eapply max_byQ_In; eauto.
Qed.

(** A backend in maintenance is not returned by a selection made while it
    is in maintenance. *)
Lemma maintenance_not_selected env t ip sid (b : Proxy.Backend) :
  Proxy.status b = Proxy.MAINTENANCE ->
  Proxy._select_backend env t ip sid <> Ok (Some b).
Proof.
  intros Hm H. apply select_backend_healthy in H as [_ H]. congruence.
Qed.

(** The active check writes the probe's verdict over any previous status. *)
Lemma check_backend_health_status t (b : Proxy.Backend) now p :
  Proxy.status (Proxy._check_backend_health t b now p) =
  match p with
  | Responded code => if code =? 200 then Proxy.HEALTHY else Proxy.UNHEALTHY
  | ProbeFailed => Proxy.UNHEALTHY
  end.
Proof.
  unfold Proxy._check_backend_health.
  destruct p as [code|]; [destruct (code =? 200)|]; reflexivity.
Qed.

(** C1.  A backend in maintenance is kept out of every selection (lemma
    [maintenance_not_selected]), but the health check does not leave it
    alone: a backend put in maintenance through [set_backend_maintenance]
    is turned back to [healthy] by the next due probe that answers 200,
    after which [_select_backend] returns it.  The target below has one
    backend; it is put in maintenance, one pass of [_check_target_health]
    follows. *)
Theorem proxy_probe_overrides_maintenance :
  let in_maintenance :=
    Proxy.set_backend_maintenance Scenario.web_targets "web" "http://10.0.0.5:8080" true in
  let checked :=
    (fun t => Proxy._check_target_health t Scenario.noon Scenario.probe_200)
      <$> in_maintenance !! "web" in
  (List.map Proxy.status <$> (Proxy.backends <$> in_maintenance !! "web")
     = Some [Proxy.MAINTENANCE])
  /\ (List.map Proxy.status <$> (Proxy.backends <$> checked) = Some [Proxy.HEALTHY])
  /\ (checked ≫= (fun t =>
        match Proxy._select_backend Scenario.select_env t None None with
        | Ok (Some b) => Some (Proxy.url b)
        | _ => None
        end)) = Some "http://10.0.0.5:8080".
Proof. vm_compute. repeat split; reflexivity. Qed.

Lemma health_ratio_le_1 (b : Proxy.Backend) :
  0 <= Proxy.success_count b -> 0 <= Proxy.error_count b ->
  (Proxy.health_ratio b <= 1)%Q.
Proof.
  intros Hs He. unfold Proxy.health_ratio.
  destruct (0 <? _) eqn:Ht.
  - apply Z.ltb_lt in Ht.
    apply Qle_shift_div_r.
    + change 0%Q with (inject_Z 0). rewrite <- Zlt_Qlt. exact Ht.
    + rewrite Qmult_1_l. rewrite <- Zle_Qle. lia.
  - apply Qle_refl.
Qed.

(** C9.  A backend without recorded requests has [health_ratio] 1.0; no
    backend with non-negative counters has a larger ratio; and under
    [health_based] such a backend is the one selected as soon as every
    healthy backend listed before it has a ratio below 1. *)
Theorem health_ratio_fresh_backend env t ip sid (b : Proxy.Backend) pre post :
  Proxy.success_count b = 0 ->
  Proxy.error_count b = 0 ->
  Proxy.health_ratio b = 1%Q
  /\ (forall b', 0 <= Proxy.success_count b' -> 0 <= Proxy.error_count b' ->
        (Proxy.health_ratio b' <= Proxy.health_ratio b)%Q)
  /\ (Proxy.rule t = Proxy.HEALTH_BASED ->
      Proxy.sticky_sessions t = false ->
      Proxy.get_healthy_backends t = pre ++ b :: post ->
      Forall (fun x => (Proxy.health_ratio x < 1)%Q) pre ->
      Forall (fun x => 0 <= Proxy.success_count x /\ 0 <= Proxy.error_count x) post ->
      Proxy._select_backend env t ip sid = Ok (Some b)).
Proof.
  intros Hs He.
  assert (Hone : Proxy.health_ratio b = 1%Q).
  { unfold Proxy.health_ratio. rewrite Hs, He. reflexivity. }
  split; [exact Hone|]. split.
  - intros b' Hs' He'. rewrite Hone. apply health_ratio_le_1; assumption.
  - intros Hrule Hsticky Hlist Hpre Hpost.
    unfold Proxy._select_backend. rewrite Hlist.
    unfold Proxy.sticky_lookup. rewrite Hsticky, Hrule. simpl andb. cbv iota.
    destruct (pre ++ b :: post) as [|h hs] eqn:El.
    { destruct pre; discriminate. }
    rewrite <- El. rewrite max_byQ_first; [reflexivity| |].
    + rewrite Hone. exact Hpre.
    + rewrite Hone. eapply Forall_impl; [exact Hpost|].
      intros x [H1 H2]. apply health_ratio_le_1; assumption.
Qed.

Lemma health_ratio_fresh_backend_witness :
  Proxy.health_ratio Scenario.fresh_backend = 1%Q
  /\ Proxy._select_backend Scenario.select_env Scenario.health_target None None
     = Ok (Some Scenario.fresh_backend).
Proof.
  destruct (health_ratio_fresh_backend Scenario.select_env Scenario.health_target
              None None Scenario.fresh_backend [Scenario.seasoned_backend] [])
    as (H1 & _ & H3); [reflexivity | reflexivity |].
  split; [exact H1|].
  apply H3; [reflexivity | reflexivity | reflexivity | | constructor].
  constructor; [reflexivity | constructor].
Defined.

(** ** auto_scaler.py *)

Lemma truediv_pos (a : Q) (d : Z) :
  0 < d -> truediv a (inject_Z d) = Ok (a / inject_Z d)%Q.
Proof.
  intros Hd. unfold truediv.
  destruct (Qeq_bool (inject_Z d) 0) eqn:E; [|reflexivity].
  apply Qeq_bool_eq in E. unfold Qeq in E. simpl in E. lia.
Qed.

Lemma truediv_nonzero (a b : Q) :
  Qeq_bool b 0 = false -> truediv a b = Ok (a / b)%Q.
Proof. intros H. unfold truediv. rewrite H. reflexivity. Qed.

Ltac run_result :=
  repeat first
    [ rewrite truediv_pos by (assumption || reflexivity)
    | rewrite truediv_nonzero by reflexivity
    | progress cbn [mbind mret result_bind result_ret bind] ].

(** The metrics computed from a sample in which every key is present. *)
Lemma metrics_of_stats_complete c1 c0 s1 s0 usage limit nets now :
  Scaler.metrics_of_stats
    (Scaler.mkStats (Some c1) (Some c0) (Some s1) (Some s0)
       (Some usage) (Some limit) (Some nets)) now
  = Ok (Scaler.mkMetrics
          (if 0 <? s1 - s0
           then (inject_Z (c1 - c0) / inject_Z (s1 - s0) * 100)%Q else 0%Q)
          (if 0 <? limit
           then (inject_Z usage / inject_Z limit * 100)%Q else 0%Q)
          (inject_Z (Scaler.sumZ (List.map (fun n => fst (snd n)) nets) * 8)
             / inject_Z (1024 * 1024) / 30)%Q
          (inject_Z (Scaler.sumZ (List.map (fun n => snd (snd n)) nets) * 8)
             / inject_Z (1024 * 1024) / 30)%Q
          0 0 0 0 now).
Proof.
  unfold Scaler.metrics_of_stats. cbn [getitem Scaler.cpu_total_usage
    Scaler.precpu_total_usage Scaler.system_cpu_usage Scaler.presystem_cpu_usage
    Scaler.memory_usage Scaler.memory_limit Scaler.networks
    mbind mret result_bind result_ret bind].
  destruct (0 <? s1 - s0) eqn:Hs; destruct (0 <? limit) eqn:Hl;
    repeat match goal with
           | H : (0 <? _) = true |- _ => apply Z.ltb_lt in H
           end;
    run_result; reflexivity.
Qed.

(** C10.  On every stats sample [metrics_of_stats] either returns metrics
    or raises a [KeyError] for a key the runtime left out: it never raises
    [ZeroDivisionError].  With all keys present it returns, with
    [cpu_percent = 0] when the system CPU delta is not positive and
    [memory_percent = 0] when the memory limit is not positive. *)
Theorem metrics_divisions_guarded (stats : Scaler.Stats) (now : Z) :
  Scaler.metrics_of_stats stats now <> Raise "ZeroDivisionError"
  /\ (forall c1 c0 s1 s0 usage limit nets,
        stats = Scaler.mkStats (Some c1) (Some c0) (Some s1) (Some s0)
                  (Some usage) (Some limit) (Some nets) ->
        exists m,
          Scaler.metrics_of_stats stats now = Ok m
          /\ (s1 - s0 <= 0 -> Scaler.cpu_percent m = 0%Q)
          /\ (limit <= 0 -> Scaler.memory_percent m = 0%Q)).
Proof.
  split.
  - destruct stats as [[c1|] [c0|] [s1|] [s0|] [usage|] [limit|] [nets|]];
      (unfold Scaler.metrics_of_stats;
           cbn [getitem Scaler.cpu_total_usage Scaler.precpu_total_usage
                Scaler.system_cpu_usage Scaler.presystem_cpu_usage
                Scaler.memory_usage Scaler.memory_limit Scaler.networks
                mbind mret result_bind result_ret bind];
           repeat match goal with
                  | |- context [if ?c then _ else _] => destruct c eqn:?
                  end;
           repeat match goal with
                  | H : (0 <? _) = true |- _ => apply Z.ltb_lt in H
                  end;
           run_result; discriminate).
  - intros c1 c0 s1 s0 usage limit nets ->.
    rewrite metrics_of_stats_complete. eexists. split; [reflexivity|].
    cbn [Scaler.cpu_percent Scaler.memory_percent].
    split; intros H.
    + destruct (0 <? s1 - s0) eqn:E; [apply Z.ltb_lt in E; lia | reflexivity].
    + destruct (0 <? limit) eqn:E; [apply Z.ltb_lt in E; lia | reflexivity].
Qed.

Lemma metrics_divisions_guarded_witness :
  exists m,
    Scaler.metrics_of_stats Scenario.flat_stats Scenario.noon = Ok m
    /\ Scaler.cpu_percent m = 0%Q
    /\ Scaler.memory_percent m = 0%Q.
Proof.
  destruct (metrics_divisions_guarded Scenario.flat_stats Scenario.noon) as [_ H].
  destruct (H 100 50 1000 1000 5 0 [("eth0", (1024, 2048))] eq_refl)
    as (m & Hm & Hcpu & Hmem).
  exists m. split; [exact Hm|]. split; [apply Hcpu | apply Hmem]; lia.
Defined.

Lemma elapsed_ge_false (a b s : Z) :
  a < b + s * usec -> elapsed_ge a b s = false.
Proof. intros H. unfold elapsed_ge. apply Z.leb_gt. lia. Qed.

(** Inside the cooldown window the decision is [NONE] without looking at
    any metric, and the evaluation loop leaves the scaler as it is. *)
Lemma decision_in_cooldown rt (s : Scaler.AutoScaler) svc pol t now :
  Scaler.last_scaling_actions s !! svc = Some t ->
  now < t + Z.min (Scaler.scale_up_cooldown pol) (Scaler.scale_down_cooldown pol) * usec ->
  Scaler._make_scaling_decision rt s svc pol now = Ok Scaler.NONE
  /\ Scaler.evaluate_policy rt s svc pol now = s.
Proof.
  intros Hlast Hnow.
  assert (Hd : Scaler._make_scaling_decision rt s svc pol now = Ok Scaler.NONE).
  { unfold Scaler._make_scaling_decision, Scaler._is_cooldown_expired.
    rewrite Hlast, elapsed_ge_false by exact Hnow. reflexivity. }
  split; [exact Hd|].
  unfold Scaler.evaluate_policy. rewrite Hd.
  destruct (Scaler.enabled pol); reflexivity.
Qed.

(** Recording an event changes nothing the decision reads. *)
Lemma record_event_frame (s : Scaler.AutoScaler) (e : Scaler.ScalingEvent) :
  let s' := Scaler._record_scaling_event s e in
  Scaler.last_scaling_actions s' = Scaler.last_scaling_actions s
  /\ Scaler.current_replicas s' = Scaler.current_replicas s
  /\ Scaler.metrics_history s' = Scaler.metrics_history s
  /\ Scaler.prediction_enabled s' = Scaler.prediction_enabled s
  /\ Scaler.prediction_samples s' = Scaler.prediction_samples s.
Proof.
  unfold Scaler._record_scaling_event.
  destruct (Scaler.redis s); simpl; auto.
Qed.

Lemma decision_frame rt (s s' : Scaler.AutoScaler) svc pol now :
  Scaler.last_scaling_actions s' = Scaler.last_scaling_actions s ->
  Scaler.current_replicas s' = Scaler.current_replicas s ->
  Scaler.metrics_history s' = Scaler.metrics_history s ->
  Scaler.prediction_enabled s' = Scaler.prediction_enabled s ->
  Scaler.prediction_samples s' = Scaler.prediction_samples s ->
  Scaler._make_scaling_decision rt s' svc pol now
  = Scaler._make_scaling_decision rt s svc pol now.
Proof.
  intros H1 H2 H3 H4 H5.
  unfold Scaler._make_scaling_decision, Scaler._is_cooldown_expired,
    Scaler._predict_metric, Scaler._get_recent_metrics,
    Scaler._get_current_replicas.
  rewrite H1, H2, H3, H4, H5. reflexivity.
Qed.


(** The spec's scenario "scale up under CPU pressure": samples 85, 90, 88
    against an up-threshold of 80 decide [UP], the action takes the service
    from 1 to 2 replicas and stamps the clock, and an evaluation 4.9 seconds
    later decides [NONE]. *)
Example scale_up_then_cooldown :
  let t0 := 90 * usec in
  let s1 := Scaler.evaluate_policy Scenario.app_runtime Scenario.app_scaler
              "app" Scenario.app_policy t0 in
  Scaler._make_scaling_decision Scenario.app_runtime Scenario.app_scaler
    "app" Scenario.app_policy t0 = Ok Scaler.UP
  /\ Scaler.current_replicas s1 !! "app" = Some 2
  /\ Scaler.last_scaling_actions s1 !! "app" = Some t0
  /\ Scaler._make_scaling_decision Scenario.app_runtime s1
       "app" Scenario.app_policy (t0 + 4900000) = Ok Scaler.NONE
  /\ Scaler._make_scaling_decision Scenario.app_runtime s1
       "app" Scenario.app_policy (t0 + 5000000) = Ok Scaler.UP.
Proof. vm_compute. repeat split; reflexivity. Qed.


(** ** service_discovery.py *)

Lemma probe_endpoints_count probe eps (acc : Q) :
  (Discovery.probe_endpoints probe eps acc
   == acc + inject_Z (Z.of_nat (Discovery.count_200 probe eps)))%Q.
Proof.
  revert acc. induction eps as [|e eps IH]; intros acc.
  - simpl. unfold Discovery.count_200. simpl. ring.
  - simpl. unfold Discovery.count_200 in *. simpl.
    destruct (probe (Discovery.health_url e)) as [code|]; simpl.
    + destruct (code =? 200); simpl.
      * rewrite IH. rewrite Nat2Z.inj_succ, <- Z.add_1_l, inject_Z_plus. ring.
      * apply IH.
    + apply IH.
Qed.

(** C6, as the code has it.  The probe of an endpoint counts as healthy
    when it answers 200, no other 2xx status does; [health_score] is the
    number of such endpoints over the number of endpoints (0 for a service
    without endpoints); a running service becomes unhealthy exactly when
    the score is 0, an unhealthy one becomes running exactly when the score
    is positive, and any other status is left alone. *)
Theorem health_score_counts_status_200 probe now (s : Discovery.ServiceDefinition) :
  let s' := Discovery.check_service_health probe now s in
  let n := Z.of_nat (length (Discovery.endpoints s)) in
  let ok := Z.of_nat (Discovery.count_200 probe (Discovery.endpoints s)) in
  (Discovery.health_score s' == if 0 <? n then inject_Z ok / inject_Z n else 0)%Q
  /\ (Discovery.status s = Discovery.RUNNING ->
        (Discovery.status s' = Discovery.UNHEALTHY <-> Discovery.health_score s' == 0)%Q)
  /\ (Discovery.status s = Discovery.UNHEALTHY ->
        (Discovery.status s' = Discovery.RUNNING <-> 0 < Discovery.health_score s')%Q)
  /\ (Discovery.status s <> Discovery.RUNNING ->
      Discovery.status s <> Discovery.UNHEALTHY ->
      Discovery.status s' = Discovery.status s).
Proof.
  intros s' n ok. subst s'. unfold Discovery.check_service_health. fold n.
  cbn [Discovery.health_score Discovery.status Discovery.update_health].
  set (score := if 0 <? n then _ else _).
  split; [|split; [|split]].
  - subst score ok. destruct (0 <? n) eqn:Hn; [|reflexivity].
    apply Z.ltb_lt in Hn.
    rewrite probe_endpoints_count. field.
    intros H. unfold Qeq in H. simpl in H. lia.
  - intros ->. simpl. rewrite andb_true_r, andb_false_r.
    destruct (Qeq_bool score 0) eqn:E.
    + apply Qeq_bool_eq in E. tauto.
    + apply Qeq_bool_neq in E. split; [discriminate | tauto].
  - intros ->. simpl. rewrite andb_true_r, andb_false_r.
    destruct (Qltb 0 score) eqn:E.
    + apply Qltb_lt in E. tauto.
    + apply Qltb_ge in E. split; [discriminate|].
      intros H. exfalso. eapply Qlt_not_le; eauto.
  - intros H1 H2.
    destruct (Discovery.status s); try congruence;
      simpl; rewrite !andb_false_r; reflexivity.
Qed.

(** C6, counterexample to "the fraction of endpoints whose probe returned
    a 2xx status": the only endpoint of a running service answers 204, the
    fraction of 2xx endpoints is 1, yet the score is 0 and the service is
    marked unhealthy. *)
Lemma health_score_2xx_counterexample :
  let s' := Discovery.check_service_health Scenario.probe_204 Scenario.noon
              Scenario.blog_service in
  List.map (fun e => Discovery.answers_2xx (Scenario.probe_204 (Discovery.health_url e)))
    (Discovery.endpoints Scenario.blog_service) = [true]
  /\ Discovery.health_score s' = 0%Q
  /\ Discovery.status s' = Discovery.UNHEALTHY.
Proof. vm_compute. repeat split; reflexivity. Qed.

Lemma health_score_counts_status_200_witness :
  let s' := Discovery.check_service_health Scenario.shop_probe Scenario.noon
              Scenario.shop_service in
  (Discovery.health_score s' == 1 # 2)%Q
  /\ Discovery.status s' = Discovery.RUNNING.
Proof.
  intros s'.
  destruct (health_score_counts_status_200 Scenario.shop_probe Scenario.noon
              Scenario.shop_service) as (Hscore & _ & Hup & _).
  fold s' in Hscore, Hup.
  split; [rewrite Hscore; reflexivity|].
  apply (Hup eq_refl). rewrite Hscore. reflexivity.
Defined.

Lemma check_services_health_lookup probe now
    (services : gmap string Discovery.ServiceDefinition) (n : string) :
  Discovery._check_services_health probe now services !! n
  = Discovery.check_service_health probe now <$> services !! n.
Proof. unfold Discovery._check_services_health. apply lookup_fmap. Qed.

(** ** autoshutdown_manager.py *)

Lemma is_container_protected_spec (rule : Shutdown.ShutdownRule)
    (stats : Shutdown.ContainerStats) :
  Shutdown._is_container_protected rule stats = true <->
  Shutdown.uptime stats < Shutdown.min_uptime rule
  \/ (Shutdown.protect_if_connected rule = true /\ 0 < Shutdown.connections stats)
  \/ (Shutdown.protect_if_uploading rule = true
      /\ Shutdown.network_threshold rule * 10 < Shutdown.network_tx_bytes stats)
  \/ Shutdown.is_protected stats = true.
Proof.
  unfold Shutdown._is_container_protected.
  destruct (Shutdown.is_protected stats); [tauto|].
  destruct (Shutdown.uptime stats <? Shutdown.min_uptime rule) eqn:Eu.
  { apply Z.ltb_lt in Eu. tauto. }
  apply Z.ltb_ge in Eu.
  destruct (Shutdown.protect_if_connected rule);
    destruct (0 <? Shutdown.connections stats) eqn:Ec;
    destruct (Shutdown.protect_if_uploading rule);
    destruct (Shutdown.network_threshold rule * 10 <? Shutdown.network_tx_bytes stats) eqn:En;
    simpl;
    rewrite ?Z.ltb_lt, ?Z.ltb_ge in *;
    split; intros H; try tauto; try discriminate;
    exfalso; destruct H as [H|[[H1 H2]|[[H1 H2]|H]]]; try discriminate; lia.
Qed.

(** A container handed to [_execute_shutdown] passed its own check, made
    at the clock reading of its position, also when the loop ends with an
    exception later on. *)
Lemma shutdown_calls_should clock_at execute cs rule i targets c :
  In c (Shutdown.shutdown_calls clock_at execute cs rule i targets).1 ->
  exists j, Shutdown._should_shutdown_container (clock_at j) cs rule c = Ok true.
Proof.
  revert i. induction targets as [|t targets IH]; intros i; simpl; [intros []|].
  destruct (Shutdown._should_shutdown_container (clock_at i) cs rule t)
    as [[|]|] eqn:Es; simpl.
  - destruct (execute t); simpl.
    + intros [<-|H]; [eauto | eapply IH; eauto].
    + intros [<-|[]]. eauto.
  - apply IH.
  - intros [].
Qed.

Lemma target_containers_observed (cs : gmap string (option Shutdown.ContainerStats))
    rule c :
  In c (Shutdown._get_target_containers cs rule) -> is_Some (cs !! c).
Proof.
  unfold Shutdown._get_target_containers. rewrite filter_In. intros [H _].
  apply in_map_iff in H as [[k v] [<- H]]. simpl.
  apply list_elem_of_In, elem_of_map_to_list in H. rewrite H. eauto.
Qed.

(** C7.  [_is_container_protected] answers [True] exactly when the uptime
    is below [min_uptime], or [protect_if_connected] is set and there are
    connections, or [protect_if_uploading] is set and the transmitted bytes
    exceed [network_threshold * 10], or [is_protected] is set.  A targeted
    container has an entry in [container_stats]; when that entry holds
    stats, a protected container makes [_should_shutdown_container] answer
    [False] before the rule's condition is looked at and is never handed to
    [_execute_shutdown], whatever the clock reads at the checks and
    however the loop ends, and an unprotected one gets the verdict of the
    rule's condition. *)
Theorem protected_container_is_skipped clk
    (cs : gmap string (option Shutdown.ContainerStats))
    (rule : Shutdown.ShutdownRule) (stats : Shutdown.ContainerStats) (c : string) :
  (Shutdown._is_container_protected rule stats = true <->
     Shutdown.uptime stats < Shutdown.min_uptime rule
     \/ (Shutdown.protect_if_connected rule = true /\ 0 < Shutdown.connections stats)
     \/ (Shutdown.protect_if_uploading rule = true
         /\ Shutdown.network_threshold rule * 10 < Shutdown.network_tx_bytes stats)
     \/ Shutdown.is_protected stats = true)
  /\ (In c (Shutdown._get_target_containers cs rule) -> is_Some (cs !! c))
  /\ (cs !! c = Some (Some stats) ->
        (Shutdown._is_container_protected rule stats = true ->
           Shutdown._should_shutdown_container clk cs rule c = Ok false
           /\ forall clock_at execute,
                ~ In c (Shutdown._check_rule clock_at execute cs rule).1)
        /\ (Shutdown._is_container_protected rule stats = false ->
              Shutdown._should_shutdown_container clk cs rule c
              = Shutdown.check_condition clk rule stats)).
Proof.
  split; [apply is_container_protected_spec|].
  split; [apply target_containers_observed|].
  intros Hc.
  assert (Hp : forall clk',
               Shutdown._is_container_protected rule stats = true ->
               Shutdown._should_shutdown_container clk' cs rule c = Ok false).
  { intros clk' Hp. unfold Shutdown._should_shutdown_container.
    rewrite Hc, Hp. reflexivity. }
  split.
  - intros Hprot. split; [auto|].
    intros clock_at execute Hin.
    unfold Shutdown._check_rule in Hin.
    destruct (shutdown_calls_should _ _ _ _ _ _ _ Hin) as [j Hs].
    rewrite (Hp _ Hprot) in Hs. discriminate.
  - intros Hfree. unfold Shutdown._should_shutdown_container.
    rewrite Hc, Hfree. reflexivity.
Qed.

(** Scenario 5 of the spec: an inactivity rule with [protect_if_connected];
    a container idle for 90 seconds with one connection is left alone, the
    same container without connections is shut down. *)
Example shutdown_with_protection :
  Shutdown._check_rule (fun _ => Scenario.idle_clock) (fun _ => Ok tt)
    {["c1" := Some (Scenario.c1_stats 1)]} Scenario.idle_rule = ([], Ok tt)
  /\ Shutdown._check_rule (fun _ => Scenario.idle_clock) (fun _ => Ok tt)
       {["c1" := Some (Scenario.c1_stats 0)]} Scenario.idle_rule = (["c1"], Ok tt).
Proof. vm_compute. split; reflexivity. Qed.

Lemma protected_container_is_skipped_witness :
  Shutdown._should_shutdown_container Scenario.idle_clock
    {["c1" := Some (Scenario.c1_stats 1)]} Scenario.idle_rule "c1" = Ok false
  /\ Shutdown._should_shutdown_container Scenario.idle_clock
       {["c1" := Some (Scenario.c1_stats 0)]} Scenario.idle_rule "c1" = Ok true.
Proof.
  split.
  - destruct (protected_container_is_skipped Scenario.idle_clock
                {["c1" := Some (Scenario.c1_stats 1)]} Scenario.idle_rule
                (Scenario.c1_stats 1) "c1") as (_ & _ & H).
    destruct (H eq_refl) as [H1 _]. destruct (H1 eq_refl) as [H2 _]. exact H2.
  - destruct (protected_container_is_skipped Scenario.idle_clock
                {["c1" := Some (Scenario.c1_stats 0)]} Scenario.idle_rule
                (Scenario.c1_stats 0) "c1") as (_ & _ & H).
    destruct (H eq_refl) as [_ H1]. rewrite (H1 eq_refl). reflexivity.
Defined.

(** ** plugin_manager.py *)

Section HookBus.

Context {Args Value World : Type}.
Implicit Types (cbs : list (Plugins.Callback Args Value World)).
Implicit Types (hooks : gmap Plugins.HookType (list (Plugins.Callback Args Value World))).

Lemma trigger_loop_entries cbs (args : Args) acc (w : World) :
  Plugins.trigger_loop cbs args acc w
  = (acc ++ Plugins.entries cbs args w, Plugins.world_after cbs args w).
Proof.
  revert acc w. induction cbs as [|cb cbs IH]; intros acc w; simpl.
  - rewrite app_nil_r. reflexivity.
  - unfold Plugins.outcome.
    destruct (Plugins.call cb args w) as [[v|e] w']; simpl;
      rewrite IH, <- app_assoc; reflexivity.
Qed.

Lemma entries_length cbs (args : Args) (w : World) :
  length (Plugins.entries cbs args w) = length cbs.
Proof.
  revert w. induction cbs as [|cb cbs IH]; intros w; simpl; [reflexivity|].
  rewrite IH. reflexivity.
Qed.

Lemma entries_lookup cbs (args : Args) (w : World) (i : nat) cb :
  cbs !! i = Some cb ->
  Plugins.entries cbs args w !! i
  = Some (Plugins.outcome cb args (Plugins.world_after (take i cbs) args w)).
Proof.
  revert w i. induction cbs as [|c cbs IH]; intros w i; [discriminate|].
  destruct i as [|i]; simpl.
  - intros [= <-]. reflexivity.
  - intros H. apply IH. exact H.
Qed.

Lemma register_hook_lookup hooks h h' cb :
  default [] (Plugins.register_hook hooks h cb !! h')
  = default [] (hooks !! h') ++ (if bool_decide (h = h') then [cb] else []).
Proof.
  unfold Plugins.register_hook. case_bool_decide as E.
  - subst h'. rewrite lookup_insert_eq. reflexivity.
  - rewrite lookup_insert_ne by exact E. rewrite app_nil_r. reflexivity.
Qed.

(** Registrations append: the list under a hook is what was there followed
    by the new subscribers of that hook in registration order. *)
Lemma register_hooks_lookup regs hooks h :
  default [] (Plugins.register_hooks hooks regs !! h)
  = default [] (hooks !! h) ++ Plugins.subscribers regs h.
Proof.
  revert hooks. induction regs as [|[h' cb] regs IH]; intros hooks.
  - simpl. rewrite app_nil_r. reflexivity.
  - unfold Plugins.register_hooks in *. simpl fold_left.
    rewrite IH, register_hook_lookup. unfold Plugins.subscribers. simpl.
    rewrite <- app_assoc. case_bool_decide; reflexivity.
Qed.

Lemma trigger_hook_default hooks h (args : Args) (w : World) :
  Plugins.trigger_hook hooks h args w
  = (Plugins.entries (default [] (hooks !! h)) args w,
     Plugins.world_after (default [] (hooks !! h)) args w).
Proof.
  unfold Plugins.trigger_hook. destruct (hooks !! h) as [cbs|]; simpl.
  - apply trigger_loop_entries.
  - reflexivity.
Qed.

(** C8.  After any sequence of registrations, triggering a hook runs the
    subscribers of that hook in registration order: the subscriber at
    position [i] is called in the world left by the [i] subscribers
    registered before it, whether or not any of them raised, and the world
    returned is the one left by the last subscriber.  The result list has
    one entry per subscriber, at the subscriber's position: its value, or
    the dictionary holding its error when it raised. *)
Theorem trigger_hook_order_and_isolation
    (regs : list (Plugins.HookType * Plugins.Callback Args Value World))
    (h : Plugins.HookType) (args : Args) (w : World) :
  let hooks := Plugins.register_hooks ∅ regs in
  let subs := Plugins.subscribers regs h in
  let out := Plugins.trigger_hook hooks h args w in
  length out.1 = length subs
  /\ out.2 = Plugins.world_after subs args w
  /\ (forall i cb, subs !! i = Some cb ->
        let w_i := Plugins.world_after (take i subs) args w in
        match Plugins.call cb args w_i with
        | (Ok v, _) => out.1 !! i = Some (Plugins.Returned v)
        | (Raise e, _) => out.1 !! i = Some (Plugins.ErrorDict e)
        end).
Proof.
  intros hooks subs out. subst out hooks.
  rewrite trigger_hook_default, register_hooks_lookup, lookup_empty. simpl.
  fold subs. split; [apply entries_length|]. split; [reflexivity|].
  intros i cb Hi.
  rewrite (entries_lookup _ _ _ _ _ Hi). unfold Plugins.outcome.
  destruct (Plugins.call cb args _) as [[v|e] w']; reflexivity.
Qed.

End HookBus.

(** Three subscribers of [on_health_check] registered around a subscriber
    of another hook; the second of the three raises.  All three run, in
    registration order, and the error sits at the second position. *)
Example trigger_hook_with_failing_subscriber :
  Plugins.trigger_hook (Plugins.register_hooks ∅ Scenario.registrations)
    Plugins.ON_HEALTH_CHECK "tick" []
  = ([Plugins.Returned 0; Plugins.ErrorDict "boom in slack"; Plugins.Returned 0],
     ["metrics"; "slack"; "pager"]).
Proof. vm_compute. reflexivity. Qed.

(** ** container_orchestrator.py *)

Lemma health_check_pass_lookup env now (o : Orchestrator.Orch) (n : string) :
  Orchestrator.containers (Orchestrator.health_check_pass env now o) !! n
  = (fun s =>
       match Orchestrator.container_id s with
       | Some cid =>
           if Orchestrator.ContainerState_eqb (Orchestrator.state s) Orchestrator.RUNNING
              && negb (String.eqb cid "")
           then Orchestrator._perform_health_check env now (Orchestrator.configs o) n cid s
           else s
       | None => s
       end) <$> Orchestrator.containers o !! n.
Proof.
  unfold Orchestrator.health_check_pass. simpl.
  rewrite map_lookup_imap. destruct (Orchestrator.containers o !! n); reflexivity.
Qed.

(** C5, as the code has it.  A pass of the health loop leaves every
    container that is not in state [running] exactly as it was, so an
    unhealthy container is not probed and not restored; for a running
    container that the runtime reports as running, the state after the pass
    is [unhealthy] as soon as this one check fails and [running] when it
    succeeds. *)
Theorem health_loop_single_failure env now (o : Orchestrator.Orch) (n : string)
    (s : Orchestrator.ContainerStatus) :
  Orchestrator.containers o !! n = Some s ->
  let after := Orchestrator.containers (Orchestrator.health_check_pass env now o) !! n in
  (Orchestrator.state s <> Orchestrator.RUNNING -> after = Some s)
  /\ (forall cid hc,
        Orchestrator.state s = Orchestrator.RUNNING ->
        Orchestrator.container_id s = Some cid ->
        cid <> "" ->
        Orchestrator.lookup env cid = Orchestrator.Found "running" ->
        Orchestrator.configs o !! n ≫= Orchestrator.health_check = Some hc ->
        Orchestrator.state <$> after
        = Some (if Orchestrator._check_container_health env cid hc
                then Orchestrator.RUNNING else Orchestrator.UNHEALTHY)).
Proof.
  intros Hn after. subst after. rewrite health_check_pass_lookup, Hn. simpl.
  split.
  - intros Hstate. destruct (Orchestrator.container_id s); [|reflexivity].
    destruct (Orchestrator.state s); try congruence; reflexivity.
  - intros cid hc Hstate Hcid Hne Hfound Hhc.
    rewrite Hcid, Hstate. simpl.
    apply String.eqb_neq in Hne. rewrite Hne. simpl.
    unfold Orchestrator._perform_health_check. rewrite Hfound, Hhc. simpl.
    destruct (Orchestrator._check_container_health env cid hc); simpl;
      rewrite ?Hstate; reflexivity.
Qed.

Lemma health_loop_single_failure_witness :
  Orchestrator.state_of
    (Orchestrator.health_check_pass (Scenario.health_env ProbeFailed) Scenario.noon
       Scenario.web_orch) "web"
  = Some Orchestrator.UNHEALTHY.
Proof.
  destruct (health_loop_single_failure (Scenario.health_env ProbeFailed)
              Scenario.noon Scenario.web_orch "web" Scenario.web_running)
    as [_ H]; [reflexivity|].
  unfold Orchestrator.state_of.
  rewrite (H "c0ffee"
             (Orchestrator.mkHealthCheck (Some "http") (Some "http://web/health")
                None None));
    [reflexivity | reflexivity | reflexivity | discriminate | reflexivity | reflexivity].
Defined.

(** C5, counterexample to "exactly two consecutive failures (not one)" and
    to "a single subsequent success restores running": after one failed
    check the running container is unhealthy, and a following pass in
    which the probe answers 200 leaves it unhealthy. *)
Lemma health_loop_two_failures_counterexample :
  let failed := Orchestrator.health_check_pass (Scenario.health_env ProbeFailed)
                  Scenario.noon Scenario.web_orch in
  let probed_ok := Orchestrator.health_check_pass (Scenario.health_env (Responded 200))
                     (Scenario.noon + 30 * usec) failed in
  Orchestrator.state_of Scenario.web_orch "web" = Some Orchestrator.RUNNING
  /\ Orchestrator.state_of failed "web" = Some Orchestrator.UNHEALTHY
  /\ Orchestrator.state_of probed_ok "web" = Some Orchestrator.UNHEALTHY.
Proof. vm_compute. repeat split; reflexivity. Qed.

Lemma state_of_update_ne (o : Orchestrator.Orch) n m f :
  n <> m ->
  Orchestrator.state_of (Orchestrator.update_status o n f) m = Orchestrator.state_of o m.
Proof.
  intros H. unfold Orchestrator.state_of, Orchestrator.update_status. simpl.
  rewrite lookup_alter_ne by exact H. reflexivity.
Qed.

Lemma state_of_update_eq (o : Orchestrator.Orch) n f :
  Orchestrator.state_of (Orchestrator.update_status o n f) n
  = (fun s => Orchestrator.state (f s)) <$> Orchestrator.containers o !! n.
Proof.
  unfold Orchestrator.state_of, Orchestrator.update_status. simpl.
  rewrite lookup_alter_eq. destruct (Orchestrator.containers o !! n); reflexivity.
Qed.

(** Dependencies that are not managed or already running need no work. *)
Lemma start_dependencies_ready start sleep polls deps (o : Orchestrator.Orch) :
  Forall (fun d => Orchestrator.state_of o d = None
                   \/ Orchestrator.state_of o d = Some Orchestrator.RUNNING) deps ->
  Orchestrator._start_dependencies start sleep polls deps o = (Ok tt, o).
Proof.
  induction 1 as [|d deps Hd _ IH]; simpl; [reflexivity|].
  destruct Hd as [-> | ->]; exact IH.
Qed.

(** A start that passes the state checks and finds its dependencies ready
    puts the container at the tail of the queue, whatever the queue holds. *)
Lemma start_container_enqueues sleep polls depth (o : Orchestrator.Orch) n force cfg s :
  Orchestrator.configs o !! n = Some cfg ->
  Orchestrator.containers o !! n = Some s ->
  Orchestrator.state s <> Orchestrator.STARTING ->
  Orchestrator.state s <> Orchestrator.RUNNING \/ force = true ->
  Forall (fun d => d <> n /\ (Orchestrator.state_of o d = None
                              \/ Orchestrator.state_of o d = Some Orchestrator.RUNNING))
    (Orchestrator.dependencies cfg) ->
  Orchestrator.start_container sleep polls (S depth) n force o
  = (Ok true,
     Orchestrator.queue_put
       (Orchestrator.update_status o n
          (fun x => Orchestrator.set_state x Orchestrator.STARTING))
       (n, cfg)).
Proof.
  intros Hcfg Hs Hstarting Hrun Hdeps.
  cbn -[Orchestrator._start_dependencies Orchestrator.update_status
        Orchestrator.queue_put].
  rewrite Hcfg, Hs.
  assert (E1 : Orchestrator.ContainerState_eqb (Orchestrator.state s) Orchestrator.RUNNING
               && negb force = false).
  { destruct Hrun as [Hrun| ->]; [|apply andb_false_r].
    destruct (Orchestrator.state s); try congruence; reflexivity. }
  assert (E2 : Orchestrator.ContainerState_eqb (Orchestrator.state s) Orchestrator.STARTING
               = false).
  { destruct (Orchestrator.state s); try congruence; reflexivity. }
  rewrite E1, E2.
  set (o1 := Orchestrator.update_status o n _).
  assert (Hready : Orchestrator._start_dependencies
                     (fun dep => Orchestrator.start_container sleep polls depth dep false)
                     sleep polls (Orchestrator.dependencies cfg) o1 = (Ok tt, o1)).
  { apply start_dependencies_ready.
    eapply Forall_impl; [exact Hdeps|]. intros d [Hne Hd]. subst o1.
    rewrite state_of_update_ne by congruence. exact Hd. }
  destruct (Orchestrator.dependencies cfg) as [|d ds]; [reflexivity|].
  rewrite Hready. reflexivity.
Qed.

(** C4, as the code has it.  The start-up queue is a FIFO without a bound:
    a start that passes the state checks and whose dependencies are ready
    is accepted and appended at the tail whatever the number of entries
    already waiting, and a worker takes the entry at the head. *)
Theorem startup_queue_is_unbounded_fifo sleep polls depth (o : Orchestrator.Orch)
    n force cfg s :
  Orchestrator.configs o !! n = Some cfg ->
  Orchestrator.containers o !! n = Some s ->
  Orchestrator.state s <> Orchestrator.STARTING ->
  Orchestrator.state s <> Orchestrator.RUNNING \/ force = true ->
  Forall (fun d => d <> n /\ (Orchestrator.state_of o d = None
                              \/ Orchestrator.state_of o d = Some Orchestrator.RUNNING))
    (Orchestrator.dependencies cfg) ->
  let out := Orchestrator.start_container sleep polls (S depth) n force o in
  out.1 = Ok true
  /\ Orchestrator.startup_queue out.2 = Orchestrator.startup_queue o ++ [(n, cfg)]
  /\ Orchestrator.state_of out.2 n = Some Orchestrator.STARTING
  /\ (forall run now x q,
        Orchestrator.startup_queue out.2 = x :: q ->
        Orchestrator.worker_step run now out.2
        = Orchestrator._execute_startup run now x.1 (Orchestrator.with_queue out.2 q)).
Proof.
  intros Hcfg Hs Hstarting Hrun Hdeps out. subst out.
  rewrite (start_container_enqueues _ _ _ _ _ _ _ _ Hcfg Hs Hstarting Hrun Hdeps).
  cbn [fst snd]. split; [reflexivity|]. split; [reflexivity|]. split.
  - unfold Orchestrator.queue_put, Orchestrator.state_of. simpl.
    rewrite lookup_alter_eq, Hs. reflexivity.
  - intros run now [x c] q Hq. unfold Orchestrator.worker_step.
    rewrite Hq. reflexivity.
Qed.

Lemma startup_queue_is_unbounded_fifo_witness :
  let out := Orchestrator.start_container (fun o => o) 150 10 "web" false
               (Scenario.busy_orch 5) in
  out.1 = Ok true
  /\ List.map fst (Orchestrator.startup_queue out.2)
     = ["job"; "job"; "job"; "job"; "job"; "web"].
Proof.
  destruct (startup_queue_is_unbounded_fifo (fun o => o) 150 9
              (Scenario.busy_orch 5) "web" false (Scenario.web_config [])
              (Scenario.stopped "web"))
    as (H1 & H2 & _); try reflexivity.
  - discriminate.
  - left. discriminate.
  - constructor.
  - split; [exact H1|]. rewrite H2. reflexivity.
Defined.

(** C4, counterexample to "bounded, and a Start is rejected when the queue
    is full": with 1000 start-ups waiting the next start is accepted and
    the queue holds 1001 entries; and whatever capacity one names, there is
    an orchestrator whose queue already holds that many entries and still
    accepts one more. *)
Lemma startup_queue_bounded_counterexample :
  (let out := Orchestrator.start_container (fun o => o) 150 10 "web" false
                (Scenario.busy_orch 1000) in
   out.1 = Ok true /\ length (Orchestrator.startup_queue out.2) = 1001%nat)
  /\ (forall capacity : nat,
        let o := Scenario.busy_orch capacity in
        let out := Orchestrator.start_container (fun o => o) 150 10 "web" false o in
        (capacity <= length (Orchestrator.startup_queue o))%nat
        /\ out.1 = Ok true
        /\ length (Orchestrator.startup_queue out.2)
           = S (length (Orchestrator.startup_queue o))).
Proof.
  split.
  - vm_compute. split; reflexivity.
  - intros capacity o out. subst out.
    rewrite (start_container_enqueues _ _ _ _ _ _ (Scenario.web_config [])
               (Scenario.stopped "web"));
      [ | reflexivity | reflexivity | discriminate | left; discriminate | constructor ].
    subst o. simpl. rewrite length_app, repeat_length. simpl.
    split; [lia|]. split; [reflexivity | lia].
Qed.

Lemma start_container_step sleep polls d n force (o : Orchestrator.Orch) :
  Orchestrator.start_container sleep polls (S d) n force o
  = match Orchestrator.configs o !! n with
    | None => (Ok false, o)
    | Some config =>
        match Orchestrator.containers o !! n with
        | None => (Raise ("KeyError: " +:+ n), o)
        | Some status =>
            if Orchestrator.ContainerState_eqb (Orchestrator.state status)
                 Orchestrator.RUNNING && negb force
            then (Ok true, o)
            else if Orchestrator.ContainerState_eqb (Orchestrator.state status)
                      Orchestrator.STARTING
            then (Ok true, o)
            else
              let o1 := Orchestrator.update_status o n
                          (fun s => Orchestrator.set_state s Orchestrator.STARTING) in
              match
                match Orchestrator.dependencies config with
                | [] => (Ok tt, o1)
                | deps =>
                    Orchestrator._start_dependencies
                      (fun dep => Orchestrator.start_container sleep polls d dep false)
                      sleep polls deps o1
                end
              with
              | (Ok _, o2) => (Ok true, Orchestrator.queue_put o2 (n, config))
              | (Raise e, o2) =>
                  (Ok false, Orchestrator.update_status o2 n
                               (fun s => Orchestrator.set_error s e))
              end
        end
    end.
Proof. reflexivity. Qed.

Section StuckSets.

Variable members : string -> Prop.

Lemma stuck_state (o : Orchestrator.Orch) (n : string) :
  Orchestrator.stuck members o -> members n ->
  exists st, Orchestrator.state_of o n = Some st /\ st <> Orchestrator.RUNNING.
Proof.
  intros Hst Hn. destruct (Hst n Hn) as (cfg & s & _ & Hs & Hr & _).
  exists (Orchestrator.state s). unfold Orchestrator.state_of. rewrite Hs. auto.
Qed.

Lemma stuck_update (o : Orchestrator.Orch) (n : string) f :
  (members n -> forall s, Orchestrator.state (f s) <> Orchestrator.RUNNING) ->
  Orchestrator.stuck members o ->
  Orchestrator.stuck members (Orchestrator.update_status o n f).
Proof.
  intros Hf Hst m Hm. destruct (Hst m Hm) as (cfg & s & Hc & Hs & Hr & Hq & Hd).
  destruct (decide (n = m)) as [->|Hne].
  - exists cfg, (f s). repeat split; auto.
    unfold Orchestrator.update_status. simpl. rewrite lookup_alter_eq, Hs. reflexivity.
  - exists cfg, s. repeat split; auto.
    unfold Orchestrator.update_status. simpl. rewrite lookup_alter_ne by exact Hne.
    exact Hs.
Qed.

Lemma stuck_queue_put (o : Orchestrator.Orch) (n : string) cfg :
  ~ members n ->
  Orchestrator.stuck members o ->
  Orchestrator.stuck members (Orchestrator.queue_put o (n, cfg)).
Proof.
  intros Hn Hst m Hm. destruct (Hst m Hm) as (c & s & Hc & Hs & Hr & Hq & Hd).
  exists c, s. repeat split; auto.
  unfold Orchestrator.queued, Orchestrator.queue_put. simpl.
  rewrite map_app, in_app_iff. simpl. intros [H|[H|[]]]; [exact (Hq H)|].
  subst m. exact (Hn Hm).
Qed.

Lemma stuck_worker_step run now (o : Orchestrator.Orch) :
  Orchestrator.stuck members o ->
  Orchestrator.stuck members (Orchestrator.worker_step run now o).
Proof.
  intros Hst. unfold Orchestrator.worker_step.
  destruct (Orchestrator.startup_queue o) as [|[n c] rest] eqn:Eq; [exact Hst|].
  unfold Orchestrator._execute_startup.
  apply stuck_update.
  - intros Hn. exfalso. destruct (Hst n Hn) as (_ & _ & _ & _ & _ & Hq & _).
    apply Hq. unfold Orchestrator.queued. rewrite Eq. simpl. auto.
  - intros m Hm. destruct (Hst m Hm) as (cfg & s & Hc & Hs & Hr & Hq & Hd).
    exists cfg, s. repeat split; auto.
    unfold Orchestrator.queued in *. simpl. rewrite Eq in Hq. simpl in Hq. tauto.
Qed.

Lemma stuck_workers run now batch (o : Orchestrator.Orch) :
  Orchestrator.stuck members o ->
  Orchestrator.stuck members (Orchestrator.workers run now batch o).
Proof.
  revert o. induction batch as [|k IH]; intros o Hst; simpl; [exact Hst|].
  apply IH, stuck_worker_step, Hst.
Qed.

Section Waiting.

Variable sleep : Orchestrator.Orch -> Orchestrator.Orch.
Hypothesis sleep_stuck :
  forall o, Orchestrator.stuck members o -> Orchestrator.stuck members (sleep o).

(** Waiting for a member of a stuck set ends with the time-out. *)
Lemma wait_running_stuck polls dep (o : Orchestrator.Orch) :
  Orchestrator.stuck members o ->
  Orchestrator.stuck members (Orchestrator.wait_running sleep polls dep o).2
  /\ (members dep -> exists e, (Orchestrator.wait_running sleep polls dep o).1 = Raise e).
Proof.
  revert o. induction polls as [|p IH]; intros o Hst; simpl.
  - split; [exact Hst | eauto].
  - destruct (Orchestrator.state_of o dep) as [st|] eqn:Est.
    + destruct st; try (apply IH, sleep_stuck, Hst).
      split; [exact Hst|]. intros Hdep.
      destruct (stuck_state o dep Hst Hdep) as (st & Hs & Hr). congruence.
    + apply IH, sleep_stuck, Hst.
Qed.

Lemma start_dependencies_cons start polls d rest (o : Orchestrator.Orch) :
  Orchestrator._start_dependencies start sleep polls (d :: rest) o
  = if match Orchestrator.state_of o d with
       | None | Some Orchestrator.RUNNING => true
       | Some _ => false
       end
    then Orchestrator._start_dependencies start sleep polls rest o
    else
      match start d o with
      | (Raise e, o1) => (Raise e, o1)
      | (Ok _, o1) =>
          match Orchestrator.wait_running sleep polls d o1 with
          | (Raise e, o2) => (Raise e, o2)
          | (Ok _, o2) => Orchestrator._start_dependencies start sleep polls rest o2
          end
      end.
Proof. simpl. destruct (Orchestrator.state_of o d) as [[]|]; reflexivity. Qed.

(** Starting dependencies keeps a stuck set stuck, and raises as soon as
    one of the dependencies belongs to the set. *)
Lemma start_dependencies_stuck start polls deps (o : Orchestrator.Orch) :
  (forall n o', Orchestrator.stuck members o' -> Orchestrator.stuck members (start n o').2) ->
  Orchestrator.stuck members o ->
  Orchestrator.stuck members (Orchestrator._start_dependencies start sleep polls deps o).2
  /\ ((exists d, In d deps /\ members d) ->
      exists e, (Orchestrator._start_dependencies start sleep polls deps o).1 = Raise e).
Proof.
  intros Hstart. revert o. induction deps as [|d rest IH]; intros o Hst.
  - simpl. split; [exact Hst|]. intros (d & [] & _).
  - rewrite start_dependencies_cons.
    destruct (match Orchestrator.state_of o d with
              | None | Some Orchestrator.RUNNING => true
              | Some _ => false
              end) eqn:Eready.
    + destruct (IH o Hst) as [IH1 IH2]. split; [exact IH1|].
      intros (d' & [<-|Hin] & Hd'); [|eauto].
      destruct (stuck_state o d Hst Hd') as (st & Hs & Hr).
      rewrite Hs in Eready. destruct st; congruence.
    + pose proof (Hstart d o Hst) as H1.
      destruct (start d o) as [[b|e] o1]; simpl in H1; [|split; eauto].
      destruct (wait_running_stuck polls d o1 H1) as [H2 H3].
      destruct (Orchestrator.wait_running sleep polls d o1) as [[u|e] o2];
        simpl in H2, H3; [|split; eauto].
      destruct (IH o2 H2) as [IH1 IH2]. split; [exact IH1|].
      intros (d' & [<-|Hin] & Hd'); [|eauto].
      destruct (H3 Hd') as [e He]. discriminate.
Qed.

(** [start_container] never makes a member of a stuck set running or
    queued. *)
Lemma start_container_stuck polls depth n force (o : Orchestrator.Orch) :
  Orchestrator.stuck members o ->
  Orchestrator.stuck members (Orchestrator.start_container sleep polls depth n force o).2.
Proof.
  revert n force o. induction depth as [|d IH]; intros n force o Hst; [exact Hst|].
  cbn -[Orchestrator._start_dependencies Orchestrator.update_status
        Orchestrator.queue_put].
  destruct (Orchestrator.configs o !! n) as [cfg|] eqn:Hcfg; [|exact Hst].
  destruct (Orchestrator.containers o !! n) as [s|] eqn:Hs; [|exact Hst].
  destruct (_ && _); [exact Hst|].
  destruct (Orchestrator.ContainerState_eqb _ _); [exact Hst|].
  set (o1 := Orchestrator.update_status o n _).
  assert (Hst1 : Orchestrator.stuck members o1).
  { apply stuck_update; [|exact Hst]. intros _ x. discriminate. }
  destruct (start_dependencies_stuck
              (fun dep => Orchestrator.start_container sleep polls d dep false)
              polls (Orchestrator.dependencies cfg) o1
              (fun m o' => IH m false o') Hst1) as [Hdeps Hraise].
  assert (Hout :
    forall (r : result unit) o2,
      Orchestrator.stuck members o2 ->
      ((exists x, In x (Orchestrator.dependencies cfg) /\ members x) -> exists e, r = Raise e) ->
      Orchestrator.stuck members
        (match r with
         | Ok _ => (Ok true, Orchestrator.queue_put o2 (n, cfg))
         | Raise e =>
             (Ok false, Orchestrator.update_status o2 n
                          (fun x => Orchestrator.set_error x e))
         end).2).
  { intros [u|e] o2 Hst2 Hr; simpl.
    - apply stuck_queue_put; [|exact Hst2]. intros Hn.
      destruct (Hst n Hn) as (cfg' & _ & Hc' & _ & _ & _ & Hd).
      rewrite Hcfg in Hc'. injection Hc' as <-.
      destruct (Hr Hd) as [e He]. discriminate.
    - apply stuck_update; [|exact Hst2]. intros _ x. discriminate. }
  revert Hdeps Hraise Hout.
  destruct (Orchestrator.dependencies cfg) as [|x xs]; intros Hdeps Hraise Hout.
  - apply (Hout (Ok tt) o1 Hst1). intros (x & [] & _).
  - destruct (Orchestrator._start_dependencies _ sleep polls (x :: xs) o1)
      as [r o2] eqn:E.
    simpl in Hdeps, Hraise.
    specialize (Hout r o2 Hdeps Hraise).
    destruct r; exact Hout.
Qed.

(** The outcome of a start inside a stuck set: a container that is
    already starting is left alone with the answer [True]; any other start
    is caught waiting for a member of the set and ends with [False] and
    the container in [ERROR]. *)
Lemma start_container_stuck_fails polls depth n force (o : Orchestrator.Orch) :
  Orchestrator.stuck members o -> members n ->
  (Orchestrator.state_of o n = Some Orchestrator.STARTING ->
   Orchestrator.start_container sleep polls (S depth) n force o = (Ok true, o))
  /\ (Orchestrator.state_of o n <> Some Orchestrator.STARTING ->
      (Orchestrator.start_container sleep polls (S depth) n force o).1 = Ok false
      /\ Orchestrator.state_of
           (Orchestrator.start_container sleep polls (S depth) n force o).2 n
         = Some Orchestrator.ERROR).
Proof.
  intros Hst Hn.
  destruct (Hst n Hn) as (cfg & s & Hcfg & Hs & Hr & Hq & d & Hd & Hmd).
  rewrite start_container_step, Hcfg, Hs.
  assert (E1 : Orchestrator.ContainerState_eqb (Orchestrator.state s) Orchestrator.RUNNING
               && negb force = false).
  { destruct (Orchestrator.state s); try congruence; reflexivity. }
  rewrite E1.
  assert (Hstate : Orchestrator.state_of o n = Some (Orchestrator.state s)).
  { unfold Orchestrator.state_of. rewrite Hs. reflexivity. }
  rewrite Hstate.
  destruct (Orchestrator.ContainerState_eqb (Orchestrator.state s) Orchestrator.STARTING)
    eqn:E2.
  { split; [reflexivity|]. intros Hne. exfalso. apply Hne. f_equal.
    destruct (Orchestrator.state s); try discriminate; reflexivity. }
  split.
  { intros [= Hstarting]. rewrite Hstarting in E2. discriminate. }
  intros _. cbv zeta.
  set (o1 := Orchestrator.update_status o n _).
  assert (Hst1 : Orchestrator.stuck members o1).
  { apply stuck_update; [|exact Hst]. intros _ x. discriminate. }
  destruct (start_dependencies_stuck
              (fun dep => Orchestrator.start_container sleep polls depth dep false)
              polls (Orchestrator.dependencies cfg) o1
              (fun m o' => start_container_stuck polls depth m false o') Hst1)
    as [Hdeps Hraise].
  destruct Hraise as [e He]; [eauto|].
  destruct (Orchestrator.dependencies cfg) as [|x xs] eqn:Edeps; [destruct Hd|].
  destruct (Orchestrator._start_dependencies _ sleep polls (x :: xs) o1) as [r o2].
  simpl in He, Hdeps. subst r. simpl. split; [reflexivity|].
  destruct (Hdeps n Hn) as (_ & s2 & _ & Hs2 & _).
  rewrite state_of_update_eq, Hs2. reflexivity.
Qed.

End Waiting.

(** The containers of a dependency cycle: every one of them depends on
    another one. *)
Lemma cycle_members_depend cfgs a n :
  tc (Orchestrator.depends_on cfgs) a n ->
  tc (Orchestrator.depends_on cfgs) n a ->
  exists cfg d,
    cfgs !! n = Some cfg /\ In d (Orchestrator.dependencies cfg)
    /\ tc (Orchestrator.depends_on cfgs) a d
    /\ tc (Orchestrator.depends_on cfgs) d a.
Proof.
  intros Han Hna.
  inversion Hna as [x y Hstep | x d y Hstep Hrest]; subst.
  - destruct Hstep as (cfg & Hcfg & Hin). exists cfg, a.
    repeat split; auto.
    + eapply tc_r; eauto. exists cfg. auto.
    + eapply tc_r; eauto. exists cfg. auto.
  - destruct Hstep as (cfg & Hcfg & Hin). exists cfg, d.
    repeat split; auto.
    eapply tc_r; eauto. exists cfg. auto.
Qed.

End StuckSets.

Lemma register_container_accepts (o : Orchestrator.Orch) cfg :
  exists o',
    Orchestrator.register_container o cfg = Ok o'
    /\ Orchestrator.configs o' !! Orchestrator.name cfg = Some cfg
    /\ Orchestrator.startup_queue o' = Orchestrator.startup_queue o
    /\ (forall n, n <> Orchestrator.name cfg ->
          Orchestrator.configs o' !! n = Orchestrator.configs o !! n).
Proof.
  eexists. split; [reflexivity|]. simpl.
  split; [apply lookup_insert_eq|]. split; [reflexivity|].
  intros n Hn. apply lookup_insert_ne. congruence.
Qed.

(** A chain of dependencies is what the transitive closure of the
    dependency relation describes. *)
Lemma depends_along_tc cfgs a b :
  tc (Orchestrator.depends_on cfgs) a b
  <-> exists via, Orchestrator.depends_along cfgs a via b.
Proof.
  split.
  - induction 1 as [x y Hxy | x y z Hxy _ [via IH]].
    + exists []. exact Hxy.
    + exists (y :: via). split; assumption.
  - intros [via Hvia]. revert a Hvia.
    induction via as [|n via IH]; intros a Hvia.
    + apply tc_once. exact Hvia.
    + destruct Hvia as [Han Hrest]. eapply tc_l; [exact Han | apply IH, Hrest].
Qed.

(** Every container of a chain depends on a later container of the chain
    or on its end. *)
Lemma depends_along_members cfgs a via b n :
  Orchestrator.depends_along cfgs a via b -> In n (a :: via) ->
  exists cfg d,
    cfgs !! n = Some cfg /\ In d (Orchestrator.dependencies cfg) /\ In d (via ++ [b]).
Proof.
  revert a. induction via as [|m via IH]; intros a Hvia Hn.
  - destruct Hn as [<-|[]]. destruct Hvia as (cfg & Hcfg & Hin).
    exists cfg, b. simpl. auto.
  - destruct Hvia as [(cfg & Hcfg & Hin) Hrest]. destruct Hn as [<-|Hn].
    + exists cfg, m. simpl. auto.
    + destruct (IH m Hrest Hn) as (cfg' & d & H1 & H2 & H3).
      exists cfg', d. simpl. auto.
Qed.


(** A two-container cycle registered while both are stopped: starting one
    of them returns [False], leaves both in [error] and nothing queued. *)
Example start_in_stopped_cycle :
  match Scenario.cycle_registered with
  | Ok o =>
      let out := Orchestrator.start_container
                   (Orchestrator.workers Scenario.runtime_ok Scenario.noon 1)
                   3 10 "a" false o in
      out.1 = Ok false
      /\ Orchestrator.state_of out.2 "a" = Some Orchestrator.ERROR
      /\ Orchestrator.state_of out.2 "b" = Some Orchestrator.ERROR
      /\ Orchestrator.startup_queue out.2 = []
  | Raise _ => False
  end.
Proof. vm_compute. repeat split; reflexivity. Qed.



Lemma trigger_hook_order_and_isolation_witness :
  let out := Plugins.trigger_hook (Plugins.register_hooks ∅ Scenario.registrations)
               Plugins.ON_HEALTH_CHECK "tick" [] in
  length out.1 = 3%nat
  /\ out.1 !! 1%nat = Some (Plugins.ErrorDict "boom in slack")
  /\ out.1 !! 2%nat = Some (Plugins.Returned 0)
  /\ out.2 = ["metrics"; "slack"; "pager"].
Proof.
  intros out.
  destruct (trigger_hook_order_and_isolation Scenario.registrations
              Plugins.ON_HEALTH_CHECK "tick" []) as (Hlen & Hworld & Hat).
  fold out in Hlen, Hworld, Hat.
  split; [exact Hlen|].
  split; [exact (Hat 1%nat (Scenario.logging "slack" true) eq_refl)|].
  split; [exact (Hat 2%nat (Scenario.logging "pager" false) eq_refl)|].
  exact Hworld.
Defined.

(* ===================================================================== *)
(** * Further properties of the modules *)
(* ===================================================================== *)

(** ** proxy_manager.py: selection *)

Lemma index_in_range {A} (l : list A) (i : Z) :
  - Z.of_nat (length l) <= i < Z.of_nat (length l) ->
  exists x, index l i = Ok x /\ In x l.
Proof.
  intros Hi. unfold index.
  set (n := Z.of_nat (length l)) in *.
  set (j := if i <? 0 then i + n else i).
  assert (Hj : 0 <= j < n).
  { subst j. destruct (i <? 0) eqn:E; [apply Z.ltb_lt in E | apply Z.ltb_ge in E]; lia. }
  destruct (j <? 0) eqn:E1; [apply Z.ltb_lt in E1; lia|].
  destruct (n <=? j) eqn:E2; [apply Z.leb_le in E2; lia|].
  simpl.
  destruct (l !! Z.to_nat j) as [x|] eqn:E.
  - exists x. split; [reflexivity|].
    apply list_elem_of_In. eapply list_elem_of_lookup_2; eauto.
  - apply lookup_ge_None in E. subst n. lia.
Qed.

Lemma mod_index_lookup {A} (l : list A) (a : Z) (x : A) :
  l !! Z.to_nat (a mod Z.of_nat (length l)) = Some x ->
  bind (mod_ a (Z.of_nat (length l))) (index l) = Ok x.
Proof.
  intros Hx.
  assert (Hn : 0 < Z.of_nat (length l)).
  { destruct l; [rewrite lookup_nil in Hx; discriminate | simpl; lia]. }
  unfold mod_. destruct (_ =? 0) eqn:E; [apply Z.eqb_eq in E; lia|].
  cbn [bind]. unfold index.
  pose proof (Z.mod_pos_bound a _ Hn) as Hb.
  set (j := a mod Z.of_nat (length l)) in *.
  destruct (j <? 0) eqn:E1; [apply Z.ltb_lt in E1; lia|].
  destruct (Z.of_nat (length l) <=? j) eqn:E3; [apply Z.leb_le in E3; lia|].
  rewrite ?E1. cbn [orb]. rewrite Hx. reflexivity.
Qed.

Lemma mod_index_total {A} (l : list A) (a : Z) :
  l <> [] -> exists x, bind (mod_ a (Z.of_nat (length l))) (index l) = Ok x.
Proof.
  intros Hl.
  assert (Hn : 0 < Z.of_nat (length l)) by (destruct l; [congruence | simpl; lia]).
  pose proof (Z.mod_pos_bound a _ Hn) as Hb.
  destruct (l !! Z.to_nat (a mod Z.of_nat (length l))) as [x|] eqn:E.
  - exists x. apply mod_index_lookup. exact E.
  - apply lookup_ge_None in E. lia.
Qed.

Lemma round_robin_with_store (bs : list Proxy.Backend) idx clk rnd md5 store b :
  bs !! Z.to_nat (idx mod Z.of_nat (length bs)) = Some b ->
  Proxy._round_robin_select (Proxy.mkSelectEnv (Some idx) clk rnd md5 store) bs = Ok b.
Proof.
  intros H. unfold Proxy._round_robin_select. simpl.
  rewrite (mod_index_lookup bs idx b H). reflexivity.
Qed.

Lemma round_robin_total env (bs : list Proxy.Backend) :
  bs <> [] -> exists b, Proxy._round_robin_select env bs = Ok b.
Proof.
  intros Hbs. unfold Proxy._round_robin_select.
  destruct (mod_index_total bs (Proxy.clock env) Hbs) as [c Hc].
  destruct (Proxy.redis_incr env) as [idx|].
  - destruct (mod_index_total bs idx Hbs) as [x Hx]. rewrite Hx. eauto.
  - rewrite Hc. eauto.
Qed.

Lemma weighted_select_total env (bs : list Proxy.Backend) :
  bs <> [] -> 0 <= Proxy.sum_weights bs ->
  exists b, Proxy._weighted_select env bs = Ok b.
Proof.
  intros Hbs Hw. unfold Proxy._weighted_select.
  assert (Hn : 0 < Z.of_nat (length bs)) by (destruct bs; [congruence | simpl; lia]).
  destruct (_ =? 0) eqn:E0.
  { destruct (index_in_range bs 0) as (x & Hx & _); [lia | eauto]. }
  apply Z.eqb_neq in E0.
  destruct (_ <? 1) eqn:E1; [apply Z.ltb_lt in E1; lia|].
  destruct (Proxy.weighted_loop _ _); [eauto|].
  destruct (index_in_range bs (-1)) as (x & Hx & _); [lia | eauto].
Qed.

(** [_select_backend] answers [None] exactly when no backend is healthy;
    otherwise it returns a healthy backend of the pool and does not raise,
    the weighted rule needing a total weight that is not negative. *)
Theorem select_backend_answers env (t : Proxy.ProxyTarget) ip sid :
  (Proxy._select_backend env t ip sid = Ok None <-> Proxy.get_healthy_backends t = [])
  /\ (Proxy.get_healthy_backends t <> [] ->
      (Proxy.rule t = Proxy.WEIGHTED ->
       0 <= Proxy.sum_weights (Proxy.get_healthy_backends t)) ->
      exists b,
        Proxy._select_backend env t ip sid = Ok (Some b)
        /\ In b (Proxy.backends t) /\ Proxy.status b = Proxy.HEALTHY).
Proof.
  assert (Hsome : Proxy.get_healthy_backends t <> [] ->
            (Proxy.rule t = Proxy.WEIGHTED ->
             0 <= Proxy.sum_weights (Proxy.get_healthy_backends t)) ->
            exists b, Proxy._select_backend env t ip sid = Ok (Some b)).
  { intros Hne Hw. unfold Proxy._select_backend.
    destruct (Proxy.get_healthy_backends t) as [|h hs] eqn:Eh; [congruence|].
    destruct (Proxy.sticky_lookup env t (h :: hs) sid) as [b|]; [eauto|].
    destruct (Proxy.rule t).
    - destruct (round_robin_total env (h :: hs)) as [b Hb]; [discriminate|].
      rewrite Hb. simpl. eauto.
    - simpl. eauto.
    - destruct (weighted_select_total env (h :: hs)) as [b Hb]; [discriminate|auto|].
      rewrite Hb. simpl. eauto.
    - unfold Proxy._ip_hash_select.
      assert (H0 : exists x, index (h :: hs) 0 = Ok x) by (simpl; eauto).
      destruct H0 as [x0 Hx0].
      destruct ip as [ip|]; [|rewrite Hx0; simpl; eauto].
      destruct (String.eqb ip ""); [rewrite Hx0; simpl; eauto|].
      destruct (mod_index_total (h :: hs) (Proxy.md5_int env ip)) as [x Hx];
        [discriminate|]. rewrite Hx. simpl. eauto.
    - simpl. eauto. }
  split; [split|].
  - intros H. destruct (Proxy.get_healthy_backends t) as [|h hs] eqn:Eh; [reflexivity|].
    exfalso.
    destruct (Proxy.rule t) eqn:Er;
      try (destruct Hsome as [b Hb]; [discriminate | intros; discriminate | congruence]).
    (* weighted: the answer, when there is one, is never None *)
    unfold Proxy._select_backend in H. rewrite Eh, Er in H.
    destruct (Proxy.sticky_lookup env t (h :: hs) sid); [discriminate|].
    destruct (Proxy._weighted_select env (h :: hs)); discriminate.
  - intros H. unfold Proxy._select_backend. rewrite H. reflexivity.
  - intros Hne Hw. destruct (Hsome Hne Hw) as [b Hb]. exists b.
    split; [exact Hb|]. apply (select_backend_healthy env t ip sid b Hb).
Qed.

Lemma select_backend_answers_witness :
  exists b,
    Proxy._select_backend Scenario.select_env Scenario.health_target None None
    = Ok (Some b)
    /\ Proxy.status b = Proxy.HEALTHY.
Proof.
  destruct (select_backend_answers Scenario.select_env Scenario.health_target None None)
    as [_ H].
  destruct H as (b & Hb & _ & Hs); [discriminate | discriminate |].
  exists b. split; assumption.
Defined.

(** Round robin on the shared counter: counter value [k] picks the backend
    at position [k mod n]; the choice repeats with period [n], and [n]
    consecutive counter values reach every backend of the list. *)
Theorem round_robin_visits_every_backend (bs : list Proxy.Backend) k clk rnd md5 store :
  bs <> [] ->
  let n := Z.of_nat (length bs) in
  let pick idx :=
    Proxy._round_robin_select (Proxy.mkSelectEnv (Some idx) clk rnd md5 store) bs in
  (forall b, bs !! Z.to_nat (k mod n) = Some b -> pick k = Ok b)
  /\ pick (k + n) = pick k
  /\ (forall (j : nat) b, bs !! j = Some b ->
        exists i, 0 <= i < n /\ pick (k + i) = Ok b).
Proof.
  intros Hbs n pick.
  assert (Hn : 0 < n) by (subst n; destruct bs; [congruence | simpl; lia]).
  split; [|split].
  - intros b Hb. apply round_robin_with_store. exact Hb.
  - subst pick. unfold Proxy._round_robin_select. simpl. fold n.
    unfold mod_. destruct (n =? 0); [reflexivity|].
    replace ((k + n) mod n) with (k mod n); [reflexivity|].
    rewrite <- (Z.mul_1_l n) at 2. rewrite Z.mod_add by lia. reflexivity.
  - intros j b Hb.
    pose proof (lookup_lt_Some _ _ _ Hb) as Hj.
    exists ((Z.of_nat j - k) mod n). split; [apply Z.mod_pos_bound; exact Hn|].
    apply round_robin_with_store. fold n.
    rewrite Z.add_mod_idemp_r by lia.
    replace (k + (Z.of_nat j - k)) with (Z.of_nat j) by lia.
    rewrite Z.mod_small by (subst n; lia).
    rewrite Nat2Z.id. exact Hb.
Qed.

Lemma round_robin_visits_every_backend_witness :
  exists i,
    0 <= i < 2
    /\ Proxy._round_robin_select
         (Proxy.mkSelectEnv (Some (41 + i)) 0 (fun lo _ => lo) (fun _ => 0) ∅)
         [Scenario.seasoned_backend; Scenario.fresh_backend]
       = Ok Scenario.fresh_backend.
Proof.
  destruct (round_robin_visits_every_backend
              [Scenario.seasoned_backend; Scenario.fresh_backend]
              41 0 (fun lo _ => lo) (fun _ => 0) ∅) as (_ & _ & H); [discriminate|].
  exact (H 1%nat Scenario.fresh_backend eq_refl).
Defined.

Lemma sum_weights_app (xs ys : list Proxy.Backend) :
  Proxy.sum_weights (xs ++ ys) = Proxy.sum_weights xs + Proxy.sum_weights ys.
Proof.
  induction xs as [|x xs IH]; simpl; [reflexivity|].
  unfold Proxy.sum_weights in *. simpl. rewrite IH. lia.
Qed.

(** The loop of the weighted rule stops at the backend whose cumulative
    weight interval holds the drawn number. *)
Lemma weighted_loop_interval (bs : list Proxy.Backend) (r : Z) :
  Forall (fun b => 0 <= Proxy.weight b) bs ->
  1 <= r <= Proxy.sum_weights bs ->
  exists pre b post,
    bs = pre ++ b :: post
    /\ Proxy.weighted_loop r bs = Some b
    /\ Proxy.sum_weights pre < r <= Proxy.sum_weights pre + Proxy.weight b.
Proof.
  intros Hw. revert r. induction Hw as [|x bs Hx Hbs IH]; intros r Hr.
  - unfold Proxy.sum_weights in Hr. simpl in Hr. lia.
  - simpl. destruct (r - Proxy.weight x <=? 0) eqn:E.
    + apply Z.leb_le in E. exists [], x, bs.
      unfold Proxy.sum_weights. simpl. repeat split; lia.
    + apply Z.leb_gt in E.
      destruct (IH (r - Proxy.weight x)) as (pre & b & post & -> & Hl & Hi).
      { change (Proxy.sum_weights (x :: bs))
          with (Proxy.weight x + Proxy.sum_weights bs) in Hr. lia. }
      exists (x :: pre), b, post. split; [reflexivity|]. split; [exact Hl|].
      change (Proxy.sum_weights (x :: pre))
        with (Proxy.weight x + Proxy.sum_weights pre). lia.
Qed.

(** Weighted selection: with weights that are not negative and a positive
    total, a draw [r] of [randint(1, total)] selects the backend whose
    interval of cumulative weights contains [r]; a backend is therefore hit
    by exactly [weight] of the [total] possible draws, and one of weight 0
    by none. *)
Theorem weighted_select_by_cumulative_weight env (bs : list Proxy.Backend) :
  Forall (fun b => 0 <= Proxy.weight b) bs ->
  0 < Proxy.sum_weights bs ->
  1 <= Proxy.randint env 1 (Proxy.sum_weights bs) <= Proxy.sum_weights bs ->
  exists pre b post,
    bs = pre ++ b :: post
    /\ Proxy._weighted_select env bs = Ok b
    /\ Proxy.sum_weights pre < Proxy.randint env 1 (Proxy.sum_weights bs)
       <= Proxy.sum_weights pre + Proxy.weight b
    /\ 0 < Proxy.weight b.
Proof.
  intros Hw Htotal Hr.
  destruct (weighted_loop_interval bs _ Hw Hr) as (pre & b & post & Hbs & Hl & Hi).
  exists pre, b, post. split; [exact Hbs|]. split; [|split; [exact Hi | lia]].
  unfold Proxy._weighted_select.
  destruct (_ =? 0) eqn:E0; [apply Z.eqb_eq in E0; lia|].
  destruct (_ <? 1) eqn:E1; [apply Z.ltb_lt in E1; lia|].
  rewrite Hl. reflexivity.
Qed.

Lemma weighted_select_by_cumulative_weight_witness :
  Proxy._weighted_select
    (Proxy.mkSelectEnv None 0 (fun _ _ => 4) (fun _ => 0) ∅) Scenario.weighted_pool
  = Ok (Scenario.weighted_backend "c" 2).
Proof.
  destruct (weighted_select_by_cumulative_weight
              (Proxy.mkSelectEnv None 0 (fun _ _ => 4) (fun _ => 0) ∅)
              Scenario.weighted_pool)
    as (pre & b & post & Hbs & Hsel & _ & _).
  - repeat constructor; discriminate.
  - reflexivity.
  - split; discriminate.
  - rewrite Hsel. vm_compute in Hsel. symmetry. exact Hsel.
Defined.

Lemma fold_min_least {A} (key : A -> Z) (l : list A) (x : A) :
  let m := fold_left (fun best y => if key y <? key best then y else best) l x in
  key m <= key x /\ Forall (fun y => key m <= key y) l.
Proof.
  revert x. induction l as [|y l IH]; intros x; simpl.
  - split; [lia | constructor].
  - destruct (key y <? key x) eqn:E.
    + apply Z.ltb_lt in E. destruct (IH y) as [H1 H2].
      split; [lia|]. constructor; assumption.
    + apply Z.ltb_ge in E. destruct (IH x) as [H1 H2].
      split; [exact H1|]. constructor; [lia | exact H2].
Qed.

Lemma fold_max_greatest {A} (key : A -> Q) (l : list A) (x : A) :
  let m := fold_left (fun best y => if Qltb (key best) (key y) then y else best) l x in
  (key x <= key m)%Q /\ Forall (fun y => (key y <= key m)%Q) l.
Proof.
  revert x. induction l as [|y l IH]; intros x; simpl.
  - split; [apply Qle_refl | constructor].
  - destruct (Qltb (key x) (key y)) eqn:E.
    + apply Qltb_lt in E. destruct (IH y) as [H1 H2].
      split; [eapply Qle_trans; [apply Qlt_le_weak; exact E | exact H1]|].
      constructor; assumption.
    + apply Qltb_ge in E. destruct (IH x) as [H1 H2].
      split; [exact H1|]. constructor; [eapply Qle_trans; eauto | exact H2].
Qed.

(** [least_connections] returns a healthy backend with the smallest
    number of current connections. *)
Theorem least_connections_is_minimal env (t : Proxy.ProxyTarget) ip sid b :
  Proxy.rule t = Proxy.LEAST_CONNECTIONS ->
  Proxy.sticky_lookup env t (Proxy.get_healthy_backends t) sid = None ->
  Proxy._select_backend env t ip sid = Ok (Some b) ->
  forall b', In b' (Proxy.backends t) -> Proxy.status b' = Proxy.HEALTHY ->
             Proxy.current_connections b <= Proxy.current_connections b'.
Proof.
  intros Hrule Hsticky Hsel b' Hin Hst.
  assert (Hh : In b' (Proxy.get_healthy_backends t))
    by (apply healthy_backends_spec; auto).
  unfold Proxy._select_backend in Hsel.
  destruct (Proxy.get_healthy_backends t) as [|h hs]; [discriminate|].
  rewrite Hsticky, Hrule in Hsel. simpl in Hsel. injection Hsel as <-.
  destruct (fold_min_least Proxy.current_connections hs h) as [H1 H2].
  destruct Hh as [<-|Hh]; [exact H1|].
  rewrite Forall_forall in H2. apply H2. apply list_elem_of_In. exact Hh.
Qed.

Lemma least_connections_is_minimal_witness :
  Proxy._select_backend Scenario.select_env Scenario.busy_target None None
  = Ok (Some (Scenario.connected_backend "b" 2))
  /\ Proxy.current_connections (Scenario.connected_backend "b" 2)
     <= Proxy.current_connections (Scenario.connected_backend "a" 5).
Proof.
  split; [reflexivity|].
  apply (least_connections_is_minimal Scenario.select_env Scenario.busy_target
           None None (Scenario.connected_backend "b" 2));
    [reflexivity | reflexivity | reflexivity | simpl; auto | reflexivity].
Defined.

(** [health_based] returns a healthy backend whose [health_ratio] no other
    healthy backend exceeds. *)
Theorem health_based_is_argmax env (t : Proxy.ProxyTarget) ip sid b :
  Proxy.rule t = Proxy.HEALTH_BASED ->
  Proxy.sticky_lookup env t (Proxy.get_healthy_backends t) sid = None ->
  Proxy._select_backend env t ip sid = Ok (Some b) ->
  forall b', In b' (Proxy.backends t) -> Proxy.status b' = Proxy.HEALTHY ->
             (Proxy.health_ratio b' <= Proxy.health_ratio b)%Q.
Proof.
  intros Hrule Hsticky Hsel b' Hin Hst.
  assert (Hh : In b' (Proxy.get_healthy_backends t))
    by (apply healthy_backends_spec; auto).
  unfold Proxy._select_backend in Hsel.
  destruct (Proxy.get_healthy_backends t) as [|h hs]; [discriminate|].
  rewrite Hsticky, Hrule in Hsel. simpl in Hsel. injection Hsel as <-.
  destruct (fold_max_greatest Proxy.health_ratio hs h) as [H1 H2].
  destruct Hh as [<-|Hh]; [exact H1|].
  rewrite Forall_forall in H2. apply H2. apply list_elem_of_In. exact Hh.
Qed.

Lemma health_based_is_argmax_witness :
  (Proxy.health_ratio Scenario.seasoned_backend
   <= Proxy.health_ratio Scenario.fresh_backend)%Q.
Proof.
  apply (health_based_is_argmax Scenario.select_env Scenario.health_target
           None None Scenario.fresh_backend);
    [reflexivity | reflexivity | reflexivity | simpl; auto | reflexivity].
Defined.

(** ** proxy_manager.py: circuit breaker and registration *)

Lemma breaker_inv_step th cb c :
  Proxy.breaker_inv th cb -> Proxy.breaker_inv th (Proxy.breaker_call cb c).
Proof.
  intros Hinv. pose proof Hinv as (Hth & H0 & Hopen & Hclosed).
  destruct c as [|now|now]; simpl.
  - unfold Proxy.call_succeeded, Proxy.breaker_inv. simpl. repeat split; auto; lia.
  - unfold Proxy.call_failed, Proxy.breaker_inv. simpl. rewrite Hth.
    destruct (th <=? Proxy.failure_count cb + 1) eqn:E.
    + apply Z.leb_le in E. repeat split; auto; try lia. discriminate.
    + apply Z.leb_gt in E. repeat split; auto; try lia.
      destruct Hopen as [Hc|Hc]; [auto | lia].
  - unfold Proxy.can_attempt.
    destruct (Proxy.breaker_state cb) eqn:Es; simpl; [exact Hinv| |exact Hinv].
    destruct (Proxy.last_failure_time cb) as [last|]; [|exact Hinv].
    destruct (_ <? _); simpl; [|exact Hinv].
    unfold Proxy.breaker_inv. simpl.
    destruct Hopen as [Hc|Hc]; [discriminate|].
    repeat split; auto. discriminate.
Qed.

(** Whatever calls were made on a breaker since it was built, its state is
    tied to the failures counted since the last success: with a threshold
    of at least 1 it is closed exactly when fewer than [threshold] failures
    were counted; a success closes it and clears the count; and when it is
    open or half-open, one more failure (a failed trial) leaves it open. *)
Theorem breaker_state_follows_failures th to (calls : list Proxy.BreakerCall) :
  let cb := Proxy.breaker_calls (Proxy.new_breaker th to) calls in
  0 <= Proxy.failure_count cb
  /\ (1 <= th ->
      (Proxy.breaker_state cb = Proxy.Closed <-> Proxy.failure_count cb < th))
  /\ (Proxy.breaker_state (Proxy.call_succeeded cb) = Proxy.Closed
      /\ Proxy.failure_count (Proxy.call_succeeded cb) = 0)
  /\ (Proxy.breaker_state cb <> Proxy.Closed ->
      forall now, Proxy.breaker_state (Proxy.call_failed cb now) = Proxy.Open).
Proof.
  intros cb.
  assert (Hinv : Proxy.breaker_inv th cb).
  { subst cb. unfold Proxy.breaker_calls.
    assert (H0 : Proxy.breaker_inv th (Proxy.new_breaker th to)).
    { unfold Proxy.breaker_inv. simpl. repeat split; auto; lia. }
    revert H0. generalize (Proxy.new_breaker th to).
    induction calls as [|c calls IH]; intros b Hb; simpl; [exact Hb|].
    apply IH, breaker_inv_step, Hb. }
  destruct Hinv as (Hth & H0 & Hopen & Hclosed).
  split; [exact H0|]. split; [|split; [split; reflexivity|]].
  - intros Hpos. split; [auto|]. intros Hlt.
    destruct Hopen as [Hc|Hc]; [exact Hc | lia].
  - intros Hne now. unfold Proxy.call_failed. simpl. rewrite Hth.
    destruct Hopen as [Hc|Hc]; [congruence|].
    destruct (th <=? Proxy.failure_count cb + 1) eqn:E; [reflexivity|].
    apply Z.leb_gt in E. lia.
Qed.

Lemma breaker_state_follows_failures_witness :
  let cb := Proxy.breaker_calls (Proxy.new_breaker 3 10)
              [Proxy.Failed 1; Proxy.Failed 2; Proxy.Succeeded; Proxy.Failed 3;
               Proxy.Failed 4; Proxy.Failed 5; Proxy.Attempt 6] in
  Proxy.breaker_state cb = Proxy.Open
  /\ ~ Proxy.failure_count cb < 3.
Proof.
  intros cb.
  destruct (breaker_state_follows_failures 3 10
              [Proxy.Failed 1; Proxy.Failed 2; Proxy.Succeeded; Proxy.Failed 3;
               Proxy.Failed 4; Proxy.Failed 5; Proxy.Attempt 6]) as (_ & H & _).
  fold cb in H. split; [reflexivity|].
  intros Hlt. apply H in Hlt; [discriminate | lia].
Defined.

Lemma failures_in_a_row (cb : Proxy.CircuitBreaker) (times : list Z) :
  let cb' := fold_left Proxy.call_failed times cb in
  Proxy.threshold cb' = Proxy.threshold cb
  /\ Proxy.timeout cb' = Proxy.timeout cb
  /\ Proxy.failure_count cb' = Proxy.failure_count cb + Z.of_nat (length times).
Proof.
  revert cb. induction times as [|t times IH]; intros cb.
  - simpl. repeat split; lia.
  - cbn [fold_left]. destruct (IH (Proxy.call_failed cb t)) as (H1 & H2 & H3).
    cbv zeta. rewrite H1, H2, H3.
    repeat split; try reflexivity.
    cbn [length]. rewrite Nat2Z.inj_succ. simpl Proxy.failure_count. lia.
Qed.

Lemma failures_below_threshold (ts : list Z) (c : Proxy.CircuitBreaker) :
  Proxy.breaker_state c = Proxy.Closed ->
  Proxy.failure_count c + Z.of_nat (length ts) < Proxy.threshold c ->
  Proxy.breaker_state (fold_left Proxy.call_failed ts c) = Proxy.Closed.
Proof.
  revert c. induction ts as [|x ts IH]; intros c Hs Hlt; [exact Hs|].
  cbn [fold_left]. cbn [length] in Hlt. rewrite Nat2Z.inj_succ in Hlt.
  apply IH.
  - unfold Proxy.call_failed. simpl.
    destruct (Proxy.threshold c <=? Proxy.failure_count c + 1) eqn:E; [|exact Hs].
    apply Z.leb_le in E. lia.
  - simpl. lia.
Qed.

(** A closed breaker with a clear count that sees [threshold] failures in
    a row is open after the last of them, and stays closed with fewer.
    While open it refuses every attempt made up to [timeout] seconds after
    the last failure; the first attempt later than that is let through and
    puts the breaker in half-open, from where a success closes it. *)
Theorem breaker_opens_and_recovers (cb : Proxy.CircuitBreaker) (times : list Z) t_last :
  Proxy.breaker_state cb = Proxy.Closed ->
  Proxy.failure_count cb = 0 ->
  1 <= Proxy.threshold cb ->
  let early := fold_left Proxy.call_failed times cb in
  let tripped := Proxy.call_failed early t_last in
  (Z.of_nat (length times) < Proxy.threshold cb - 1 ->
     Proxy.breaker_state tripped = Proxy.Closed
     /\ forall now, (Proxy.can_attempt tripped now).1 = true)
  /\ (Z.of_nat (length times) = Proxy.threshold cb - 1 ->
      Proxy.breaker_state early = Proxy.Closed
      /\ Proxy.breaker_state tripped = Proxy.Open
      /\ (forall now, now - t_last <= Proxy.timeout cb * usec ->
            Proxy.can_attempt tripped now = (false, tripped))
      /\ (forall now, Proxy.timeout cb * usec < now - t_last ->
            (Proxy.can_attempt tripped now).1 = true
            /\ Proxy.breaker_state (Proxy.can_attempt tripped now).2 = Proxy.HalfOpen
            /\ Proxy.breaker_state
                 (Proxy.call_succeeded (Proxy.can_attempt tripped now).2)
               = Proxy.Closed)).
Proof.
  intros Hclosed Hzero Hth early tripped.
  destruct (failures_in_a_row cb times) as (H1 & H2 & H3). fold early in H1, H2, H3.
  assert (Hearly : Z.of_nat (length times) < Proxy.threshold cb ->
                   Proxy.breaker_state early = Proxy.Closed).
  { intros Hlen. apply failures_below_threshold; [exact Hclosed | lia]. }
  split.
  - intros Hlen.
    assert (Hs : Proxy.breaker_state tripped = Proxy.Closed).
    { subst tripped. unfold Proxy.call_failed. simpl. rewrite H1, H3, Hzero.
      destruct (_ <=? _) eqn:E; [apply Z.leb_le in E; lia|].
      apply Hearly. lia. }
    split; [exact Hs|]. intros now. unfold Proxy.can_attempt. rewrite Hs. reflexivity.
  - intros Hlen.
    assert (He : Proxy.breaker_state early = Proxy.Closed) by (apply Hearly; lia).
    assert (Hs : Proxy.breaker_state tripped = Proxy.Open).
    { subst tripped. unfold Proxy.call_failed. simpl. rewrite H1, H3, Hzero.
      destruct (_ <=? _) eqn:E; [reflexivity|]. apply Z.leb_gt in E. lia. }
    assert (Hto : Proxy.timeout tripped = Proxy.timeout cb) by (subst tripped; exact H2).
    assert (Hlast : Proxy.last_failure_time tripped = Some t_last) by reflexivity.
    split; [exact He|]. split; [exact Hs|]. split.
    + intros now Hnow. unfold Proxy.can_attempt. rewrite Hs, Hlast, Hto.
      destruct (_ <? _) eqn:E; [apply Z.ltb_lt in E; lia | reflexivity].
    + intros now Hnow. unfold Proxy.can_attempt. rewrite Hs, Hlast, Hto.
      destruct (_ <? _) eqn:E; [|apply Z.ltb_ge in E; lia].
      simpl. auto.
Qed.

Lemma breaker_opens_and_recovers_witness :
  let tripped := fold_left Proxy.call_failed [1 * usec; 2 * usec; 3 * usec]
                   (Proxy.new_breaker 3 10) in
  Proxy.breaker_state tripped = Proxy.Open
  /\ Proxy.can_attempt tripped (13 * usec) = (false, tripped)
  /\ (Proxy.can_attempt tripped (13 * usec + 1)).1 = true.
Proof.
  intros tripped.
  destruct (breaker_opens_and_recovers (Proxy.new_breaker 3 10)
              [1 * usec; 2 * usec] (3 * usec)) as [_ H];
    [reflexivity | reflexivity | simpl; lia |].
  destruct H as (_ & Hopen & Hrefuse & Hpass); [reflexivity|].
  split; [exact Hopen|]. split.
  - apply Hrefuse. vm_compute. discriminate.
  - apply Hpass. reflexivity.
Defined.

Lemma set_backends_same (t : Proxy.ProxyTarget) bs :
  Proxy.set_backends (Proxy.set_backends t bs) (Proxy.backends t) = t.
Proof. destruct t; reflexivity. Qed.

Lemma filter_keeps_all {A} (f : A -> bool) (l : list A) :
  Forall (fun x => f x = true) l -> List.filter f l = l.
Proof.
  induction 1 as [|x l Hx _ IH]; simpl; [reflexivity|].
  rewrite Hx, IH. reflexivity.
Qed.

(** Adding a backend whose url is new to the target and removing it again
    gives back the targets as they were; the breaker made for the backend
    by [add_backend] stays in the table. *)
Theorem add_then_remove_backend (m : Proxy.ProxyManager) tn (t : Proxy.ProxyTarget)
    (b : Proxy.Backend) :
  Proxy.targets m !! tn = Some t ->
  Forall (fun b' => Proxy.url b' <> Proxy.url b) (Proxy.backends t) ->
  let m' := Proxy.remove_backend (Proxy.add_backend m tn b) tn (Proxy.url b) in
  Proxy.targets m' = Proxy.targets m
  /\ Proxy.circuit_breakers m' !! Proxy.breaker_key tn b = Some (Proxy.new_breaker 5 60).
Proof.
  intros Ht Hfresh m'. subst m'.
  unfold Proxy.add_backend. rewrite Ht.
  unfold Proxy.remove_backend. cbn [Proxy.targets Proxy.circuit_breakers].
  rewrite lookup_insert_eq. cbn [Proxy.targets Proxy.circuit_breakers].
  split; [|apply lookup_insert_eq].
  rewrite insert_insert_eq.
  replace (List.filter _ _) with (Proxy.backends t).
  - rewrite set_backends_same. apply insert_id. exact Ht.
  - cbn [Proxy.backends Proxy.set_backends].
    rewrite List.filter_app. cbn [List.filter]. rewrite String.eqb_refl.
    cbn [negb]. rewrite app_nil_r. symmetry. apply filter_keeps_all.
    eapply Forall_impl; [exact Hfresh|]. intros x Hx.
    apply negb_true_iff, String.eqb_neq. exact Hx.
Qed.

Lemma add_then_remove_backend_witness :
  let m' := Proxy.remove_backend
              (Proxy.add_backend Scenario.web_manager "web" Scenario.fresh_backend)
              "web" "http://10.0.0.7:8080" in
  Proxy.targets m' = Proxy.targets Scenario.web_manager
  /\ Proxy.circuit_breakers m' !! "web:10.0.0.7:8080" = Some (Proxy.new_breaker 5 60).
Proof.
  apply (add_then_remove_backend Scenario.web_manager "web" Scenario.web_target
           Scenario.fresh_backend); [reflexivity|].
  repeat constructor. discriminate.
Defined.

Lemma fold_insert_keeps {A} (keyf : Proxy.Backend -> string) (v : A) bs
    (m : gmap string A) (k : string) :
  m !! k = Some v ->
  fold_left (fun cbs b => <[keyf b := v]> cbs) bs m !! k = Some v.
Proof.
  revert m. induction bs as [|b bs IH]; intros m Hm; simpl; [exact Hm|].
  apply IH. destruct (decide (keyf b = k)) as [<-|Hne].
  - apply lookup_insert_eq.
  - rewrite lookup_insert_ne by exact Hne. exact Hm.
Qed.

Lemma fold_insert_member {A} (keyf : Proxy.Backend -> string) (v : A) bs
    (m : gmap string A) (b : Proxy.Backend) :
  In b bs ->
  fold_left (fun cbs b => <[keyf b := v]> cbs) bs m !! keyf b = Some v.
Proof.
  revert m. induction bs as [|x bs IH]; intros m; simpl; [tauto|].
  intros [<-|Hin].
  - apply fold_insert_keeps, lookup_insert_eq.
  - apply IH, Hin.
Qed.

(** [register_target] gives every backend of the target a new closed
    breaker with the target's threshold and timeout, replacing the one the
    table may hold under the same key.  A backend that comes in through
    [add_backend] gets a breaker with the defaults 5 and 60, whatever the
    target is configured with; on an unknown target [add_backend] changes
    nothing. *)
Theorem breakers_at_registration (m : Proxy.ProxyManager) (t : Proxy.ProxyTarget)
    (b : Proxy.Backend) tn :
  (In b (Proxy.backends t) ->
     Proxy.circuit_breakers (Proxy.register_target m t)
       !! Proxy.breaker_key (Proxy.name t) b
     = Some (Proxy.new_breaker (Proxy.circuit_breaker_threshold t)
               (Proxy.circuit_breaker_timeout t)))
  /\ (Proxy.targets m !! tn = Some t ->
      Proxy.circuit_breakers (Proxy.add_backend m tn b) !! Proxy.breaker_key tn b
      = Some (Proxy.new_breaker 5 60))
  /\ (Proxy.targets m !! tn = None -> Proxy.add_backend m tn b = m).
Proof.
  split; [|split].
  - intros Hin. unfold Proxy.register_target. simpl.
    apply (fold_insert_member (Proxy.breaker_key (Proxy.name t))). exact Hin.
  - intros Ht. unfold Proxy.add_backend. rewrite Ht. simpl. apply lookup_insert_eq.
  - intros Ht. unfold Proxy.add_backend. rewrite Ht. reflexivity.
Qed.

Lemma breakers_at_registration_witness :
  Proxy.circuit_breakers Scenario.web_manager !! "web:10.0.0.5:8080"
  = Some (Proxy.new_breaker 5 60).
Proof.
  destruct (breakers_at_registration (Proxy.mkManager ∅ ∅) Scenario.web_target
              Scenario.web_backend "web") as [H _].
  apply H. simpl. auto.
Defined.

(** ** auto_scaler.py: history, decision, events *)

Lemma last_slice_drop {A} (l : list A) (c : Z) :
  1 <= c -> last_slice l c = drop (length l - Z.to_nat c) l.
Proof.
  intros Hc. unfold last_slice.
  destruct (- c <? 0) eqn:E; [|apply Z.ltb_ge in E; lia].
  f_equal. lia.
Qed.

Lemma last_slice_zero {A} (l : list A) : last_slice l 0 = l.
Proof.
  unfold last_slice. simpl. replace (Z.min 0 _) with 0 by lia. reflexivity.
Qed.

Lemma last_slice_length_le {A} (l : list A) (c : Z) :
  (length (last_slice l c) <= length l)%nat.
Proof. unfold last_slice. rewrite length_drop. lia. Qed.

(** [_store_metrics] appends the sample to the history of its service and
    leaves the other histories alone.  With a retention of at least 30
    seconds the history is cut to its last [retention // 30] samples; with
    a retention between 0 and 29 seconds that bound is 0 and nothing is
    ever cut. *)
Theorem store_metrics_keeps_last_samples (s : Scaler.AutoScaler) service m :
  let old := default [] (Scaler.metrics_history s !! service) in
  let s' := Scaler._store_metrics s service m in
  (forall other, other <> service ->
     Scaler.metrics_history s' !! other = Scaler.metrics_history s !! other)
  /\ (1 <= Scaler.max_history s ->
      exists h,
        Scaler.metrics_history s' !! service = Some h
        /\ h = drop (length old + 1 - Z.to_nat (Scaler.max_history s)) (old ++ [m])
        /\ List.last h m = m
        /\ Z.of_nat (length h) = Z.min (Z.of_nat (length old) + 1) (Scaler.max_history s))
  /\ (Scaler.max_history s = 0 ->
      Scaler.metrics_history s' !! service = Some (old ++ [m])).
Proof.
  intros old s'. subst s'. unfold Scaler._store_metrics. fold old.
  cbn [Scaler.metrics_history Scaler.with_history].
  split; [|split].
  - intros other Hne. apply lookup_insert_ne. congruence.
  - intros Hmax. rewrite lookup_insert_eq. eexists. split; [reflexivity|].
    assert (Hlen : length (old ++ [m]) = (length old + 1)%nat)
      by (rewrite length_app; reflexivity).
    assert (Hdrop : (if Scaler.max_history s <? Z.of_nat (length (old ++ [m]))
                     then last_slice (old ++ [m]) (Scaler.max_history s)
                     else old ++ [m])
                    = drop (length old + 1 - Z.to_nat (Scaler.max_history s)) (old ++ [m])).
    { destruct (_ <? _) eqn:E.
      - rewrite last_slice_drop by exact Hmax. rewrite Hlen. reflexivity.
      - apply Z.ltb_ge in E. rewrite Hlen in E.
        replace (length old + 1 - Z.to_nat (Scaler.max_history s))%nat with 0%nat by lia.
        reflexivity. }
    rewrite Hdrop. split; [reflexivity|]. split.
    + assert (Hd : (length old + 1 - Z.to_nat (Scaler.max_history s) <= length old)%nat)
        by lia.
      rewrite drop_app_le by exact Hd. rewrite last_last. reflexivity.
    + rewrite length_drop, Hlen. lia.
  - intros Hmax. rewrite lookup_insert_eq, Hmax. f_equal.
    destruct (0 <? _); [apply last_slice_zero | reflexivity].
Qed.

Lemma store_metrics_keeps_last_samples_witness :
  let s := Scaler.mkScaler
             {["app" := [Scenario.cpu_sample 1 0; Scenario.cpu_sample 2 30]]}
             ∅ ∅ ∅ ∅ false 60 true 10 in
  Scaler.metrics_history
    (Scaler._store_metrics s "app" (Scenario.cpu_sample 3 60)) !! "app"
  = Some [Scenario.cpu_sample 2 30; Scenario.cpu_sample 3 60].
Proof.
  intros s.
  destruct (store_metrics_keeps_last_samples s "app" (Scenario.cpu_sample 3 60))
    as (_ & H & _).
  destruct H as (h & Hh & Hdrop & _); [vm_compute; discriminate|].
  rewrite Hh, Hdrop. reflexivity.
Defined.

(** [_cleanup_old_metrics] keeps, in their order, exactly the samples
    stamped after [now - metrics_retention], and removes the entry of a
    service none of whose samples is that recent: no history left behind is
    empty. *)
Theorem cleanup_keeps_recent_samples (s : Scaler.AutoScaler) now service :
  let cutoff := now - Scaler.metrics_retention s * usec in
  let recent :=
    List.filter (fun m => cutoff <? Scaler.timestamp m)
      (default [] (Scaler.metrics_history s !! service)) in
  match Scaler.metrics_history (Scaler._cleanup_old_metrics s now) !! service with
  | Some h => h = recent /\ h <> []
              /\ Forall (fun m => cutoff < Scaler.timestamp m) h
  | None => recent = []
  end.
Proof.
  intros cutoff recent. subst recent.
  unfold Scaler._cleanup_old_metrics. fold cutoff.
  cbn [Scaler.metrics_history Scaler.with_history].
  rewrite lookup_omap.
  destruct (Scaler.metrics_history s !! service) as [h|]; simpl; [|reflexivity].
  destruct (List.filter _ h) as [|x kept] eqn:E; simpl; [reflexivity|].
  split; [reflexivity|]. split; [discriminate|].
  rewrite <- E. apply Forall_forall. intros m Hm.
  apply list_elem_of_In, filter_In in Hm as [_ Hm]. apply Z.ltb_lt. exact Hm.
Qed.

Lemma bind_ok {A B} (r : result A) (k : A -> result B) (b : B) :
  bind r k = Ok b -> exists a, r = Ok a /\ k a = Ok b.
Proof. destruct r as [a|e]; simpl; [eauto | discriminate]. Qed.

(** What a decision other than [NONE] tells about the scaler. *)
Lemma decision_replica_bounds rt (s : Scaler.AutoScaler) service policy now d :
  Scaler._make_scaling_decision rt s service policy now = Ok d ->
  let replicas := Scaler._get_current_replicas rt s service in
  (d = Scaler.UP -> replicas < Scaler.max_replicas policy)
  /\ (d = Scaler.DOWN -> Scaler.min_replicas policy < replicas)
  /\ (d <> Scaler.NONE ->
      Scaler._is_cooldown_expired s service policy now = true
      /\ Scaler.evaluation_periods policy
         <= Z.of_nat (length (default [] (Scaler.metrics_history s !! service)))).
Proof.
  intros Hd replicas. unfold Scaler._make_scaling_decision in Hd.
  destruct (Scaler._is_cooldown_expired s service policy now) eqn:Ecool; simpl in Hd;
    [|injection Hd as <-; repeat split; congruence].
  destruct (_ <? Scaler.evaluation_periods policy) eqn:Elen;
    [injection Hd as <-; repeat split; congruence|].
  apply Z.ltb_ge in Elen.
  assert (Hhist : Scaler.evaluation_periods policy
                  <= Z.of_nat (length (default [] (Scaler.metrics_history s !! service)))).
  { unfold Scaler._get_recent_metrics in Elen.
    destruct (Scaler.metrics_history s !! service) as [h|]; simpl in *; [|exact Elen].
    pose proof (last_slice_length_le h (Scaler.evaluation_periods policy)). lia. }
  change (@mbind result _) with (fun A B (k : A -> result B) r => bind r k) in Hd.
  cbv beta in Hd.
  apply bind_ok in Hd as (avg_cpu & _ & Hd).
  apply bind_ok in Hd as (avg_mem & _ & Hd).
  apply bind_ok in Hd as (avg_net & _ & Hd).
  apply bind_ok in Hd as (blended & _ & Hd).
  fold replicas in Hd.
  destruct (_ || _).
  - destruct (replicas <? Scaler.max_replicas policy) eqn:E; injection Hd as <-.
    + apply Z.ltb_lt in E. repeat split; congruence.
    + repeat split; congruence.
  - destruct (_ && _).
    + destruct (Scaler.min_replicas policy <? replicas) eqn:E; injection Hd as <-.
      * apply Z.ltb_lt in E. repeat split; congruence.
      * repeat split; congruence.
    + injection Hd as <-. repeat split; congruence.
Qed.

(** A decision to scale up is only taken below [max_replicas], one to
    scale down only above [min_replicas], and either of them only once the
    cooldown has expired and the history holds at least
    [evaluation_periods] samples. *)
Theorem decision_respects_replica_limits rt (s : Scaler.AutoScaler) service policy now d :
  Scaler._make_scaling_decision rt s service policy now = Ok d ->
  d <> Scaler.NONE ->
  let replicas := Scaler._get_current_replicas rt s service in
  (d = Scaler.UP -> replicas < Scaler.max_replicas policy)
  /\ (d = Scaler.DOWN -> Scaler.min_replicas policy < replicas)
  /\ Scaler._is_cooldown_expired s service policy now = true
  /\ Scaler.evaluation_periods policy
     <= Z.of_nat (length (default [] (Scaler.metrics_history s !! service))).
Proof.
  intros Hd Hne replicas.
  destruct (decision_replica_bounds rt s service policy now d Hd) as (H1 & H2 & H3).
  destruct (H3 Hne) as [H4 H5]. auto.
Qed.

Lemma decision_respects_replica_limits_witness :
  Scaler._get_current_replicas Scenario.app_runtime Scenario.app_scaler "app"
  < Scaler.max_replicas Scenario.app_policy.
Proof.
  destruct (decision_respects_replica_limits Scenario.app_runtime Scenario.app_scaler
              "app" Scenario.app_policy (90 * usec) Scaler.UP)
    as (H & _); [reflexivity | discriminate |].
  apply H. reflexivity.
Defined.

Lemma evaluation_step rt (s : Scaler.AutoScaler) service policy now :
  let s' := Scaler.evaluate_policy rt s service policy now in
  let replicas := Scaler._get_current_replicas rt s service in
  (forall other, other <> service ->
     Scaler.current_replicas s' !! other = Scaler.current_replicas s !! other)
  /\ (Scaler.current_replicas s' !! service = Scaler.current_replicas s !! service
      \/ (Scaler.current_replicas s' !! service = Some (replicas + 1)
          /\ replicas + 1 <= Scaler.max_replicas policy)
      \/ (Scaler.current_replicas s' !! service = Some (replicas - 1)
          /\ Scaler.min_replicas policy <= replicas - 1)).
Proof.
  intros s' replicas. subst s'. unfold Scaler.evaluate_policy.
  destruct (Scaler.enabled policy); [|split; auto].
  destruct (Scaler._make_scaling_decision rt s service policy now) as [d|e] eqn:Ed;
    [|split; auto].
  destruct (decision_replica_bounds rt s service policy now d Ed) as (Hup & Hdown & _).
  fold replicas in Hup, Hdown.
  destruct (Scaler.is_NONE d) eqn:En; [split; auto|].
  unfold Scaler._execute_scaling_action, Scaler.new_replicas. fold replicas.
  set (new := match d with
              | Scaler.UP => Z.min (replicas + 1) (Scaler.max_replicas policy)
              | _ => Z.max (replicas - 1) (Scaler.min_replicas policy)
              end).
  destruct (new =? replicas); [split; auto|].
  destruct (Scaler._scale_service rt s service new).
  - cbn [Scaler.current_replicas Scaler.stamp_success].
    assert (Hrec : forall e, Scaler.current_replicas (Scaler._record_scaling_event s e)
                             = Scaler.current_replicas s)
      by (intros e; apply record_event_frame).
    split.
    + intros other Hne. rewrite lookup_insert_ne by congruence. rewrite Hrec. reflexivity.
    + rewrite lookup_insert_eq. right. subst new.
      destruct d; [left | right | discriminate].
      * specialize (Hup eq_refl). split; [f_equal|]; lia.
      * specialize (Hdown eq_refl). split; [f_equal|]; lia.
  - assert (Hrec : forall e, Scaler.current_replicas (Scaler._record_scaling_event s e)
                             = Scaler.current_replicas s)
      by (intros e; apply record_event_frame).
    rewrite Hrec. split; auto.
Qed.

(** One evaluation of a policy moves the replica count of its service by at
    most one step and never touches the count of another service.  A step
    up is only taken to a count of at most [max_replicas] and a step down
    only to a count of at least [min_replicas]: the other bound is not
    looked at.  So a count that lies between [min_replicas] and
    [max_replicas] stays there, while a count below [min_replicas] can be
    stepped up to a count that is still below it, and one above
    [max_replicas] can be stepped down to one still above it. *)
Theorem evaluation_moves_one_step rt (s : Scaler.AutoScaler) service policy now :
  let s' := Scaler.evaluate_policy rt s service policy now in
  let replicas := Scaler._get_current_replicas rt s service in
  (forall other, other <> service ->
     Scaler.current_replicas s' !! other = Scaler.current_replicas s !! other)
  /\ (Scaler.current_replicas s' !! service = Scaler.current_replicas s !! service
      \/ (Scaler.current_replicas s' !! service = Some (replicas + 1)
          /\ replicas + 1 <= Scaler.max_replicas policy)
      \/ (Scaler.current_replicas s' !! service = Some (replicas - 1)
          /\ Scaler.min_replicas policy <= replicas - 1))
  /\ (Scaler.min_replicas policy <= replicas <= Scaler.max_replicas policy ->
      forall r, Scaler.current_replicas s' !! service = Some r ->
                Scaler.min_replicas policy <= r <= Scaler.max_replicas policy)
  /\ (forall r, Scaler.current_replicas s' !! service = Some r ->
                Scaler.current_replicas s' !! service
                <> Scaler.current_replicas s !! service ->
                (replicas + 1 < Scaler.min_replicas policy ->
                 r < Scaler.min_replicas policy)
                /\ (Scaler.max_replicas policy < replicas - 1 ->
                    Scaler.max_replicas policy < r)).
Proof.
  intros s' replicas.
  destruct (evaluation_step rt s service policy now) as [Hother Hstep].
  fold s' replicas in Hother, Hstep.
  split; [exact Hother|]. split; [exact Hstep|].
  assert (Hsame : forall r, Scaler.current_replicas s !! service = Some r ->
                            r = replicas).
  { intros r Hr. subst replicas. unfold Scaler._get_current_replicas.
    rewrite Hr. reflexivity. }
  split.
  - intros Hrange r Hr.
    destruct Hstep as [Hstep|[[Hstep Hle]|[Hstep Hle]]]; rewrite Hstep in Hr.
    + rewrite (Hsame r Hr). exact Hrange.
    + injection Hr as <-. lia.
    + injection Hr as <-. lia.
  - intros r Hr Hchanged.
    destruct Hstep as [Hstep|[[Hstep Hle]|[Hstep Hle]]];
      [congruence | |]; rewrite Hstep in Hr; injection Hr as <-; lia.
Qed.

Lemma evaluation_moves_one_step_witness :
  Scaler.current_replicas
    (Scaler.evaluate_policy Scenario.app_runtime Scenario.app_scaler "app"
       Scenario.app_policy (90 * usec)) !! "app" = Some 2
  /\ 2 <= Scaler.max_replicas Scenario.app_policy.
Proof.
  destruct (evaluation_moves_one_step Scenario.app_runtime Scenario.app_scaler "app"
              Scenario.app_policy (90 * usec)) as [_ [[H|[H|H]] _]].
  - vm_compute in H. discriminate.
  - exact H.
  - vm_compute in H. destruct H as [H _]. discriminate.
Defined.

(** With at least 3 and at most 5 replicas asked for and one replica
    running, an evaluation under load records 2 replicas: the step up is
    taken although its result is below [min_replicas]. *)
Example evaluation_below_minimum :
  Scaler._get_current_replicas Scenario.app_runtime Scenario.app_scaler "app" = 1
  /\ Scaler.min_replicas Scenario.wide_policy = 3
  /\ Scaler.current_replicas
       (Scaler.evaluate_policy Scenario.app_runtime Scenario.app_scaler "app"
          Scenario.wide_policy (90 * usec)) !! "app" = Some 2.
Proof. vm_compute. repeat split; reflexivity. Qed.

(** [_record_scaling_event] puts the event at the head of the service's
    list, which then holds at most 101 events ([ltrim 0 100]), the older
    ones in their order; without a store nothing is recorded. *)
Theorem recorded_events_newest_first (s : Scaler.AutoScaler) (e : Scaler.ScalingEvent) :
  let old := default [] (Scaler.scaling_events s !! Scaler.ev_service_name e) in
  let s' := Scaler._record_scaling_event s e in
  (Scaler.redis s = true ->
     exists l,
       Scaler.scaling_events s' !! Scaler.ev_service_name e = Some (e :: l)
       /\ l = take 100 old
       /\ (length (e :: l) <= 101)%nat)
  /\ (Scaler.redis s = false -> s' = s).
Proof.
  intros old s'. subst s'. unfold Scaler._record_scaling_event. fold old.
  split; intros Hr; rewrite Hr; [|reflexivity].
  exists (take 100 old). cbn [Scaler.scaling_events Scaler.with_events].
  rewrite lookup_insert_eq. split; [reflexivity|]. split; [reflexivity|].
  cbn [length]. rewrite length_take. lia.
Qed.

(** A service that discovery does not know cannot be scaled by hand:
    [manual_scale] answers [False] and leaves the scaler as it was; and an
    automatic action on it stamps no cooldown and no replica count. *)
Theorem unknown_service_is_not_scaled rt (s : Scaler.AutoScaler) service target
    direction policy now :
  Scaler.find_service rt service = None ->
  Scaler.manual_scale rt s service target now = (false, s)
  /\ (let s' := Scaler._execute_scaling_action rt s service direction policy now in
      Scaler.last_scaling_actions s' = Scaler.last_scaling_actions s
      /\ Scaler.current_replicas s' = Scaler.current_replicas s).
Proof.
  intros Hfind.
  assert (Hscale : forall n, Scaler._scale_service rt s service n = false).
  { intros n. unfold Scaler._scale_service. rewrite Hfind. reflexivity. }
  split.
  - unfold Scaler.manual_scale. rewrite Hscale. reflexivity.
  - unfold Scaler._execute_scaling_action. rewrite Hscale.
    destruct (_ =? _); [split; reflexivity|].
    split; apply record_event_frame.
Qed.

Lemma unknown_service_is_not_scaled_witness :
  Scaler.manual_scale Scenario.app_runtime Scenario.app_scaler "ghost" 3 (90 * usec)
  = (false, Scenario.app_scaler).
Proof.
  destruct (unknown_service_is_not_scaled Scenario.app_runtime Scenario.app_scaler
              "ghost" 3 Scaler.UP Scenario.app_policy (90 * usec)) as [H _];
    [reflexivity | exact H].
Defined.

Lemma last_slice_idem {A} (l : list A) (c : Z) :
  0 <= c -> last_slice (last_slice l c) c = last_slice l c.
Proof.
  intros Hc. destruct (Z.eq_dec c 0) as [->|Hne].
  - rewrite !last_slice_zero. reflexivity.
  - rewrite (last_slice_drop (last_slice l c)) by lia.
    rewrite (last_slice_drop l) by lia.
    rewrite length_drop.
    replace (length l - (length l - Z.to_nat c) - Z.to_nat c)%nat with 0%nat by lia.
    reflexivity.
Qed.

Lemma sumQ_weights_pos (a k : nat) :
  (0 < k)%nat ->
  (0 < Scaler.sumQ (List.map (fun i => inject_Z (Z.of_nat i + 1)) (seq a k)))%Q.
Proof.
  assert (Hnn : forall a k,
            (0 <= Scaler.sumQ (List.map (fun i => inject_Z (Z.of_nat i + 1)) (seq a k)))%Q).
  { clear. intros a k. revert a. induction k as [|k IH]; intros a; simpl.
    - apply Qle_refl.
    - unfold Scaler.sumQ in *. simpl.
      apply (Qle_trans _ (0 + 0)); [apply Qle_refl|].
      apply Qplus_le_compat; [|apply IH].
      change 0%Q with (inject_Z 0). rewrite <- Zle_Qle. lia. }
  destruct k as [|k]; [lia|]. intros _. simpl. unfold Scaler.sumQ. simpl.
  apply (Qlt_le_trans _ (inject_Z (Z.of_nat a + 1) + 0)).
  - rewrite Qplus_0_r. change 0%Q with (inject_Z 0). rewrite <- Zlt_Qlt. lia.
  - apply Qplus_le_compat; [apply Qle_refl | apply Hnn].
Qed.

Lemma Qeq_bool_pos (q : Q) : (0 < q)%Q -> Qeq_bool q 0 = false.
Proof.
  intros Hq. destruct (Qeq_bool q 0) eqn:E; [|reflexivity].
  apply Qeq_bool_eq in E. rewrite E in Hq. exfalso. exact (Qlt_irrefl 0 Hq).
Qed.

Lemma Qmax_0_nonneg (x : Q) : (0 <= Scaler.Qmax 0 x)%Q.
Proof.
  unfold Scaler.Qmax. destruct (Qltb 0 x) eqn:E; [|apply Qle_refl].
  apply Qltb_lt in E. apply Qlt_le_weak. exact E.
Qed.

(** With a sample window that is not negative, [_predict_metric] always
    returns a value, without a division by zero, and the value is never
    negative. *)
Theorem prediction_is_total_and_not_negative (s : Scaler.AutoScaler) service
    (metric : Scaler.ScalingMetrics -> Q) :
  0 <= Scaler.prediction_samples s ->
  exists q, Scaler._predict_metric s service metric = Ok q /\ (0 <= q)%Q.
Proof.
  intros Hps. unfold Scaler._predict_metric.
  set (metrics := Scaler._get_recent_metrics s service (Scaler.prediction_samples s)).
  destruct (_ <? 3) eqn:Elen; [exists 0%Q; split; [reflexivity | apply Qle_refl]|].
  apply Z.ltb_ge in Elen.
  assert (Hsame : last_slice metrics (Scaler.prediction_samples s) = metrics).
  { subst metrics. unfold Scaler._get_recent_metrics.
    destruct (Scaler.metrics_history s !! service);
      [|unfold last_slice; apply drop_nil].
    apply last_slice_idem. exact Hps. }
  rewrite Hsame. rewrite !length_map.
  set (values := List.map metric metrics).
  assert (Hn : 3 <= Z.of_nat (length values)) by (subst values; rewrite length_map; lia).
  rewrite <- (length_map metric metrics). fold values.
  rewrite truediv_nonzero
    by (apply Qeq_bool_pos, sumQ_weights_pos; lia).
  cbn [mbind result_bind bind].
  destruct (2 <=? _) eqn:E2; [|apply Z.leb_gt in E2; lia].
  destruct (index_in_range values (-1)) as (v_last & Hl & _); [lia|].
  destruct (index_in_range values 0) as (v_first & Hf & _); [lia|].
  rewrite Hl, Hf. cbn [mbind result_bind bind].
  rewrite truediv_pos by lia. cbn [mbind mret result_bind result_ret bind].
  eexists. split; [reflexivity | apply Qmax_0_nonneg].
Qed.

Lemma prediction_is_total_and_not_negative_witness :
  exists q,
    Scaler._predict_metric Scenario.app_scaler "app" Scaler.cpu_percent = Ok q
    /\ (0 <= q)%Q.
Proof.
  apply prediction_is_total_and_not_negative. discriminate.
Defined.

Lemma store_metrics_other (s : Scaler.AutoScaler) service m n :
  n <> service ->
  Scaler.metrics_history (Scaler._store_metrics s service m) !! n
  = Scaler.metrics_history s !! n.
Proof.
  intros Hne. unfold Scaler._store_metrics.
  cbn [Scaler.metrics_history Scaler.with_history].
  apply lookup_insert_ne. congruence.
Qed.

(** [_collect_metrics] adds no sample to the history of a name unless a
    listed service of that name has auto-scaling enabled, is running and
    yields metrics. *)
Theorem collect_skips_unscaled_services rt (s : Scaler.AutoScaler)
    (services : list Discovery.ServiceDefinition) now (n : string) :
  Forall (fun svc =>
            Discovery.name svc = n ->
            Discovery.auto_scale_enabled svc = false
            \/ Discovery.status svc <> Discovery.RUNNING
            \/ Scaler._get_service_metrics rt svc now = None) services ->
  Scaler.metrics_history (Scaler._collect_metrics rt s services now) !! n
  = Scaler.metrics_history s !! n.
Proof.
  intros Hall. unfold Scaler._collect_metrics. revert s.
  induction Hall as [|svc services Hsvc _ IH]; intros s; simpl; [reflexivity|].
  rewrite IH. clear IH.
  destruct (Discovery.auto_scale_enabled svc) eqn:Ea; simpl; [|reflexivity].
  destruct (Discovery.ServiceStatus_eqb _ _) eqn:Er; [|reflexivity].
  destruct (Scaler._get_service_metrics rt svc now) as [m|] eqn:Em; [|reflexivity].
  destruct (decide (Discovery.name svc = n)) as [Hn|Hn].
  - destruct (Hsvc Hn) as [H|[H|H]]; [discriminate| |discriminate].
    destruct (Discovery.status svc); simpl in Er; congruence.
  - apply store_metrics_other. congruence.
Qed.

Lemma collect_skips_unscaled_services_witness :
  Scaler.metrics_history
    (Scaler._collect_metrics Scenario.app_runtime Scenario.app_scaler
       [Scenario.blog_service] Scenario.noon) !! "blog" = None.
Proof.
  rewrite (collect_skips_unscaled_services Scenario.app_runtime Scenario.app_scaler
             [Scenario.blog_service] Scenario.noon "blog"); [reflexivity|].
  repeat constructor.
Defined.

(** ** container_orchestrator.py: dependencies, stop, registration *)

Lemma ContainerState_eqb_eq (a b : Orchestrator.ContainerState) :
  Orchestrator.ContainerState_eqb a b = true <-> a = b.
Proof. destruct a, b; simpl; split; congruence. Qed.

Lemma ready_update (o : Orchestrator.Orch) n f m :
  (m = n -> Orchestrator.state_of o n = Some Orchestrator.RUNNING -> False) ->
  Orchestrator.ready o m -> Orchestrator.ready (Orchestrator.update_status o n f) m.
Proof.
  intros Hn Hm. unfold Orchestrator.ready in *.
  destruct (decide (n = m)) as [->|Hne].
  - destruct Hm as [Hm|Hm]; [|exfalso; auto].
    left. rewrite state_of_update_eq.
    unfold Orchestrator.state_of in Hm.
    destruct (Orchestrator.containers o !! m); [discriminate | reflexivity].
  - rewrite state_of_update_ne by exact Hne. exact Hm.
Qed.

Section DependencyOrder.

Variable sleep : Orchestrator.Orch -> Orchestrator.Orch.
Hypothesis sleep_ready :
  forall o m, Orchestrator.ready o m -> Orchestrator.ready (sleep o) m.

Lemma wait_running_ready polls dep (o : Orchestrator.Orch) m :
  Orchestrator.ready o m ->
  Orchestrator.ready (Orchestrator.wait_running sleep polls dep o).2 m.
Proof.
  revert o. induction polls as [|p IH]; intros o Hm; simpl; [exact Hm|].
  destruct (Orchestrator.state_of o dep) as [[]|]; simpl;
    try exact Hm; apply IH, sleep_ready, Hm.
Qed.

Lemma wait_running_ok polls dep (o : Orchestrator.Orch) u :
  (Orchestrator.wait_running sleep polls dep o).1 = Ok u ->
  Orchestrator.state_of (Orchestrator.wait_running sleep polls dep o).2 dep
  = Some Orchestrator.RUNNING.
Proof.
  revert o. induction polls as [|p IH]; intros o; simpl; [discriminate|].
  destruct (Orchestrator.state_of o dep) as [[]|] eqn:E; simpl;
    try apply IH. intros _. exact E.
Qed.

Section Dependencies.

Variable start : string -> Orchestrator.Orch -> result bool * Orchestrator.Orch.
Hypothesis start_ready :
  forall n o m, Orchestrator.ready o m -> Orchestrator.ready (start n o).2 m.

Lemma start_dependencies_ready_kept polls deps (o : Orchestrator.Orch) m :
  Orchestrator.ready o m ->
  Orchestrator.ready (Orchestrator._start_dependencies start sleep polls deps o).2 m.
Proof.
  revert o. induction deps as [|d rest IH]; intros o Hm; [exact Hm|].
  rewrite start_dependencies_cons.
  destruct (match Orchestrator.state_of o d with
            | None | Some Orchestrator.RUNNING => true
            | Some _ => false
            end); [apply IH, Hm|].
  pose proof (start_ready d o m Hm) as H1.
  destruct (start d o) as [[b|e] o1]; simpl in H1; [|exact H1].
  pose proof (wait_running_ready polls d o1 m H1) as H2.
  destruct (Orchestrator.wait_running sleep polls d o1) as [[u|e] o2];
    simpl in H2; [|exact H2].
  apply IH, H2.
Qed.

(** When [_start_dependencies] returns without raising, every dependency
    it was given is unmanaged or running. *)
Lemma start_dependencies_all_ready polls deps (o : Orchestrator.Orch) u :
  (Orchestrator._start_dependencies start sleep polls deps o).1 = Ok u ->
  Forall (Orchestrator.ready
            (Orchestrator._start_dependencies start sleep polls deps o).2) deps.
Proof.
  revert o. induction deps as [|d rest IH]; intros o; [constructor|].
  rewrite start_dependencies_cons.
  destruct (match Orchestrator.state_of o d with
            | None | Some Orchestrator.RUNNING => true
            | Some _ => false
            end) eqn:Eready.
  - intros Hok. constructor; [|apply IH, Hok].
    apply start_dependencies_ready_kept. unfold Orchestrator.ready.
    destruct (Orchestrator.state_of o d) as [[]|]; try discriminate; auto.
  - destruct (start d o) as [[b|e] o1]; simpl; [|discriminate].
    pose proof (wait_running_ok polls d o1) as Hw.
    destruct (Orchestrator.wait_running sleep polls d o1) as [[w|e] o2];
      simpl in *; [|discriminate].
    intros Hok. constructor; [|apply IH, Hok].
    apply start_dependencies_ready_kept. right. eapply Hw. reflexivity.
Qed.

End Dependencies.

(** A nested start (made without [force]) leaves a running or unmanaged
    container as it is. *)
Lemma start_container_ready_kept polls depth n (o : Orchestrator.Orch) m :
  Orchestrator.ready o m ->
  Orchestrator.ready (Orchestrator.start_container sleep polls depth n false o).2 m.
Proof.
  revert n o m. induction depth as [|d IH]; intros n o m Hm; [exact Hm|].
  rewrite start_container_step.
  destruct (Orchestrator.configs o !! n) as [cfg|]; [|exact Hm].
  destruct (Orchestrator.containers o !! n) as [s|] eqn:Hs; [|exact Hm].
  destruct (Orchestrator.ContainerState_eqb (Orchestrator.state s)
              Orchestrator.RUNNING) eqn:Erun; [exact Hm|].
  cbn [negb andb].
  destruct (Orchestrator.ContainerState_eqb (Orchestrator.state s)
              Orchestrator.STARTING); [exact Hm|].
  cbv zeta.
  set (o1 := Orchestrator.update_status o n _).
  assert (Hnot : Orchestrator.state_of o n = Some Orchestrator.RUNNING -> False).
  { unfold Orchestrator.state_of. rewrite Hs. simpl. intros [= H].
    rewrite H in Erun. discriminate. }
  assert (H1 : Orchestrator.ready o1 m) by (apply ready_update; auto).
  assert (Hend : forall (r : result unit) o2,
            Orchestrator.ready o2 m ->
            (Orchestrator.state_of o2 n = Some Orchestrator.RUNNING -> m <> n) ->
            Orchestrator.ready
              (match r with
               | Ok _ => (Ok true, Orchestrator.queue_put o2 (n, cfg))
               | Raise e => (Ok false, Orchestrator.update_status o2 n
                                         (fun x => Orchestrator.set_error x e))
               end).2 m).
  { intros [u|e] o2 H2 Hmn; simpl; [exact H2|].
    unfold Orchestrator.ready in *.
    destruct (decide (n = m)) as [->|Hne].
    - destruct H2 as [H2|H2]; [|exfalso; apply (Hmn H2); reflexivity].
      left. rewrite state_of_update_eq. unfold Orchestrator.state_of in H2.
      destruct (Orchestrator.containers o2 !! m); [discriminate | reflexivity].
    - rewrite state_of_update_ne by exact Hne. exact H2. }
  destruct (Orchestrator.dependencies cfg) as [|x xs].
  - apply (Hend (Ok tt) o1 H1).
    intros Hr Heq. subst m. subst o1. rewrite state_of_update_eq, Hs in Hr.
    discriminate.
  - pose proof (start_dependencies_ready_kept
                  (fun dep => Orchestrator.start_container sleep polls d dep false)
                  (fun k o' m' => IH k o' m') polls (x :: xs) o1 m H1) as H2.
    destruct (Orchestrator._start_dependencies _ sleep polls (x :: xs) o1) as [r o2].
    simpl in H2.
    destruct r as [u|e]; simpl; [exact H2|].
    unfold Orchestrator.ready in *.
    destruct (decide (n = m)) as [->|Hne].
    + (* [m] itself: it was not running when the call began, so it was unmanaged *)
      destruct Hm as [Hm|Hm]; [|exfalso; auto].
      unfold Orchestrator.state_of in Hm. rewrite Hs in Hm. discriminate.
    + rewrite state_of_update_ne by exact Hne. exact H2.
Qed.

End DependencyOrder.

Lemma worker_step_ready run now (o : Orchestrator.Orch) m :
  (forall n msg, run n <> Orchestrator.StartFailed msg) ->
  Orchestrator.ready o m -> Orchestrator.ready (Orchestrator.worker_step run now o) m.
Proof.
  intros Hrun Hm. unfold Orchestrator.worker_step.
  destruct (Orchestrator.startup_queue o) as [|[n c] rest]; [exact Hm|].
  unfold Orchestrator._execute_startup, Orchestrator.ready in *.
  destruct (decide (n = m)) as [->|Hne].
  - rewrite state_of_update_eq.
    change (Orchestrator.containers (Orchestrator.with_queue o rest))
      with (Orchestrator.containers o).
    unfold Orchestrator.state_of in Hm.
    destruct (Orchestrator.containers o !! m) as [s|]; simpl; [right | left; reflexivity].
    destruct (run m) as [id|id|msg] eqn:E; [reflexivity | reflexivity |].
    exfalso. exact (Hrun m msg E).
  - rewrite state_of_update_ne by exact Hne. exact Hm.
Qed.

Lemma workers_ready run now batch (o : Orchestrator.Orch) m :
  (forall n msg, run n <> Orchestrator.StartFailed msg) ->
  Orchestrator.ready o m -> Orchestrator.ready (Orchestrator.workers run now batch o) m.
Proof.
  intros Hrun. revert o. induction batch as [|k IH]; intros o Hm; simpl; [exact Hm|].
  apply IH, worker_step_ready; assumption.
Qed.

(** A start that goes through is queued only behind ready dependencies:
    when [start_container] gets past its state checks and answers [True],
    the container sits at the tail of the queue and every dependency of
    its configuration is running or not managed at all, provided that what
    runs during the waits takes no running container down. *)
Theorem dependencies_ready_when_enqueued sleep polls depth n force
    (o : Orchestrator.Orch) cfg s :
  (forall o' m, Orchestrator.ready o' m -> Orchestrator.ready (sleep o') m) ->
  Orchestrator.configs o !! n = Some cfg ->
  Orchestrator.containers o !! n = Some s ->
  Orchestrator.state s <> Orchestrator.STARTING ->
  Orchestrator.state s <> Orchestrator.RUNNING \/ force = true ->
  let out := Orchestrator.start_container sleep polls (S depth) n force o in
  out.1 = Ok true ->
  Forall (Orchestrator.ready out.2) (Orchestrator.dependencies cfg)
  /\ List.last (Orchestrator.startup_queue out.2) (n, cfg) = (n, cfg)
  /\ Orchestrator.startup_queue out.2 <> [].
Proof.
  intros Hsleep Hcfg Hs Hstarting Hrun out. subst out.
  rewrite start_container_step, Hcfg, Hs.
  assert (E1 : Orchestrator.ContainerState_eqb (Orchestrator.state s) Orchestrator.RUNNING
               && negb force = false).
  { destruct Hrun as [Hrun| ->]; [|apply andb_false_r].
    destruct (Orchestrator.state s); try congruence; reflexivity. }
  assert (E2 : Orchestrator.ContainerState_eqb (Orchestrator.state s) Orchestrator.STARTING
               = false).
  { destruct (Orchestrator.state s); try congruence; reflexivity. }
  rewrite E1, E2. cbv zeta.
  set (o1 := Orchestrator.update_status o n _).
  assert (Hgen : forall (r : result unit) o2,
            (forall u, r = Ok u -> Forall (Orchestrator.ready o2) (Orchestrator.dependencies cfg)) ->
            (match r with
             | Ok _ => (Ok true, Orchestrator.queue_put o2 (n, cfg))
             | Raise e => (Ok false, Orchestrator.update_status o2 n
                                       (fun x => Orchestrator.set_error x e))
             end).1 = Ok true ->
            Forall (Orchestrator.ready
                      (match r with
                       | Ok _ => (Ok true, Orchestrator.queue_put o2 (n, cfg))
                       | Raise e => (Ok false, Orchestrator.update_status o2 n
                                                 (fun x => Orchestrator.set_error x e))
                       end).2) (Orchestrator.dependencies cfg)
            /\ List.last (Orchestrator.startup_queue
                            (match r with
                             | Ok _ => (Ok true, Orchestrator.queue_put o2 (n, cfg))
                             | Raise e => (Ok false, Orchestrator.update_status o2 n
                                                       (fun x => Orchestrator.set_error x e))
                             end).2) (n, cfg) = (n, cfg)
            /\ Orchestrator.startup_queue
                 (match r with
                  | Ok _ => (Ok true, Orchestrator.queue_put o2 (n, cfg))
                  | Raise e => (Ok false, Orchestrator.update_status o2 n
                                            (fun x => Orchestrator.set_error x e))
                  end).2 <> []).
  { intros [u|e] o2 Hready; simpl; [|discriminate]. intros _.
    split; [exact (Hready u eq_refl)|]. split.
    - apply last_last.
    - destruct (Orchestrator.startup_queue o2); discriminate. }
  destruct (Orchestrator.dependencies cfg) as [|x xs] eqn:Edeps.
  - apply (Hgen (Ok tt) o1). intros _ _. constructor.
  - destruct (Orchestrator._start_dependencies _ sleep polls (x :: xs) o1) as [r o2] eqn:E.
    apply Hgen. intros u Hr.
    pose proof (start_dependencies_all_ready sleep Hsleep
                  (fun dep => Orchestrator.start_container sleep polls depth dep false)
                  (fun k o' m => start_container_ready_kept sleep Hsleep polls depth k o' m)
                  polls (x :: xs) o1 u) as Hall.
    rewrite E in Hall. simpl in Hall. apply Hall. exact Hr.
Qed.

Lemma dependencies_ready_when_enqueued_witness :
  let out := Orchestrator.start_container
               (Orchestrator.workers Scenario.runtime_ok Scenario.noon 1)
               3 10 "app" false Scenario.app_db_orch in
  out.1 = Ok true
  /\ Forall (Orchestrator.ready out.2) ["db"]
  /\ List.map fst (Orchestrator.startup_queue out.2) = ["app"].
Proof.
  intros out.
  assert (Hok : out.1 = Ok true) by reflexivity.
  destruct (dependencies_ready_when_enqueued
              (Orchestrator.workers Scenario.runtime_ok Scenario.noon 1)
              3 9 "app" false Scenario.app_db_orch
              (Scenario.plain_config "app" ["db"]) (Scenario.stopped "app"))
    as (Hready & _ & _).
  - intros o' m. apply workers_ready. intros n msg. discriminate.
  - reflexivity.
  - reflexivity.
  - discriminate.
  - left. discriminate.
  - exact Hok.
  - split; [exact Hok|]. split; [exact Hready | reflexivity].
Defined.

Lemma status_lookup_alter (o : Orchestrator.Orch) n f :
  Orchestrator.containers (Orchestrator.update_status o n f) !! n
  = f <$> Orchestrator.containers o !! n.
Proof. unfold Orchestrator.update_status. simpl. apply lookup_alter_eq. Qed.

Lemma status_lookup_alter_ne (o : Orchestrator.Orch) n m f :
  m <> n ->
  Orchestrator.containers (Orchestrator.update_status o n f) !! m
  = Orchestrator.containers o !! m.
Proof.
  intros H. unfold Orchestrator.update_status. simpl.
  apply lookup_alter_ne. congruence.
Qed.

(** [stop_container] touches nothing but the status of the named
    container: the start-up queue and the configurations stay as they
    are, so a start queued before the stop is still executed after it and
    brings the container up again.  The answer [True] leaves the entry
    [STOPPED] (with its id cleared unless it was stopped already); the
    answer [False] means the name is unknown or the entry is now [ERROR]. *)
Theorem stop_leaves_queued_start env n force (o : Orchestrator.Orch) :
  let out := Orchestrator.stop_container env n force o in
  Orchestrator.startup_queue out.2 = Orchestrator.startup_queue o
  /\ Orchestrator.configs out.2 = Orchestrator.configs o
  /\ (forall m, m <> n ->
        Orchestrator.containers out.2 !! m = Orchestrator.containers o !! m)
  /\ (out.1 = true -> Orchestrator.state_of out.2 n = Some Orchestrator.STOPPED)
  /\ (out.1 = true -> Orchestrator.state_of o n <> Some Orchestrator.STOPPED ->
        Orchestrator.containers out.2 !! n ≫= Orchestrator.container_id = None)
  /\ (out.1 = false ->
        (Orchestrator.containers o !! n = None /\ out.2 = o)
        \/ Orchestrator.state_of out.2 n = Some Orchestrator.ERROR)
  /\ (forall run now cfg rest id,
        Orchestrator.startup_queue o = (n, cfg) :: rest ->
        run n = Orchestrator.Started id ->
        is_Some (Orchestrator.containers o !! n) ->
        Orchestrator.state_of (Orchestrator.worker_step run now out.2) n
        = Some Orchestrator.RUNNING).
Proof.
  intros out. subst out. unfold Orchestrator.stop_container.
  destruct (Orchestrator.containers o !! n) as [s|] eqn:Hs.
  2:{ simpl. repeat split; try discriminate; auto.
      intros run now cfg rest id _ _ [x Hx]. discriminate. }
  destruct (Orchestrator.ContainerState_eqb (Orchestrator.state s) Orchestrator.STOPPED)
    eqn:Est.
  { apply ContainerState_eqb_eq in Est. simpl.
    repeat split; try discriminate; auto.
    - intros _. unfold Orchestrator.state_of. rewrite Hs. simpl. congruence.
    - intros _ Hne. exfalso. apply Hne. unfold Orchestrator.state_of.
      rewrite Hs. simpl. congruence.
    - intros run now cfg rest id Hq Hrun _.
      unfold Orchestrator.worker_step. rewrite Hq.
      unfold Orchestrator._execute_startup. rewrite state_of_update_eq.
      simpl. rewrite Hs, Hrun. reflexivity. }
  cbv zeta.
  match goal with
  | |- context [match ?r with Ok _ => _ | Raise _ => _ end] => generalize r
  end.
  intros [u|e]; simpl.
  - repeat split; try discriminate; auto.
    + intros m Hm. rewrite !lookup_alter_ne by congruence. reflexivity.
    + intros _. unfold Orchestrator.state_of. simpl.
      rewrite !lookup_alter_eq, Hs. reflexivity.
    + intros _ _. rewrite !lookup_alter_eq, Hs. reflexivity.
    + intros run now cfg rest id Hq Hrun _.
      unfold Orchestrator.worker_step. simpl. rewrite Hq.
      unfold Orchestrator._execute_startup. rewrite state_of_update_eq.
      simpl. rewrite !lookup_alter_eq, Hs, Hrun. reflexivity.
  - repeat split; try discriminate; auto.
    + intros m Hm. rewrite !lookup_alter_ne by congruence. reflexivity.
    + intros _. right. unfold Orchestrator.state_of. simpl.
      rewrite !lookup_alter_eq, Hs. reflexivity.
    + intros run now cfg rest id Hq Hrun _.
      unfold Orchestrator.worker_step. simpl. rewrite Hq.
      unfold Orchestrator._execute_startup. rewrite state_of_update_eq.
      simpl. rewrite !lookup_alter_eq, Hs, Hrun. reflexivity.
Qed.

(** A stop whose runtime call raises answers [False] and leaves the entry
    in [ERROR] with the container id it had. *)
Lemma stop_failure_keeps_id :
  let out := Orchestrator.stop_container Scenario.stop_fails "web" false Scenario.web_orch in
  out.1 = false
  /\ Orchestrator.containers out.2 !! "web" ≫= Orchestrator.container_id = Some "c0ffee".
Proof. split; reflexivity. Qed.

(** What a health pass does with a running container besides probing it:
    if the runtime no longer knows the id, the entry becomes [STOPPED]
    and loses its id; if the runtime call fails otherwise, the entry is
    left exactly as it was, without a new check time; if the runtime
    reports a status other than "running", the entry becomes [UNHEALTHY],
    keeps its id and is stamped.  The pass adds and removes no entry. *)
Theorem health_pass_without_runtime_container env now (o : Orchestrator.Orch) n s cid :
  Orchestrator.containers o !! n = Some s ->
  Orchestrator.state s = Orchestrator.RUNNING ->
  Orchestrator.container_id s = Some cid ->
  cid <> "" ->
  let o' := Orchestrator.health_check_pass env now o in
  (forall m, is_Some (Orchestrator.containers o' !! m)
             <-> is_Some (Orchestrator.containers o !! m))
  /\ (Orchestrator.lookup env cid = Orchestrator.NotFound ->
        Orchestrator.containers o' !! n = Some (Orchestrator.set_stopped s))
  /\ (Orchestrator.lookup env cid = Orchestrator.DockerError ->
        Orchestrator.containers o' !! n = Some s)
  /\ (forall st, Orchestrator.lookup env cid = Orchestrator.Found st ->
        st <> "running" ->
        exists s', Orchestrator.containers o' !! n = Some s'
          /\ Orchestrator.state s' = Orchestrator.UNHEALTHY
          /\ Orchestrator.container_id s' = Some cid
          /\ Orchestrator.last_health_check s' = Some now
          /\ Orchestrator.health_status s' = "Container status: " +:+ st).
Proof.
  intros Hs Hrun Hid Hne o'. subst o'. unfold Orchestrator.health_check_pass. simpl.
  assert (Hcid : String.eqb cid "" = false) by (apply String.eqb_neq; exact Hne).
  split.
  { intros m. rewrite map_lookup_imap.
    destruct (Orchestrator.containers o !! m) as [x|]; simpl.
    - split; intros _; eexists; reflexivity.
    - reflexivity. }
  rewrite map_lookup_imap, Hs. simpl. rewrite Hid, Hrun, Hcid. simpl.
  unfold Orchestrator._perform_health_check.
  repeat split.
  - intros ->. reflexivity.
  - intros ->. reflexivity.
  - intros st -> Hst.
    assert (E : String.eqb st "running" = false) by (apply String.eqb_neq; exact Hst).
    rewrite E. simpl. eexists. split; [reflexivity|].
    simpl. rewrite Hid. repeat split; reflexivity.
Qed.

Lemma health_pass_without_runtime_container_witness :
  Orchestrator.containers
    (Orchestrator.health_check_pass Scenario.gone_env Scenario.noon Scenario.web_orch)
    !! "web"
  = Some (Orchestrator.set_stopped Scenario.web_running).
Proof.
  refine (proj1 (proj2 (health_pass_without_runtime_container
            Scenario.gone_env Scenario.noon Scenario.web_orch "web"
            Scenario.web_running "c0ffee" _ _ _ _)) _);
    try reflexivity.
  discriminate.
Defined.

(** Registering a name again replaces its configuration and keeps the
    status entry the name already has, whatever its state; only an
    unknown name gets a fresh [STOPPED] entry.  No other name and no
    queued start-up is affected, and registering the same configuration
    twice is the same as registering it once. *)
Theorem register_again_keeps_status (o : Orchestrator.Orch) cfg :
  exists o',
    Orchestrator.register_container o cfg = Ok o'
    /\ Orchestrator.configs o' !! Orchestrator.name cfg = Some cfg
    /\ (forall s, Orchestrator.containers o !! Orchestrator.name cfg = Some s ->
          Orchestrator.containers o' !! Orchestrator.name cfg = Some s)
    /\ (Orchestrator.containers o !! Orchestrator.name cfg = None ->
          Orchestrator.containers o' !! Orchestrator.name cfg
          = Some (Orchestrator.mkStatus (Orchestrator.name cfg) Orchestrator.STOPPED
                    None None None "unknown" None 0))
    /\ Orchestrator.startup_queue o' = Orchestrator.startup_queue o
    /\ (forall m, m <> Orchestrator.name cfg ->
          Orchestrator.containers o' !! m = Orchestrator.containers o !! m
          /\ Orchestrator.configs o' !! m = Orchestrator.configs o !! m)
    /\ Orchestrator.register_container o' cfg = Ok o'.
Proof.
  eexists. split; [reflexivity|]. simpl.
  split; [apply lookup_insert_eq|].
  split.
  { intros s Hs. rewrite Hs. exact Hs. }
  split.
  { intros Hs. rewrite Hs. apply lookup_insert_eq. }
  split; [reflexivity|].
  split.
  { intros m Hm. split.
    - destruct (Orchestrator.containers o !! Orchestrator.name cfg); [reflexivity|].
      apply lookup_insert_ne. congruence.
    - apply lookup_insert_ne. congruence. }
  unfold Orchestrator.register_container. simpl.
  rewrite insert_insert_eq.
  destruct (Orchestrator.containers o !! Orchestrator.name cfg) as [s|] eqn:Hs.
  - rewrite Hs. reflexivity.
  - rewrite lookup_insert_eq. reflexivity.
Qed.

(** ** service_discovery.py: discovery filter, clean-up, healthy services *)

(** A container is discovered exactly when its labels contain every
    required label with the required value; a container without labels is
    discovered only when nothing is required. *)
Theorem discovered_iff_required_labels_present required labels :
  Discovery._should_discover_container required labels = true
  <-> required ⊆ default ∅ labels.
Proof.
  unfold Discovery._should_discover_container. cbv zeta.
  rewrite forallb_forall, map_subseteq_spec. split.
  - intros H k v Hk.
    apply elem_of_map_to_list, list_elem_of_In in Hk.
    apply H in Hk. apply bool_decide_eq_true in Hk. exact Hk.
  - intros H [k v] Hin. apply bool_decide_eq_true. simpl.
    apply H, elem_of_map_to_list, list_elem_of_In. exact Hin.
Qed.

Lemma delete_stale_subset store stale (services : gmap string Discovery.ServiceDefinition) n s :
  Discovery.delete_stale store stale services !! n = Some s -> services !! n = Some s.
Proof.
  revert services. induction stale as [|x stale IH]; intros services; simpl; [tauto|].
  assert (Hdel : delete x services !! n = Some s -> services !! n = Some s).
  { intros H. apply lookup_delete_Some in H. tauto. }
  destruct (store x); [|exact Hdel].
  intros H. apply Hdel, IH, H.
Qed.

Lemma delete_stale_keeps store stale (services : gmap string Discovery.ServiceDefinition) n :
  ~ In n stale ->
  Discovery.delete_stale store stale services !! n = services !! n.
Proof.
  revert services. induction stale as [|x stale IH]; intros services Hn; simpl;
    [reflexivity|].
  assert (Hx : x <> n) by (intros ->; apply Hn; left; reflexivity).
  assert (Hdel : delete x services !! n = services !! n)
    by (apply lookup_delete_ne; exact Hx).
  destruct (store x); [|exact Hdel].
  rewrite IH; [exact Hdel|]. intros H. apply Hn. right. exact H.
Qed.

Lemma delete_stale_removes store stale (services : gmap string Discovery.ServiceDefinition) n :
  (forall x, store x = Ok tt) -> In n stale ->
  Discovery.delete_stale store stale services !! n = None.
Proof.
  intros Hstore. revert services.
  induction stale as [|x stale IH]; intros services Hn; simpl; [destruct Hn|].
  rewrite Hstore.
  destruct (in_dec String.string_dec n stale) as [Hin|Hout].
  - apply IH, Hin.
  - rewrite delete_stale_keeps by exact Hout.
    destruct Hn as [->|Hn]; [apply lookup_delete_eq | contradiction].
Qed.

Lemma stale_names now ttl (services : gmap string Discovery.ServiceDefinition) n :
  In n (List.map fst
          (List.filter (fun ns => Discovery.last_seen ns.2 <? now - ttl * usec)
             (map_to_list services)))
  <-> exists s, services !! n = Some s /\ Discovery.last_seen s < now - ttl * usec.
Proof.
  rewrite in_map_iff. split.
  - intros ([k s] & <- & Hin). apply filter_In in Hin as [Hin Hlt].
    exists s. split.
    + apply elem_of_map_to_list, list_elem_of_In, Hin.
    + apply Z.ltb_lt, Hlt.
  - intros (s & Hs & Hlt). exists (n, s). split; [reflexivity|].
    apply filter_In. split.
    + apply list_elem_of_In, elem_of_map_to_list, Hs.
    + apply Z.ltb_lt, Hlt.
Qed.

(** The clean-up only removes: what it leaves is an entry of the registry,
    unchanged, and an entry seen within the time to live always stays.
    When the store does not fail, the entries left are exactly those seen
    within the time to live; [last_seen] equal to the cut-off is kept. *)
Theorem cleanup_removes_only_stale store now ttl
    (services : gmap string Discovery.ServiceDefinition) n s :
  let left := Discovery._cleanup_stale_services store now ttl services in
  (left !! n = Some s -> services !! n = Some s)
  /\ (services !! n = Some s -> now - ttl * usec <= Discovery.last_seen s ->
        left !! n = Some s)
  /\ ((forall x, store x = Ok tt) ->
        (left !! n = Some s
         <-> services !! n = Some s /\ now - ttl * usec <= Discovery.last_seen s)).
Proof.
  intros left. subst left. unfold Discovery._cleanup_stale_services. cbv zeta.
  assert (Hkeep : services !! n = Some s -> now - ttl * usec <= Discovery.last_seen s ->
            Discovery.delete_stale store
              (List.map fst
                 (List.filter (fun ns => Discovery.last_seen ns.2 <? now - ttl * usec)
                    (map_to_list services))) services !! n = Some s).
  { intros Hs Hfresh. rewrite delete_stale_keeps; [exact Hs|].
    rewrite stale_names. intros (s' & Hs' & Hlt).
    rewrite Hs in Hs'. injection Hs' as <-. lia. }
  split; [apply delete_stale_subset|]. split; [exact Hkeep|].
  intros Hstore. split.
  - intros H. pose proof (delete_stale_subset _ _ _ _ _ H) as Hs.
    split; [exact Hs|].
    destruct (Z_lt_le_dec (Discovery.last_seen s) (now - ttl * usec)) as [Hlt|Hle];
      [|exact Hle].
    rewrite delete_stale_removes in H; [discriminate | exact Hstore |].
    apply stale_names. exists s. split; assumption.
  - intros [Hs Hfresh]. apply Hkeep; assumption.
Qed.

(** A health pass keeps every service alive whatever its probes answer:
    it stamps [last_seen], so a clean-up that runs no later than the time
    to live after the pass removes nothing, not even a service whose
    endpoints all fail. *)
Theorem cleanup_spares_checked_services store probe t0 t1 ttl
    (services : gmap string Discovery.ServiceDefinition) :
  t1 - t0 <= ttl * usec ->
  Discovery._cleanup_stale_services store t1 ttl
    (Discovery._check_services_health probe t0 services)
  = Discovery._check_services_health probe t0 services.
Proof.
  intros Hclose. unfold Discovery._cleanup_stale_services. cbv zeta.
  set (checked := Discovery._check_services_health probe t0 services).
  assert (Hnil : List.map fst
                   (List.filter (fun ns => Discovery.last_seen ns.2 <? t1 - ttl * usec)
                      (map_to_list checked)) = []).
  { destruct (List.map fst _) as [|n rest] eqn:E; [reflexivity|]. exfalso.
    assert (Hin : In n (List.map fst
                   (List.filter (fun ns => Discovery.last_seen ns.2 <? t1 - ttl * usec)
                      (map_to_list checked)))) by (rewrite E; left; reflexivity).
    apply stale_names in Hin as (s & Hs & Hlt).
    subst checked. unfold Discovery._check_services_health in Hs.
    rewrite lookup_fmap in Hs.
    destruct (services !! n) as [s0|]; [|discriminate].
    simpl in Hs. injection Hs as <-. simpl in Hlt. lia. }
  rewrite Hnil. reflexivity.
Qed.

Lemma cleanup_spares_checked_services_witness :
  Discovery._cleanup_stale_services (fun _ => Raise "store down")
    (Scenario.noon + 300 * usec) 300
    (Discovery._check_services_health Scenario.probe_204 Scenario.noon
       {["blog" := Scenario.blog_service]})
  = Discovery._check_services_health Scenario.probe_204 Scenario.noon
      {["blog" := Scenario.blog_service]}.
Proof.
  apply cleanup_spares_checked_services. vm_compute. discriminate.
Defined.

Lemma checked_score probe now (s : Discovery.ServiceDefinition) :
  let n := Z.of_nat (length (Discovery.endpoints s)) in
  let ok := Z.of_nat (Discovery.count_200 probe (Discovery.endpoints s)) in
  (Discovery.health_score (Discovery.check_service_health probe now s)
   == if 0 <? n then inject_Z ok / inject_Z n else 0)%Q.
Proof.
  intros n ok. unfold Discovery.check_service_health. fold n.
  cbn [Discovery.health_score Discovery.update_health].
  subst ok. destruct (0 <? n) eqn:Hn; [|reflexivity].
  apply Z.ltb_lt in Hn.
  rewrite probe_endpoints_count. field.
  intros H. unfold Qeq in H. simpl in H. lia.
Qed.

(** After a health pass a service is listed by [get_healthy_services]
    exactly when more than half of its endpoints answer 200: with one
    answering endpoint out of two it is not listed. *)
Theorem healthy_needs_strict_majority probe now
    (services : gmap string Discovery.ServiceDefinition) s' :
  In s' (Discovery.get_healthy_services
           (Discovery._check_services_health probe now services))
  <-> exists n s,
        services !! n = Some s
        /\ s' = Discovery.check_service_health probe now s
        /\ (length (Discovery.endpoints s)
            < 2 * Discovery.count_200 probe (Discovery.endpoints s))%nat.
Proof.
  unfold Discovery.get_healthy_services, Discovery._check_services_health.
  rewrite filter_In, in_map_iff.
  assert (Hmaj : forall s : Discovery.ServiceDefinition,
            Qltb (1 # 2) (Discovery.health_score
                            (Discovery.check_service_health probe now s)) = true
            <-> (length (Discovery.endpoints s)
                 < 2 * Discovery.count_200 probe (Discovery.endpoints s))%nat).
  { intros s. rewrite Qltb_lt, checked_score.
    set (n := length (Discovery.endpoints s)).
    set (c := Discovery.count_200 probe (Discovery.endpoints s)).
    assert (Hcn : (c <= n)%nat) by apply List.filter_length_le.
    clearbody n c.
    destruct (0 <? Z.of_nat n) eqn:Hn.
    - apply Z.ltb_lt in Hn.
      assert (Hq : (inject_Z (Z.of_nat c) / inject_Z (Z.of_nat n)
                    == Z.of_nat c # Z.to_pos (Z.of_nat n))%Q).
      { unfold Qeq, Qdiv, Qmult, Qinv, inject_Z. simpl.
        destruct (Z.of_nat n) eqn:En; try lia. simpl. lia. }
      rewrite Hq. unfold Qlt.
      cbn [Qnum Qden]. rewrite Z2Pos.id by lia. lia.
    - apply Z.ltb_ge in Hn. unfold Qlt. cbn [Qnum Qden]. lia. }
  split.
  - intros [([n s1] & <- & Hin) Hgt].
    apply list_elem_of_In, elem_of_map_to_list in Hin.
    rewrite lookup_fmap in Hin. simpl.
    destruct (services !! n) as [s|] eqn:Hs; [|discriminate].
    simpl in Hin. injection Hin as <-.
    exists n, s. split; [exact Hs|]. split; [reflexivity|].
    apply Hmaj. exact Hgt.
  - intros (n & s & Hs & -> & Hgt). split.
    + exists (n, Discovery.check_service_health probe now s). split; [reflexivity|].
      apply list_elem_of_In, elem_of_map_to_list.
      rewrite lookup_fmap, Hs. reflexivity.
    + apply Hmaj. exact Hgt.
Qed.

(** ** autoshutdown_manager.py: targets and schedules *)

Lemma in_list_In x l : Shutdown.in_list x l = true <-> In x l.
Proof.
  unfold Shutdown.in_list. rewrite existsb_exists. split.
  - intros (y & Hy & E). apply String.eqb_eq in E. subst y. exact Hy.
  - intros H. exists x. split; [exact H | apply String.eqb_refl].
Qed.

(** The targets of a rule are the containers with statistics that the
    rule lists (all of them when it lists none) and does not exclude: an
    exclusion wins over a listing, no container is named twice, and the
    tags of the rule play no part. *)
Theorem targets_listed_and_not_excluded
    (container_stats : gmap string (option Shutdown.ContainerStats))
    (rule : Shutdown.ShutdownRule) c :
  (In c (Shutdown._get_target_containers container_stats rule)
   <-> is_Some (container_stats !! c)
       /\ (Shutdown.containers rule = [] \/ In c (Shutdown.containers rule))
       /\ ~ In c (Shutdown.exclude_containers rule))
  /\ NoDup (Shutdown._get_target_containers container_stats rule)
  /\ (forall rule',
        Shutdown.containers rule' = Shutdown.containers rule ->
        Shutdown.exclude_containers rule' = Shutdown.exclude_containers rule ->
        Shutdown._get_target_containers container_stats rule'
        = Shutdown._get_target_containers container_stats rule).
Proof.
  unfold Shutdown._get_target_containers. split; [|split].
  - rewrite filter_In, in_map_iff, andb_true_iff, !negb_true_iff.
    assert (Hkey : (exists x : string * option Shutdown.ContainerStats,
                      x.1 = c /\ In x (map_to_list container_stats))
                   <-> is_Some (container_stats !! c)).
    { split.
      - intros ([k v] & <- & Hin). exists v.
        apply elem_of_map_to_list, list_elem_of_In, Hin.
      - intros [v Hv]. exists (c, v). split; [reflexivity|].
        apply list_elem_of_In, elem_of_map_to_list, Hv. }
    rewrite Hkey.
    assert (Hex : Shutdown.in_list c (Shutdown.exclude_containers rule) = false
                  <-> ~ In c (Shutdown.exclude_containers rule)).
    { rewrite <- in_list_In. destruct (Shutdown.in_list c _); split; intros H;
        congruence. }
    rewrite Hex.
    assert (Hin : Shutdown.nonempty (Shutdown.containers rule)
                  && negb (Shutdown.in_list c (Shutdown.containers rule)) = false
                  <-> Shutdown.containers rule = [] \/ In c (Shutdown.containers rule)).
    { rewrite <- in_list_In.
      destruct (Shutdown.containers rule) as [|x l] eqn:E.
      - simpl. split; [left; reflexivity | reflexivity].
      - cbn [Shutdown.nonempty andb].
        destruct (Shutdown.in_list c (x :: l)); simpl; split; intros H;
          try tauto; try discriminate.
        destruct H as [H|H]; discriminate. }
    rewrite Hin. tauto.
  - apply NoDup_ListNoDup, List.NoDup_filter, NoDup_ListNoDup.
    exact (NoDup_fst_map_to_list container_stats).
  - intros rule' -> ->. reflexivity.
Qed.

Lemma in_time_ranges_inverted clk ranges :
  Forall (fun r : gmap string string =>
            exists s e ts te,
              r !! "start" = Some s /\ r !! "end" = Some e
              /\ Shutdown.time_fromisoformat clk s = Ok ts
              /\ Shutdown.time_fromisoformat clk e = Ok te
              /\ te < ts) ranges ->
  Shutdown.in_time_ranges clk ranges = Ok false.
Proof.
  induction 1 as [|r ranges (s & e & ts & te & Hs & He & Hts & Hte & Hlt) _ IH];
    [reflexivity|].
  simpl. rewrite Hs, He. cbn [getitem mbind result_bind bind].
  rewrite Hts. cbn [mbind result_bind bind]. rewrite Hte. cbn [mbind result_bind bind].
  assert (E : (ts <=? Shutdown.time_of_day clk) && (Shutdown.time_of_day clk <=? te)
              = false).
  { apply andb_false_iff.
    destruct (Z_le_gt_dec ts (Shutdown.time_of_day clk)).
    - right. apply Z.leb_gt. lia.
    - left. apply Z.leb_gt. lia. }
  rewrite E. exact IH.
Qed.

(** A time range that ends before it starts, such as 22:00 to 06:00,
    matches at no time of day; and since the time ranges are looked at
    before the cron expression, a rule all of whose ranges are of this
    kind is never due, whatever its cron expression says. *)
Theorem overnight_ranges_never_due clk (rule : Shutdown.ShutdownRule) :
  Shutdown.time_ranges rule <> [] ->
  Forall (fun r : gmap string string =>
            exists s e ts te,
              r !! "start" = Some s /\ r !! "end" = Some e
              /\ Shutdown.time_fromisoformat clk s = Ok ts
              /\ Shutdown.time_fromisoformat clk e = Ok te
              /\ te < ts) (Shutdown.time_ranges rule) ->
  Shutdown._check_schedule_condition clk rule = Ok false.
Proof.
  intros Hne Hall. unfold Shutdown._check_schedule_condition.
  destruct (Shutdown.nonempty (Shutdown.days_of_week rule)
            && negb (existsb (Z.eqb (Shutdown.weekday clk)) (Shutdown.days_of_week rule)));
    [reflexivity|].
  destruct (Shutdown.time_ranges rule) as [|r rs] eqn:E; [congruence|].
  cbn [Shutdown.nonempty]. apply in_time_ranges_inverted. exact Hall.
Qed.

Lemma overnight_ranges_never_due_witness :
  Shutdown._check_schedule_condition Scenario.night_clock Scenario.night_rule = Ok false
  /\ Shutdown.cron_next Scenario.night_clock "0 23 * * *"
     = Ok (Shutdown.now Scenario.night_clock).
Proof.
  split; [|reflexivity].
  apply overnight_ranges_never_due; [discriminate|].
  constructor; [|constructor].
  exists "22:00", "06:00", 79200, 21600.
  repeat split; reflexivity.
Defined.

Lemma shutdown_calls_schedule clock_at execute
    (container_stats : gmap string (option Shutdown.ContainerStats))
    (rule : Shutdown.ShutdownRule) targets i :
  Shutdown.condition rule = Shutdown.SCHEDULE ->
  (forall c, execute c = Ok tt) ->
  (forall j, (i <= j < i + length targets)%nat ->
             exists b, Shutdown._check_schedule_condition (clock_at j) rule = Ok b) ->
  Shutdown.shutdown_calls clock_at execute container_stats rule i targets
  = (List.map snd
       (List.filter
          (fun jc : nat * string =>
             match container_stats !! jc.2 with
             | Some (Some stats) => negb (Shutdown._is_container_protected rule stats)
             | _ => false
             end
             && match Shutdown._check_schedule_condition (clock_at jc.1) rule with
                | Ok b => b
                | Raise _ => false
                end)
          (combine (seq i (length targets)) targets)),
     Ok tt).
Proof.
  intros Hcond Hexec. revert i.
  induction targets as [|c targets IH]; intros i Hsched; [reflexivity|].
  cbn [Shutdown.shutdown_calls length seq combine List.filter fst snd].
  rewrite IH by (intros j Hj; apply Hsched; simpl; lia).
  destruct (Hsched i) as [b Hb]; [simpl; lia|].
  unfold Shutdown._should_shutdown_container, Shutdown.check_condition.
  rewrite Hcond, Hb, Hexec.
  destruct (container_stats !! c) as [[stats|]|]; try reflexivity.
  destruct (Shutdown._is_container_protected rule stats); [reflexivity|].
  destruct b; reflexivity.
Qed.

Lemma combine_seq_lookup {A} (l : list A) k j (c : A) :
  In (j, c) (combine (seq k (length l)) l) ->
  exists d, j = (k + d)%nat /\ l !! d = Some c.
Proof.
  revert k. induction l as [|x l IH]; intros k; [intros []|].
  cbn [length seq combine]. intros [[= <- <-]|Hin].
  - exists 0%nat. split; [lia | reflexivity].
  - destruct (IH _ Hin) as (d & -> & Hd).
    exists (S d). split; [lia | exact Hd].
Qed.

Lemma filter_on_second {A} (p : A -> bool) (q : nat -> bool) (l : list A) i :
  (forall j, (i <= j < i + length l)%nat -> q j = true) ->
  List.map snd (List.filter (fun jc : nat * A => p jc.2 && q jc.1)
                  (combine (seq i (length l)) l))
  = List.filter p l.
Proof.
  revert i. induction l as [|x l IH]; intros i Hq; [reflexivity|].
  cbn [length seq combine List.filter fst snd].
  rewrite (Hq i) by (simpl; lia). rewrite andb_true_r.
  destruct (p x); cbn [List.map snd]; rewrite IH; try reflexivity;
    intros j Hj; apply Hq; simpl; lia.
Qed.

(** A rule with the schedule condition looks at the clock once for every
    target, when the turn of that target comes.  When no check and no
    [_execute_shutdown] raises, the containers shut down in a pass over
    the targets are, in the order of the targets, exactly the unprotected
    ones with statistics whose own check found the schedule due; the
    activity of a container plays no part.  So all unprotected targets are
    shut down when the schedule is due at every check, and a target whose
    turn comes once the schedule is no longer due, for instance after the
    grace period of a shutdown made before, is left alone. *)
Theorem schedule_rule_checked_at_each_target clock_at execute
    (container_stats : gmap string (option Shutdown.ContainerStats))
    (rule : Shutdown.ShutdownRule) targets :
  Shutdown.condition rule = Shutdown.SCHEDULE ->
  (forall c, execute c = Ok tt) ->
  (forall i, (i < length targets)%nat ->
             exists b, Shutdown._check_schedule_condition (clock_at i) rule = Ok b) ->
  let unprotected := fun c =>
    match container_stats !! c with
    | Some (Some stats) => negb (Shutdown._is_container_protected rule stats)
    | _ => false
    end in
  let due := fun i =>
    match Shutdown._check_schedule_condition (clock_at i) rule with
    | Ok b => b
    | Raise _ => false
    end in
  let out := Shutdown.shutdown_calls clock_at execute container_stats rule 0 targets in
  out = (List.map snd
           (List.filter (fun ic : nat * string => unprotected ic.2 && due ic.1)
              (combine (seq 0 (length targets)) targets)),
         Ok tt)
  /\ ((forall i, (i < length targets)%nat -> due i = true) ->
      out.1 = List.filter unprotected targets)
  /\ (forall i c, targets !! i = Some c -> due i = false -> NoDup targets ->
                  ~ In c out.1).
Proof.
  intros Hcond Hexec Hsched unprotected due out.
  assert (Hout : out = (List.map snd
                          (List.filter
                             (fun ic : nat * string => unprotected ic.2 && due ic.1)
                             (combine (seq 0 (length targets)) targets)),
                        Ok tt)).
  { subst out. apply shutdown_calls_schedule; [assumption | assumption |].
    intros j Hj. apply Hsched. lia. }
  split; [exact Hout|]. split.
  - intros Hdue. rewrite Hout. cbn [fst].
    apply filter_on_second. intros j Hj. apply Hdue. lia.
  - intros i c Hi Hnot Hnodup Hin. rewrite Hout in Hin. cbn [fst] in Hin.
    apply in_map_iff in Hin as ([j c'] & Hc & Hin). simpl in Hc. subst c'.
    apply filter_In in Hin as [Hin Hok]. simpl in Hok.
    apply andb_true_iff in Hok as [_ Hdue].
    destruct (combine_seq_lookup _ _ _ _ Hin) as (d & -> & Hd).
    assert (i = d) by (eapply NoDup_lookup; eauto).
    subst d. simpl in Hdue. congruence.
Qed.

Lemma schedule_rule_checked_at_each_target_witness :
  Shutdown.shutdown_calls Scenario.late_pass (fun _ => Ok tt)
    {["web" := Some (Scenario.c1_stats 4); "api" := Some (Scenario.c1_stats 0)]}
    Scenario.monday_rule 0 ["web"; "api"]
  = (["web"], Ok tt).
Proof.
  destruct (schedule_rule_checked_at_each_target Scenario.late_pass (fun _ => Ok tt)
              {["web" := Some (Scenario.c1_stats 4); "api" := Some (Scenario.c1_stats 0)]}
              Scenario.monday_rule ["web"; "api"]) as [H _].
  - reflexivity.
  - intros c. reflexivity.
  - intros i Hi. destruct i as [|[|i]]; [eexists; reflexivity .. |].
    simpl in Hi. lia.
  - rewrite H. vm_compute. reflexivity.
Defined.

(** ** plugin_manager.py: deactivation *)

Section Deactivation.

Context {Args Value World : Type}.
Implicit Types hooks : gmap Plugins.HookType (list (Plugins.Callback Args Value World)).
Implicit Types cbs : list (Plugins.Callback Args Value World).

Lemma keep_others_bound inst cbs :
  Forall (fun cb => Plugins.owner cb <> None) cbs ->
  Plugins.keep_others inst cbs
  = Ok (List.filter (fun cb => negb (Plugins.bound_to inst cb)) cbs).
Proof.
  induction 1 as [|cb cbs Hcb _ IH]; [reflexivity|].
  simpl. unfold Plugins.bound_to at 1.
  destruct (Plugins.owner cb) as [self|]; [|congruence].
  rewrite IH. simpl. destruct (String.eqb self inst); reflexivity.
Qed.

Lemma keep_others_ok inst cbs kept :
  Plugins.keep_others inst cbs = Ok kept ->
  Forall (fun cb => Plugins.owner cb <> None) cbs.
Proof.
  revert kept. induction cbs as [|cb cbs IH]; intros kept; [constructor|].
  simpl. destruct (Plugins.owner cb) as [self|] eqn:E; [|discriminate].
  destruct (Plugins.keep_others inst cbs) as [k|]; [|discriminate].
  intros _. constructor; [congruence | eapply IH; reflexivity].
Qed.

(** The clean-up of dicts whose callbacks are all bound methods. *)
Lemma remove_hooks_bound inst keys hooks :
  NoDup keys ->
  (forall h, In h keys ->
     exists cbs, hooks !! h = Some cbs
                 /\ Forall (fun cb => Plugins.owner cb <> None) cbs) ->
  exists hooks',
    Plugins.remove_hooks inst keys hooks = (Ok tt, hooks')
    /\ (forall h, In h keys ->
          default [] (hooks' !! h)
          = List.filter (fun cb => negb (Plugins.bound_to inst cb))
              (default [] (hooks !! h))
          /\ hooks' !! h <> Some [])
    /\ (forall h, ~ In h keys -> hooks' !! h = hooks !! h).
Proof.
  revert hooks. induction keys as [|k keys IH]; intros hooks Hnodup Hkeys.
  - exists hooks. split; [reflexivity|]. split; [intros h []|reflexivity].
  - apply NoDup_cons in Hnodup as [Hk Hnodup].
    rewrite list_elem_of_In in Hk.
    destruct (Hkeys k) as (cbs & Hcbs & Hbound); [left; reflexivity|].
    simpl. rewrite Hcbs, (keep_others_bound inst cbs Hbound).
    set (kept := List.filter _ cbs).
    set (hooks1 := match kept with
                   | [] => delete k hooks
                   | _ => <[k := kept]> hooks
                   end).
    assert (Hne : forall h, h <> k -> hooks1 !! h = hooks !! h).
    { intros h Hh. subst hooks1. destruct kept.
      - apply lookup_delete_ne. congruence.
      - apply lookup_insert_ne. congruence. }
    assert (Hat : default [] (hooks1 !! k) = kept /\ hooks1 !! k <> Some []).
    { subst hooks1. destruct kept as [|x kept'].
      - rewrite lookup_delete_eq. split; [reflexivity | discriminate].
      - rewrite lookup_insert_eq. split; [reflexivity | discriminate]. }
    destruct (IH hooks1 Hnodup) as (hooks' & Hrun & Hin & Hout).
    { intros h Hh. rewrite Hne by (intros ->; exact (Hk Hh)).
      apply Hkeys. right. exact Hh. }
    exists hooks'. split; [exact Hrun|]. split.
    + intros h [<-|Hh].
      * rewrite (Hout k Hk), Hcbs. exact Hat.
      * destruct (Hin h Hh) as [H1 H2]. split; [|exact H2].
        rewrite H1, Hne by (intros ->; exact (Hk Hh)). reflexivity.
    + intros h Hh. rewrite Hout by (intros H; apply Hh; right; exact H).
      apply Hne. intros ->. apply Hh. left. reflexivity.
Qed.

(** A callable without [__self__] under one of the keys stops the
    clean-up with an exception. *)
Lemma remove_hooks_unbound inst keys hooks h cb :
  NoDup keys ->
  (forall k, In k keys -> is_Some (hooks !! k)) ->
  In h keys -> In cb (default [] (hooks !! h)) -> Plugins.owner cb = None ->
  exists e, (Plugins.remove_hooks inst keys hooks).1 = Raise e.
Proof.
  revert hooks. induction keys as [|k keys IH]; intros hooks Hnodup Hdom Hh Hcb Hnone;
    [destruct Hh|].
  apply NoDup_cons in Hnodup as [Hk Hnodup].
  rewrite list_elem_of_In in Hk.
  destruct (Hdom k) as [cbs Hcbs]; [left; reflexivity|].
  simpl. rewrite Hcbs.
  destruct (Plugins.keep_others inst cbs) as [kept|e] eqn:Ekeep; [|eauto].
  pose proof (keep_others_ok inst cbs kept Ekeep) as Hbound.
  destruct Hh as [<-|Hh].
  { exfalso. rewrite Hcbs in Hcb. simpl in Hcb.
    rewrite Forall_forall in Hbound.
    apply list_elem_of_In, Hbound in Hcb. congruence. }
  assert (Hne : forall x, x <> k ->
            match kept with
            | [] => delete k hooks
            | _ => <[k := kept]> hooks
            end !! x = hooks !! x).
  { intros x Hx. destruct kept.
    - apply lookup_delete_ne. congruence.
    - apply lookup_insert_ne. congruence. }
  apply IH; try assumption.
  - intros x Hx. rewrite Hne by (intros ->; exact (Hk Hx)). apply Hdom. right. exact Hx.
  - rewrite Hne by (intros ->; exact (Hk Hh)). exact Hcb.
Qed.

Lemma remove_hooks_all_bound inst keys hooks :
  Plugins.keys_of hooks keys ->
  (forall h cb, In cb (default [] (hooks !! h)) -> Plugins.owner cb <> None) ->
  exists hooks',
    Plugins.remove_hooks inst keys hooks = (Ok tt, hooks')
    /\ forall h,
         default [] (hooks' !! h)
         = List.filter (fun cb => negb (Plugins.bound_to inst cb))
             (default [] (hooks !! h))
         /\ hooks' !! h <> Some [].
Proof.
  intros [Hnodup Hkeys] Hbound.
  destruct (remove_hooks_bound inst keys hooks Hnodup) as (hooks' & Hrun & Hin & Hout).
  { intros h Hh. apply Hkeys in Hh as [cbs Hcbs]. exists cbs. split; [exact Hcbs|].
    apply Forall_forall. intros cb Hcb. apply (Hbound h).
    rewrite Hcbs. apply list_elem_of_In. exact Hcb. }
  exists hooks'. split; [exact Hrun|].
  intros h. destruct (in_dec (@decide_rel _ _ eq _) h keys) as [Hh|Hh]; [auto|].
  rewrite (Hout h Hh).
  destruct (hooks !! h) as [cbs|] eqn:E.
  - exfalso. apply Hh, Hkeys. eauto.
  - split; [reflexivity | discriminate].
Qed.

Lemma filter_none {A} (f : A -> bool) l :
  Forall (fun x => f x = false) l -> List.filter f l = [].
Proof.
  induction 1 as [|x l Hx _ IH]; [reflexivity|]. simpl. rewrite Hx. exact IH.
Qed.

Lemma filter_all {A} (f : A -> bool) l :
  Forall (fun x => f x = true) l -> List.filter f l = l.
Proof.
  induction 1 as [|x l Hx _ IH]; [reflexivity|]. simpl. rewrite Hx, IH. reflexivity.
Qed.

End Deactivation.

(** Deactivating an active plugin unsubscribes the instance that the table
    of active plugins holds for it, and no other: when every registered
    callback is a bound method, the hooks lose the callbacks of that
    instance whether or not its clean-up succeeds, the callbacks bound to
    any other instance (also an earlier instance of the same plugin, left
    from an activation repeated without deactivation) stay in their order
    and are what a later trigger calls, and no hook is left with an empty
    list; when the clean-up raises, the answer is [False] and the plugin
    is still listed as active with its status unchanged.  When some
    registered callable has no [__self__], the deactivation answers
    [False] without calling the clean-up, and the plugin stays active. *)
Theorem deactivation_unsubscribes_instance {Args Value World : Type}
    (m : Plugins.Manager Args Value World) keys p inst (w : World) :
  Plugins.active_plugins m !! p = Some inst ->
  Plugins.keys_of (Plugins.hooks m) keys ->
  let out := Plugins._deactivate_plugin keys p m w in
  let others := fun h =>
    List.filter (fun cb => negb (Plugins.bound_to (Plugins.instance_id inst) cb))
      (default [] (Plugins.hooks m !! h)) in
  ((forall h cb, In cb (default [] (Plugins.hooks m !! h)) -> Plugins.owner cb <> None) ->
     (forall h, default [] (Plugins.hooks out.1.2 !! h) = others h)
     /\ (forall h args w',
           Plugins.trigger_hook (Plugins.hooks out.1.2) h args w'
           = Plugins.trigger_loop (others h) args [] w')
     /\ (forall h, Plugins.hooks out.1.2 !! h <> Some [])
     /\ out.2 = (Plugins.cleanup inst w).2
     /\ (out.1.1 = true <-> exists u, (Plugins.cleanup inst w).1 = Ok u)
     /\ (out.1.1 = true ->
           Plugins.active_plugins out.1.2 !! p = None
           /\ (is_Some (Plugins.installed_plugins m !! p) ->
               Plugins.installed_plugins out.1.2 !! p = Some Plugins.INSTALLED))
     /\ (out.1.1 = false ->
           Plugins.active_plugins out.1.2 !! p = Some inst
           /\ Plugins.installed_plugins out.1.2 = Plugins.installed_plugins m))
  /\ ((exists h cb, In cb (default [] (Plugins.hooks m !! h))
                    /\ Plugins.owner cb = None) ->
      out.1.1 = false /\ out.2 = w
      /\ Plugins.active_plugins out.1.2 = Plugins.active_plugins m
      /\ Plugins.installed_plugins out.1.2 = Plugins.installed_plugins m).
Proof.
  intros Hactive Hkeys out others. subst out others.
  unfold Plugins._deactivate_plugin. rewrite Hactive. split.
  - intros Hbound.
    destruct (remove_hooks_all_bound (Plugins.instance_id inst) keys (Plugins.hooks m)
                Hkeys Hbound) as (hooks' & Hrun & Hspec).
    rewrite Hrun.
    assert (Htrig : forall h args w',
              Plugins.trigger_hook hooks' h args w'
              = Plugins.trigger_loop
                  (List.filter
                     (fun cb => negb (Plugins.bound_to (Plugins.instance_id inst) cb))
                     (default [] (Plugins.hooks m !! h))) args [] w').
    { intros h args w'. rewrite <- (proj1 (Hspec h)). unfold Plugins.trigger_hook.
      destruct (hooks' !! h); reflexivity. }
    destruct (Plugins.cleanup inst w) as [[u|e] w1]; simpl.
    + split; [intros h; apply Hspec|].
      split; [exact Htrig|].
      split; [intros h; apply Hspec|].
      split; [reflexivity|].
      split; [split; [intros _; exists u; reflexivity | reflexivity]|].
      split; [|discriminate].
      intros _. split; [apply lookup_delete_eq|].
      intros [st Hst]. rewrite lookup_alter_eq, Hst. reflexivity.
    + split; [intros h; apply Hspec|].
      split; [exact Htrig|].
      split; [intros h; apply Hspec|].
      split; [reflexivity|].
      split; [split; [discriminate | intros [u Hu]; discriminate]|].
      split; [discriminate|].
      intros _. split; [exact Hactive | reflexivity].
  - intros (h & cb & Hcb & Hnone). destruct Hkeys as [Hnodup Hkeys].
    assert (Hh : In h keys).
    { apply Hkeys. destruct (Plugins.hooks m !! h); [eauto | destruct Hcb]. }
    destruct (remove_hooks_unbound (Plugins.instance_id inst) keys (Plugins.hooks m)
                h cb Hnodup (fun k Hk => proj1 (Hkeys k) Hk) Hh Hcb Hnone) as [e He].
    destruct (Plugins.remove_hooks (Plugins.instance_id inst) keys (Plugins.hooks m))
      as [[u|e'] hooks']; simpl in He; [discriminate|].
    simpl. repeat split; reflexivity.
Qed.

Lemma deactivation_unsubscribes_instance_witness :
  let out := Plugins._deactivate_plugin
               [Plugins.ON_HEALTH_CHECK; Plugins.ON_SCALING_EVENT]
               "slack" Scenario.slack_manager [] in
  out.1.1 = false
  /\ List.map Plugins.owner
       (default [] (Plugins.hooks out.1.2 !! Plugins.ON_HEALTH_CHECK))
     = [Some "metrics"; Some "slack"; Some "pager"]
  /\ is_Some (Plugins.active_plugins out.1.2 !! "slack").
Proof.
  intros out.
  assert (Hkeys : Plugins.keys_of (Plugins.hooks Scenario.slack_manager)
                    [Plugins.ON_HEALTH_CHECK; Plugins.ON_SCALING_EVENT]).
  { split.
    - repeat constructor; rewrite ?list_elem_of_In; simpl; intuition discriminate.
    - intros h. destruct h; vm_compute; split; intros H;
        try (destruct H as [H|[H|[]]]; discriminate);
        try (destruct H as [x Hx]; discriminate);
        eauto. }
  destruct (deactivation_unsubscribes_instance Scenario.slack_manager
              [Plugins.ON_HEALTH_CHECK; Plugins.ON_SCALING_EVENT]
              "slack" Scenario.slack_again [] eq_refl Hkeys) as [Hbound _].
  destruct Hbound as (Hhooks & _ & _ & _ & _ & _ & Hfail).
  { intros h cb. destruct h; vm_compute; intros H;
      repeat (destruct H as [<-|H]; [discriminate|]); destruct H. }
  assert (Hout : out.1.1 = false) by reflexivity.
  split; [exact Hout|]. split.
  - subst out. rewrite Hhooks. vm_compute. reflexivity.
  - destruct (Hfail Hout) as [Hstill _]. subst out. rewrite Hstill.
    eexists. reflexivity.
Defined.

(** A plain function among the callbacks keeps a plugin from being
    deactivated. *)
Example deactivation_with_plain_function :
  let m := Plugins.mkManager
             {[Plugins.ON_API_REQUEST := [Scenario.plain_function]]}
             {["slack" := Scenario.slack_again]} ∅ in
  Plugins._deactivate_plugin [Plugins.ON_API_REQUEST] "slack" m [] = (false, m, []).
Proof. vm_compute. reflexivity. Qed.

(** Activation followed by deactivation leaves the hooks as they were:
    if the callbacks registered for an instance are all bound to it, and
    the callbacks registered before are bound methods of other instances,
    the hook clean-up for the instance ends without exception and gives
    back, under every hook, the callbacks that were there before the
    registration. *)
Theorem activation_undone_by_deactivation {Args Value World : Type}
    (hooks : gmap Plugins.HookType (list (Plugins.Callback Args Value World)))
    regs inst keys :
  Forall (fun hc => Plugins.owner hc.2 = Some inst) regs ->
  (forall h', Forall (fun cb => Plugins.owner cb <> None
                                /\ Plugins.owner cb <> Some inst)
                (default [] (hooks !! h'))) ->
  Plugins.keys_of (Plugins.register_hooks hooks regs) keys ->
  exists hooks',
    Plugins.remove_hooks inst keys (Plugins.register_hooks hooks regs) = (Ok tt, hooks')
    /\ forall h, default [] (hooks' !! h) = default [] (hooks !! h).
Proof.
  intros Hown Hfresh Hkeys.
  assert (Hsubs : forall h cb, In cb (Plugins.subscribers regs h) ->
                               Plugins.owner cb = Some inst).
  { intros h cb Hin. unfold Plugins.subscribers in Hin.
    apply in_map_iff in Hin as ([h' cb'] & <- & Hin).
    apply filter_In in Hin as [Hin _].
    rewrite Forall_forall in Hown. apply list_elem_of_In, Hown in Hin. exact Hin. }
  destruct (remove_hooks_all_bound inst keys (Plugins.register_hooks hooks regs) Hkeys)
    as (hooks' & Hrun & Hspec).
  { intros h cb. rewrite register_hooks_lookup, in_app_iff. intros [Hin|Hin].
    - pose proof (Hfresh h) as Hf. rewrite Forall_forall in Hf.
      apply list_elem_of_In, Hf in Hin. tauto.
    - rewrite (Hsubs h cb Hin). discriminate. }
  exists hooks'. split; [exact Hrun|].
  intros h. rewrite (proj1 (Hspec h)), register_hooks_lookup, List.filter_app.
  rewrite (filter_all _ (default [] (hooks !! h))).
  - rewrite filter_none; [apply app_nil_r|].
    apply Forall_forall. intros cb Hin. apply list_elem_of_In in Hin.
    unfold Plugins.bound_to. rewrite (Hsubs h cb Hin), String.eqb_refl. reflexivity.
  - eapply Forall_impl; [exact (Hfresh h)|].
    intros cb [Hbound Hother]. simpl. unfold Plugins.bound_to.
    destruct (Plugins.owner cb) as [self|]; [|reflexivity].
    apply negb_true_iff, String.eqb_neq. congruence.
Qed.

Lemma activation_undone_by_deactivation_witness :
  exists hooks',
    Plugins.remove_hooks "backup"
      [Plugins.ON_HEALTH_CHECK; Plugins.ON_SCALING_EVENT; Plugins.ON_API_REQUEST]
      (Plugins.register_hooks
         (Plugins.register_hooks ∅ Scenario.registrations)
         [(Plugins.ON_HEALTH_CHECK, Scenario.logging "backup" false);
          (Plugins.ON_API_REQUEST, Scenario.logging "backup" true)])
    = (Ok tt, hooks')
    /\ forall h, default [] (hooks' !! h)
                 = default [] (Plugins.register_hooks ∅ Scenario.registrations !! h).
Proof.
  apply activation_undone_by_deactivation.
  - repeat constructor.
  - intros h'. rewrite register_hooks_lookup, lookup_empty.
    destruct h'; vm_compute; repeat constructor; discriminate.
  - split.
    + repeat constructor; rewrite ?list_elem_of_In; simpl; intuition discriminate.
    + intros h. destruct h; vm_compute; split; intros H;
        try (destruct H as [H|[H|[H|[]]]]; discriminate);
        try (destruct H as [x Hx]; discriminate);
        eauto.
Defined.
